(** * Saltbox marketing dashboard: the data pull script

    A shallow embedding of [scripts/pull-data.js] (and of the older variant
    of the same script kept in the repository) together with the properties
    of its month windower, its KPI derivation engine, its member-count
    lookup and its refresh loop.

    Conventions of the embedding.
    - The KPI engine is embedded twice.  In the first embedding the
      numbers that carry money or ratios are exact rationals ([Q]), and
      equalities between them are stated with [==]: it is the arithmetic
      the script means, and it carries the properties on which the
      rounding of a double does not bear (which field is [null], the
      share rule, the signs, the refresh loop).  In the second, the
      module [Binary64], they are IEEE 754 binary64 values as in
      JavaScript, every sum, product, quotient and [Math.round] taken as
      the script takes it: it carries the properties of the values the
      script writes.  Lead, deal and member counts are natural numbers
      ([N]), as [countByLocation] and the literal tables produce them.
    - A JavaScript object used as a map is a [gmap string _]; a missing key
      reads as [None] and [x || 0] is [default 0].  The objects of the
      script are read at the location codes, at [Corp] and at the month
      keys of [getMonthRange], none of which is a name that an object
      inherits from [Object.prototype]; where the key comes from outside
      ([countByLocation]) the inherited names are part of the model.
    - [null] is [None]: a KPI is an [option Q], and an [option float] in
      [Binary64].
    - The [Date] built-in works on local calendar days; it is embedded as
      the day number since the epoch with the day arithmetic of ECMA-262
      (section "Date Objects": DayFromYear, YearFromTime, MonthFromTime,
      DateFromTime, MakeDay).
    - NetSuite and HubSpot are functions from a request to what [fetch]
      gives back for it.  A loop over pages takes a bound on the number
      of requests and yields [None] while it is still running; a call of
      [process.exit] is a result of its own. *)

From Stdlib Require Import ZArith QArith Qround Lia String Ascii List.
From Stdlib Require Import DecimalString Lqa Qabs.
From Stdlib Require Import PrimFloat FloatOps SpecFloat.
From stdpp Require Import base gmap strings list fin_maps.

Open Scope Z_scope.

(* ===================================================================== *)
(** * The Date built-in, on calendar days *)
(* ===================================================================== *)

Module JSDate.

(** DaysInYear(y) of ECMA-262. *)
Definition DaysInYear (y : Z) : Z :=
  if negb (y mod 4 =? 0) then 365
  else if negb (y mod 100 =? 0) then 366
  else if negb (y mod 400 =? 0) then 365
  else 366.

(** DayFromYear(y): the day number of the first day of year [y]. *)
Definition DayFromYear (y : Z) : Z :=
  365 * (y - 1970) + (y - 1969) / 4 - (y - 1901) / 100 + (y - 1601) / 400.

(** YearFromTime: the largest [y] with [DayFromYear y <= d].  The
    estimate [y0] is off by at most one. *)
Definition YearFromDay (d : Z) : Z :=
  let y0 := 1970 + (400 * d) / 146097 in
  if DayFromYear (y0 + 1) <=? d then y0 + 1
  else if DayFromYear y0 <=? d then y0
  else y0 - 1.

Definition InLeapYear (d : Z) : Z :=
  if DaysInYear (YearFromDay d) =? 366 then 1 else 0.

Definition DayWithinYear (d : Z) : Z := d - DayFromYear (YearFromDay d).

(** MonthFromTime: the month index, 0 for January. *)
Definition MonthFromDay (d : Z) : Z :=
  let w := DayWithinYear d in
  let l := InLeapYear d in
  if w <? 31 then 0
  else if w <? 59 + l then 1
  else if w <? 90 + l then 2
  else if w <? 120 + l then 3
  else if w <? 151 + l then 4
  else if w <? 181 + l then 5
  else if w <? 212 + l then 6
  else if w <? 243 + l then 7
  else if w <? 273 + l then 8
  else if w <? 304 + l then 9
  else if w <? 334 + l then 10
  else 11.

(** DateFromTime: the day of the month, from 1. *)
Definition DateFromDay (d : Z) : Z :=
  let w := DayWithinYear d in
  let l := InLeapYear d in
  match MonthFromDay d with
  | 0 => w + 1
  | 1 => w - 30
  | 2 => w - 58 - l
  | 3 => w - 89 - l
  | 4 => w - 119 - l
  | 5 => w - 150 - l
  | 6 => w - 180 - l
  | 7 => w - 211 - l
  | 8 => w - 242 - l
  | 9 => w - 272 - l
  | 10 => w - 303 - l
  | _ => w - 333 - l
  end.

(** Days of the year before the first of month [mn] (0..11). *)
Definition DaysBeforeMonth (leap mn : Z) : Z :=
  match mn with
  | 0 => 0
  | 1 => 31
  | 2 => 59 + leap
  | 3 => 90 + leap
  | 4 => 120 + leap
  | 5 => 151 + leap
  | 6 => 181 + leap
  | 7 => 212 + leap
  | 8 => 243 + leap
  | 9 => 273 + leap
  | 10 => 304 + leap
  | _ => 334 + leap
  end.

(** MakeDay(year, month, date): months outside 0..11 carry into the
    year, and [date] is an offset from the first of the month, so day 0
    is the last day of the month before. *)
Definition MakeDay (year month date : Z) : Z :=
  let ym := year + month / 12 in
  let mn := month mod 12 in
  let leap := if DaysInYear ym =? 366 then 1 else 0 in
  DayFromYear ym + DaysBeforeMonth leap mn + date - 1.

(** A [Date] value: its local day number. *)
Record Date : Type := mkDate { dayNumber : Z }.

(** [new Date(year, monthIndex, day)]; a year from 0 to 99 means
    1900 + year. *)
Definition newDate (year monthIndex day : Z) : Date :=
  let yr := if (0 <=? year) && (year <=? 99) then 1900 + year else year in
  mkDate (MakeDay yr monthIndex day).

Definition getFullYear (t : Date) : Z := YearFromDay (dayNumber t).
Definition getMonth (t : Date) : Z := MonthFromDay (dayNumber t).
Definition getDate (t : Date) : Z := DateFromDay (dayNumber t).

End JSDate.

(* ===================================================================== *)
(** * Utilities *)
(* ===================================================================== *)

(** [String(n)] for an integer [n]. *)
Definition String_of_int (n : Z) : string :=
  NilZero.string_of_int (Z.to_int n).

(** [s.padStart(2, '0')]. *)
Definition padStart2 (s : string) : string :=
  match String.length s with
  | O => "00"
  | S O => "0" +:+ s
  | _ => s
  end.

Record MonthWindow : Type := mkWindow {
  key : string;
  start : string;
  end_ : string
}.

(** The body of the loop of [getMonthRange] for one value of [i]. *)
Definition monthWindow (now : JSDate.Date) (i : Z) : MonthWindow :=
  let d := JSDate.newDate (JSDate.getFullYear now) (JSDate.getMonth now - i) 1 in
  let yyyy := JSDate.getFullYear d in
  let mm := padStart2 (String_of_int (JSDate.getMonth d + 1)) in
  let lastDay := JSDate.getDate (JSDate.newDate yyyy (JSDate.getMonth d + 1) 0) in
  {| key := String_of_int yyyy +:+ "-" +:+ mm;
     start := String_of_int yyyy +:+ "-" +:+ mm +:+ "-01";
     end_ := String_of_int yyyy +:+ "-" +:+ mm +:+ "-"
             +:+ padStart2 (String_of_int lastDay) |}.

(** [for (let i = monthsBack; i >= 1; i--)]: the windows for
    [i], [i - 1], ..., [1], in that order. *)
Fixpoint monthLoop (now : JSDate.Date) (i : nat) : list MonthWindow :=
  match i with
  | O => []
  | S i' => monthWindow now (Z.of_nat i) :: monthLoop now i'
  end.

Definition getMonthRange (now : JSDate.Date) (monthsBack : Z) : list MonthWindow :=
  monthLoop now (Z.to_nat monthsBack).

(** ** What the month windower is meant to produce

    The Gregorian calendar, stated directly: the length of month [m]
    (1..12) of year [y], and the window of the month with linear index
    [12 * y + (m - 1)]. *)

Definition isLeapYear (y : Z) : bool :=
  ((y mod 4 =? 0) && negb (y mod 100 =? 0)) || (y mod 400 =? 0).

Definition daysInMonth (y m : Z) : Z :=
  match m with
  | 2 => if isLeapYear y then 29 else 28
  | 4 | 6 | 9 | 11 => 30
  | _ => 31
  end.

Definition calendarWindow (idx : Z) : MonthWindow :=
  let y := idx / 12 in
  let m := idx mod 12 + 1 in
  let yyyy := String_of_int y in
  let mm := padStart2 (String_of_int m) in
  let dd := padStart2 (String_of_int (daysInMonth y m)) in
  {| key := yyyy +:+ "-" +:+ mm;
     start := yyyy +:+ "-" +:+ mm +:+ "-01";
     end_ := yyyy +:+ "-" +:+ mm +:+ "-" +:+ dd |}.

(** The linear index of the month a date falls in. *)
Definition monthIndex (t : JSDate.Date) : Z :=
  12 * JSDate.getFullYear t + JSDate.getMonth t.

(* ===================================================================== *)
(** * Numbers, null and rounding *)
(* ===================================================================== *)

(** The numbers of this part and of the engine built on it are exact
    rationals; the same functions on doubles are in [Binary64]. *)

(** A count as a JavaScript number. *)
Definition N2Q (n : N) : Q := inject_Z (Z.of_N n).

(** [v > 0] on a number. *)
Definition isPositive (v : Q) : bool := negb (Qle_bool v 0).

(** Truthiness of a number: every number but 0 (there is no NaN among
    the rationals). *)
Definition truthy (v : Q) : bool := negb (Qeq_bool v 0).

(** [Math.round(x)] of an exact rational: the nearest integer, halves
    going up. *)
Definition Math_round (x : Q) : Z := Qfloor (x + (1 # 2)).

(** [r2(v)]: [v != null && isFinite(v) ? Math.round(v * 100) / 100 : null],
    the product, the rounding and the quotient exact.  Every rational is
    finite, so that the test of [isFinite] is always passed here and the
    [r2] of the older copy, which has no such test, is the same
    function; on doubles the two differ ([Binary64.r2] and
    [Binary64.Legacy.r2]). *)
Definition r2 (v : option Q) : option Q :=
  match v with
  | Some x => Some (inject_Z (Math_round (x * 100)) / 100)%Q
  | None => None
  end.

(** [cond ? num / den : null]. *)
Definition ratioWhen (cond : bool) (num den : Q) : option Q :=
  if cond then Some (num / den)%Q else None.

(** [a && d ? a * d : null], where [a] may be null. *)
Definition productWhenTruthy (a : option Q) (d : option Q) : option Q :=
  match a, d with
  | Some x, Some y => if truthy x && truthy y then Some (x * y)%Q else None
  | _, _ => None
  end.

(** [v || null] on a number. *)
Definition orNull (v : Q) : option Q := if truthy v then Some v else None.

(* ===================================================================== *)
(** * Configuration *)
(* ===================================================================== *)

Definition LOCATIONS : list string :=
  ["ATL-UWS"; "ATL-WSP"; "DAL-CAR"; "DAL-FB"; "DC-ALX";
   "DEN-PH"; "LA-DUA"; "LA-TOR"; "MIA-DR"; "PHX-ST"; "SEA-SODO"].

Module SALARY_CONFIG.
Definition total : Q := 72082.
End SALARY_CONFIG.

(** An object literal: its entries in source order. *)
Definition objectOf {V : Type} (entries : list (string * V)) : gmap string V :=
  list_to_map entries.

Definition KNOWN_MEMBER_COUNTS : list (string * gmap string N) :=
  [ ("2025-12", objectOf
       [("ATL-UWS", 64); ("DAL-FB", 96); ("SEA-SODO", 86); ("DEN-PH", 94);
        ("LA-TOR", 72); ("DC-ALX", 73); ("LA-DUA", 55); ("DAL-CAR", 92);
        ("ATL-WSP", 142); ("MIA-DR", 66); ("PHX-ST", 79)]%N);
    ("2026-01", objectOf
       [("ATL-UWS", 63); ("DAL-FB", 95); ("SEA-SODO", 84); ("DEN-PH", 93);
        ("LA-TOR", 73); ("DC-ALX", 73); ("LA-DUA", 58); ("DAL-CAR", 96);
        ("ATL-WSP", 141); ("MIA-DR", 66); ("PHX-ST", 86)]%N);
    ("2026-03", objectOf
       [("ATL-UWS", 64); ("DAL-FB", 106); ("SEA-SODO", 78); ("DEN-PH", 87);
        ("LA-TOR", 67); ("DC-ALX", 81); ("LA-DUA", 72); ("DAL-CAR", 108);
        ("ATL-WSP", 142); ("MIA-DR", 79); ("PHX-ST", 79)]%N) ].

Definition AVG_MEMBER_DURATION : gmap string Q :=
  objectOf
    [("ATL-UWS", 16); ("ATL-WSP", 121 # 10); ("DAL-CAR", 125 # 10);
     ("DAL-FB", 164 # 10); ("DC-ALX", 126 # 10); ("DEN-PH", 176 # 10);
     ("LA-DUA", 119 # 10); ("LA-TOR", 142 # 10); ("MIA-DR", 129 # 10);
     ("PHX-ST", 119 # 10); ("SEA-SODO", 164 # 10)]%Q.

Definition MONTHS_BACK : Z := 12.

(* ===================================================================== *)
(** * Member counts *)
(* ===================================================================== *)

(** [table[k]] on an object literal given by its entries, for a key [k]
    that is not a name inherited from [Object.prototype]; the month keys
    of [getMonthRange] are texts of digits and a hyphen.  At an inherited
    name, [constructor] for one, the script reads the inherited value:
    the lookup at any key is [AnyKey.entryOf]. *)
Fixpoint entryOf {V : Type} (table : list (string * V)) (k : string) : option V :=
  match table with
  | [] => None
  | (k', v) :: rest => if String.eqb k' k then Some v else entryOf rest k
  end.

(** [keys.sort()]: strings in increasing order of their code units. *)
Fixpoint insertSorted (k : string) (sorted : list string) : list string :=
  match sorted with
  | [] => [k]
  | k' :: rest => if String.leb k k' then k :: sorted else k' :: insertSorted k rest
  end.

Definition sortKeys (keys : list string) : list string :=
  fold_right insertSorted [] keys.

(** [for (const km of knownMonths) if (km <= monthKey) closest = km]. *)
Definition closestLoop (monthKey : string) (knownMonths : list string)
    (closest : option string) : option string :=
  fold_left (fun c km => if String.leb km monthKey then Some km else c)
            knownMonths closest.

(** The month whose counts [getMemberCounts] uses, over any table. *)
Definition closestKnownMonth (table : list (string * gmap string N))
    (monthKey : string) : option string :=
  let knownMonths := sortKeys (map fst table) in
  closestLoop monthKey knownMonths (last knownMonths).

Definition getMemberCountsIn (table : list (string * gmap string N))
    (monthKey : string) : gmap string N :=
  match entryOf table monthKey with
  | Some counts => counts
  | None =>
      match closestKnownMonth table monthKey with
      | Some closest => default ∅ (entryOf table closest)
      | None => ∅
      end
  end.

Definition getMemberCounts (monthKey : string) : gmap string N :=
  getMemberCountsIn KNOWN_MEMBER_COUNTS monthKey.

(* ===================================================================== *)
(** * KPI calculations *)
(* ===================================================================== *)

(** [calculateKPIs] on exact rationals: the sums, shares and quotients
    are the numbers the script means, without the rounding of doubles.
    The same function on doubles is [Binary64.calculateKPIs]. *)

Record KPIRecord : Type := mkKPI {
  cac : option Q;
  corpCac : option Q;
  allInCac : option Q;
  avgRevPerMember : option Q;
  avgMemberDuration : option Q;
  ltv : option Q;
  mktgSpendToRev : option Q;
  corpMktgToRev : option Q;
  allInSpendToRev : option Q;
  costPerLead : option Q
}.

(** [m[loc] || 0]. *)
Definition orZero (m : gmap string Q) (loc : string) : Q := default 0%Q (m !! loc).
Definition countOrZero (m : gmap string N) (loc : string) : N := default 0%N (m !! loc).

(** [LOCATIONS.reduce((sum, l) => sum + (mktgSpend[l] || 0), 0)]. *)
Definition totalLocSpendOf (mktgSpend : gmap string Q) : Q :=
  fold_left (fun sum l => (sum + orZero mktgSpend l)%Q) LOCATIONS 0%Q.

(** The share of the allocated costs that goes to [loc]. *)
Definition locShare (mktgSpend : gmap string Q) (loc : string) : Q :=
  let totalLocSpend := totalLocSpendOf mktgSpend in
  if isPositive totalLocSpend
  then (orZero mktgSpend loc / totalLocSpend)%Q
  else (1 / inject_Z (Z.of_nat (length LOCATIONS)))%Q.

(** The first loop: the two allocation objects, filled location by
    location. *)
Definition allocationStep (mktgSpend : gmap string Q)
    (alloc : gmap string Q * gmap string Q) (loc : string)
    : gmap string Q * gmap string Q :=
  let corpSpend := orZero mktgSpend "Corp" in
  (<[loc := (corpSpend * locShare mktgSpend loc)%Q]> (fst alloc),
   <[loc := (SALARY_CONFIG.total * locShare mktgSpend loc)%Q]> (snd alloc)).

Definition allocations (mktgSpend : gmap string Q) : gmap string Q * gmap string Q :=
  fold_left (allocationStep mktgSpend) LOCATIONS (∅, ∅).

Definition corpAllocation (mktgSpend : gmap string Q) : gmap string Q :=
  fst (allocations mktgSpend).
Definition salaryAllocation (mktgSpend : gmap string Q) : gmap string Q :=
  snd (allocations mktgSpend).

(** The five input maps of [calculateKPIs]. *)
Record Inputs : Type := mkInputs {
  revenue : gmap string Q;
  mktgSpend : gmap string Q;
  leads : gmap string N;
  newMembers : gmap string N;
  memberCounts : gmap string N
}.

(** The variables the second loop updates. *)
Record Accum : Type := mkAccum {
  acc_data : gmap string KPIRecord;
  totRev : Q;
  totSpend : Q;
  totCorpAlloc : Q;
  totSalary : Q;
  totMembers : N;
  totNewMembers : N;
  totLeads : N;
  durationWeightedSum : Q
}.

Definition accum0 : Accum :=
  mkAccum ∅ 0%Q 0%Q 0%Q 0%Q 0%N 0%N 0%N 0%Q.

(** The record of one location. *)
Definition locationKPIs (inp : Inputs) (loc : string) : KPIRecord :=
  let rev := orZero (revenue inp) loc in
  let spend := orZero (mktgSpend inp) loc in
  let corpAlloc := orZero (corpAllocation (mktgSpend inp)) loc in
  let salary := orZero (salaryAllocation (mktgSpend inp)) loc in
  let leadCount := countOrZero (leads inp) loc in
  let newMem := countOrZero (newMembers inp) loc in
  let members := countOrZero (memberCounts inp) loc in
  let duration := orZero AVG_MEMBER_DURATION loc in
  let avgRevPerMember := ratioWhen (0 <? members)%N rev (N2Q members) in
  let cac := ratioWhen (0 <? newMem)%N spend (N2Q newMem) in
  let corpCac := ratioWhen (0 <? newMem)%N (spend + corpAlloc)%Q (N2Q newMem) in
  let allInCac :=
    ratioWhen (0 <? newMem)%N (spend + corpAlloc + salary)%Q (N2Q newMem) in
  let ltv := productWhenTruthy avgRevPerMember (Some duration) in
  let mktgSpendToRev := ratioWhen (isPositive rev) spend rev in
  let corpMktgToRev := ratioWhen (isPositive rev) (spend + corpAlloc)%Q rev in
  let allInSpendToRev :=
    ratioWhen (isPositive rev) (spend + corpAlloc + salary)%Q rev in
  let costPerLead := ratioWhen (0 <? leadCount)%N spend (N2Q leadCount) in
  {| cac := r2 cac; corpCac := r2 corpCac; allInCac := r2 allInCac;
     avgRevPerMember := r2 avgRevPerMember;
     avgMemberDuration := r2 (orNull duration);
     ltv := r2 ltv; mktgSpendToRev := r2 mktgSpendToRev;
     corpMktgToRev := r2 corpMktgToRev; allInSpendToRev := r2 allInSpendToRev;
     costPerLead := r2 costPerLead |}.

(** One iteration of the second loop. *)
Definition kpiStep (inp : Inputs) (a : Accum) (loc : string) : Accum :=
  let rev := orZero (revenue inp) loc in
  let spend := orZero (mktgSpend inp) loc in
  let corpAlloc := orZero (corpAllocation (mktgSpend inp)) loc in
  let salary := orZero (salaryAllocation (mktgSpend inp)) loc in
  let leadCount := countOrZero (leads inp) loc in
  let newMem := countOrZero (newMembers inp) loc in
  let members := countOrZero (memberCounts inp) loc in
  let duration := orZero AVG_MEMBER_DURATION loc in
  {| acc_data := <[loc := locationKPIs inp loc]> (acc_data a);
     totRev := (totRev a + rev)%Q;
     totSpend := (totSpend a + spend)%Q;
     totCorpAlloc := (totCorpAlloc a + corpAlloc)%Q;
     totSalary := (totSalary a + salary)%Q;
     totMembers := (totMembers a + members)%N;
     totNewMembers := (totNewMembers a + newMem)%N;
     totLeads := (totLeads a + leadCount)%N;
     durationWeightedSum :=
       if isPositive duration && (0 <? members)%N
       then (durationWeightedSum a + duration * N2Q members)%Q
       else durationWeightedSum a |}.

Module KPIs.
Record t : Type := mk { data : gmap string KPIRecord; totals : KPIRecord }.
End KPIs.

(** The totals record, from the variables as the second loop leaves
    them. *)
Definition totalsOf (a : Accum) : KPIRecord :=
  let totDuration :=
    ratioWhen (0 <? totMembers a)%N (durationWeightedSum a) (N2Q (totMembers a)) in
  let totAvgRev :=
    ratioWhen (0 <? totMembers a)%N (totRev a) (N2Q (totMembers a)) in
  {| cac := r2 (ratioWhen (0 <? totNewMembers a)%N
                  (totSpend a) (N2Q (totNewMembers a)));
     corpCac := r2 (ratioWhen (0 <? totNewMembers a)%N
                      (totSpend a + totCorpAlloc a)%Q (N2Q (totNewMembers a)));
     allInCac := r2 (ratioWhen (0 <? totNewMembers a)%N
                       (totSpend a + totCorpAlloc a + totSalary a)%Q
                       (N2Q (totNewMembers a)));
     avgRevPerMember := r2 totAvgRev;
     avgMemberDuration := r2 totDuration;
     ltv := r2 (productWhenTruthy totAvgRev totDuration);
     mktgSpendToRev := r2 (ratioWhen (isPositive (totRev a)) (totSpend a) (totRev a));
     corpMktgToRev := r2 (ratioWhen (isPositive (totRev a))
                            (totSpend a + totCorpAlloc a)%Q (totRev a));
     allInSpendToRev := r2 (ratioWhen (isPositive (totRev a))
                              (totSpend a + totCorpAlloc a + totSalary a)%Q
                              (totRev a));
     costPerLead := r2 (ratioWhen (0 <? totLeads a)%N
                          (totSpend a) (N2Q (totLeads a))) |}.

Definition calculateKPIs (inp : Inputs) : KPIs.t :=
  let a := fold_left (kpiStep inp) LOCATIONS accum0 in
  KPIs.mk (acc_data a) (totalsOf a).

(* ===================================================================== *)
(** * The older variant of the script *)
(* ===================================================================== *)

(** The second copy of the script in the repository takes the member
    data (counts, new members and average durations) from one adapter and
    has the payroll total under the [Corp] key of its salary table. *)
Module Legacy.

Definition SALARY_CONFIG : gmap string Q :=
  objectOf
    [("ATL-UWS", 0); ("ATL-WSP", 0); ("DAL-CAR", 0); ("DAL-FB", 0);
     ("DC-ALX", 0); ("DEN-PH", 0); ("LA-DUA", 0); ("LA-TOR", 0);
     ("MIA-DR", 0); ("PHX-ST", 0); ("SEA-SODO", 0); ("Corp", 72082)]%Q.

Record MemberData : Type := mkMemberData {
  memberCounts : gmap string N;
  newMembers : gmap string N;
  avgDuration : gmap string Q
}.

Record Inputs : Type := mkInputs {
  revenue : gmap string Q;
  mktgSpend : gmap string Q;
  leads : gmap string N;
  memberData : MemberData
}.

Definition corpAllocation (mktgSpend : gmap string Q) : gmap string Q :=
  let corpSpend := orZero mktgSpend "Corp" in
  fold_left (fun alloc loc => <[loc := (corpSpend * locShare mktgSpend loc)%Q]> alloc)
            LOCATIONS ∅.

Definition salaryAllocation (mktgSpend : gmap string Q) : gmap string Q :=
  let totalSalary := orZero SALARY_CONFIG "Corp" in
  fold_left (fun alloc loc => <[loc := (totalSalary * locShare mktgSpend loc)%Q]> alloc)
            LOCATIONS ∅.

Record Accum : Type := mkAccum {
  acc_data : gmap string KPIRecord;
  totRev : Q;
  totSpend : Q;
  totCorpAlloc : Q;
  totSalary2 : Q;
  totMembers : N;
  totNewMembers : N;
  totLeads : N;
  durationSum : Q;
  durationCount : N
}.

Definition accum0 : Accum :=
  mkAccum ∅ 0%Q 0%Q 0%Q 0%Q 0%N 0%N 0%N 0%Q 0%N.

Definition locationKPIs (inp : Inputs) (loc : string) : KPIRecord :=
  let rev := orZero (revenue inp) loc in
  let spend := orZero (mktgSpend inp) loc in
  let corpAlloc := orZero (corpAllocation (mktgSpend inp)) loc in
  let salary := orZero (salaryAllocation (mktgSpend inp)) loc in
  let leadCount := countOrZero (leads inp) loc in
  let members := countOrZero (memberCounts (memberData inp)) loc in
  let newMem := countOrZero (newMembers (memberData inp)) loc in
  let duration := orZero (avgDuration (memberData inp)) loc in
  let avgRevPerMember := ratioWhen (0 <? members)%N rev (N2Q members) in
  let cac := ratioWhen (0 <? newMem)%N spend (N2Q newMem) in
  let corpCac := ratioWhen (0 <? newMem)%N (spend + corpAlloc)%Q (N2Q newMem) in
  let allInCac :=
    ratioWhen (0 <? newMem)%N (spend + corpAlloc + salary)%Q (N2Q newMem) in
  let ltv := productWhenTruthy avgRevPerMember (Some duration) in
  let mktgSpendToRev := ratioWhen (isPositive rev) spend rev in
  let corpMktgToRev := ratioWhen (isPositive rev) (spend + corpAlloc)%Q rev in
  let allInSpendToRev :=
    ratioWhen (isPositive rev) (spend + corpAlloc + salary)%Q rev in
  let costPerLead := ratioWhen (0 <? leadCount)%N spend (N2Q leadCount) in
  {| cac := r2 cac; corpCac := r2 corpCac; allInCac := r2 allInCac;
     avgRevPerMember := r2 avgRevPerMember;
     avgMemberDuration := r2 (orNull duration);
     ltv := r2 ltv; mktgSpendToRev := r2 mktgSpendToRev;
     corpMktgToRev := r2 corpMktgToRev; allInSpendToRev := r2 allInSpendToRev;
     costPerLead := r2 costPerLead |}.

Definition kpiStep (inp : Inputs) (a : Accum) (loc : string) : Accum :=
  let rev := orZero (revenue inp) loc in
  let spend := orZero (mktgSpend inp) loc in
  let corpAlloc := orZero (corpAllocation (mktgSpend inp)) loc in
  let salary := orZero (salaryAllocation (mktgSpend inp)) loc in
  let leadCount := countOrZero (leads inp) loc in
  let members := countOrZero (memberCounts (memberData inp)) loc in
  let newMem := countOrZero (newMembers (memberData inp)) loc in
  let duration := orZero (avgDuration (memberData inp)) loc in
  {| acc_data := <[loc := locationKPIs inp loc]> (acc_data a);
     totRev := (totRev a + rev)%Q;
     totSpend := (totSpend a + spend)%Q;
     totCorpAlloc := (totCorpAlloc a + corpAlloc)%Q;
     totSalary2 := (totSalary2 a + salary)%Q;
     totMembers := (totMembers a + members)%N;
     totNewMembers := (totNewMembers a + newMem)%N;
     totLeads := (totLeads a + leadCount)%N;
     durationSum :=
       if isPositive duration
       then (durationSum a + duration * N2Q members)%Q else durationSum a;
     durationCount :=
       if isPositive duration
       then (durationCount a + members)%N else durationCount a |}.

Definition totalsOf (a : Accum) : KPIRecord :=
  let totDuration :=
    ratioWhen (0 <? durationCount a)%N (durationSum a) (N2Q (durationCount a)) in
  let totAvgRev :=
    ratioWhen (0 <? totMembers a)%N (totRev a) (N2Q (totMembers a)) in
  {| cac := r2 (ratioWhen (0 <? totNewMembers a)%N
                  (totSpend a) (N2Q (totNewMembers a)));
     corpCac := r2 (ratioWhen (0 <? totNewMembers a)%N
                      (totSpend a + totCorpAlloc a)%Q (N2Q (totNewMembers a)));
     allInCac := r2 (ratioWhen (0 <? totNewMembers a)%N
                       (totSpend a + totCorpAlloc a + totSalary2 a)%Q
                       (N2Q (totNewMembers a)));
     avgRevPerMember := r2 totAvgRev;
     avgMemberDuration := r2 totDuration;
     ltv := r2 (productWhenTruthy totAvgRev totDuration);
     mktgSpendToRev :=
       r2 (ratioWhen (isPositive (totRev a)) (totSpend a) (totRev a));
     corpMktgToRev := r2 (ratioWhen (isPositive (totRev a))
                            (totSpend a + totCorpAlloc a)%Q (totRev a));
     allInSpendToRev := r2 (ratioWhen (isPositive (totRev a))
                              (totSpend a + totCorpAlloc a + totSalary2 a)%Q
                              (totRev a));
     costPerLead := r2 (ratioWhen (0 <? totLeads a)%N
                          (totSpend a) (N2Q (totLeads a))) |}.

Definition calculateKPIs (inp : Inputs) : KPIs.t :=
  let a := fold_left (kpiStep inp) LOCATIONS accum0 in
  KPIs.mk (acc_data a) (totalsOf a).

End Legacy.

(* ===================================================================== *)
(** * Main: the refresh loop *)
(* ===================================================================== *)

Module Dataset.
Record t : Type := mk {
  lastUpdated : option string;
  months : list string;
  locations : list string;
  data : gmap string (gmap string KPIRecord);
  totals : gmap string KPIRecord
}.
End Dataset.

(** What a call that may throw comes back with. *)
Inductive Outcome (A : Type) : Type :=
| Returned (a : A)
| Thrown (message : string).
Arguments Returned {A} a.
Arguments Thrown {A} message.

Definition andThen {A B : Type} (c : Outcome A) (k : A -> Outcome B) : Outcome B :=
  match c with
  | Returned a => k a
  | Thrown message => Thrown message
  end.

Notation "'await' x <- c ; k" := (andThen c (fun x => k))
  (at level 10, x name, c at level 100, k at level 200).

(** The source adapters, each called with a window's start and end. *)
Record Adapters : Type := mkAdapters {
  pullNetSuiteRevenue : string -> string -> Outcome (gmap string Q);
  pullNetSuiteMarketingSpend : string -> string -> Outcome (gmap string Q);
  pullHubSpotLeads : string -> string -> Outcome (gmap string N);
  pullHubSpotNewMembers : string -> string -> Outcome (gmap string N)
}.

(** The baseline file on disk when the run starts. *)
Inductive BaselineFile : Type :=
| NoFile
| Unreadable
| Parsed (existing : Dataset.t).

Definition loadExisting (f : BaselineFile) : Dataset.t :=
  match f with
  | Parsed existing => existing
  | NoFile | Unreadable => Dataset.mk None [] LOCATIONS ∅ ∅
  end.

(** What the loop reports for a month. *)
Inductive Report : Type :=
| UsingCachedData (monthKey : string)
| Pulled (monthKey : string)
| FallingBackToCachedData (monthKey : string) (message : string)
| Skipping (monthKey : string) (message : string).

(** [obj[k] = v] where [v] may be undefined: an undefined property is
    not written to the JSON file. *)
Definition assign {V : Type} (k : string) (v : option V) (obj : gmap string V)
    : gmap string V :=
  match v with
  | Some x => <[k := x]> obj
  | None => delete k obj
  end.

(** [result.data[k] = existing.data[k]; result.totals[k] = existing.totals[k]]. *)
Definition copyFromExisting (existing : Dataset.t) (k : string) (result : Dataset.t)
    : Dataset.t :=
  Dataset.mk (Dataset.lastUpdated result) (Dataset.months result)
    (Dataset.locations result)
    (assign k (Dataset.data existing !! k) (Dataset.data result))
    (assign k (Dataset.totals existing !! k) (Dataset.totals result)).

Definition storeKPIs (k : string) (kpis : KPIs.t) (result : Dataset.t) : Dataset.t :=
  Dataset.mk (Dataset.lastUpdated result) (Dataset.months result)
    (Dataset.locations result)
    (<[k := KPIs.data kpis]> (Dataset.data result))
    (<[k := KPIs.totals kpis]> (Dataset.totals result)).

(** [month === months[months.length - 1] || month === months[months.length - 2]]
    for the window at position [i]: the windows are distinct objects, so
    the comparison is one of positions, and a position before the start
    of the list holds no window. *)
Definition isRecent (months : list MonthWindow) (i : nat) : bool :=
  let len := Z.of_nat (length months) in
  (Z.of_nat i =? len - 1) || (Z.of_nat i =? len - 2).

(** [existing.data?.[month.key] && !isRecent]. *)
Definition useCached (existing : Dataset.t) (months : list MonthWindow)
    (i : nat) (month : MonthWindow) : bool :=
  bool_decide (is_Some (Dataset.data existing !! key month))
  && negb (isRecent months i).

(** The body of the [try] block up to the KPI records. *)
Definition pullMonth (src : Adapters) (month : MonthWindow) : Outcome KPIs.t :=
  await revenue <- pullNetSuiteRevenue src (start month) (end_ month);
  await spend <- pullNetSuiteMarketingSpend src (start month) (end_ month);
  await leads <- pullHubSpotLeads src (start month) (end_ month);
  await newMembers <- pullHubSpotNewMembers src (start month) (end_ month);
  let memberCounts := getMemberCounts (key month) in
  Returned (calculateKPIs (mkInputs revenue spend leads newMembers memberCounts)).

(** One iteration of the loop over the windows. *)
Definition mainStep (existing : Dataset.t) (src : Adapters)
    (months : list MonthWindow) (i : nat) (month : MonthWindow)
    (st : Dataset.t * list Report) : Dataset.t * list Report :=
  let '(result, log) := st in
  if useCached existing months i month then
    (copyFromExisting existing (key month) result,
     log ++ [UsingCachedData (key month)])
  else
    match pullMonth src month with
    | Returned kpis =>
        (storeKPIs (key month) kpis result, log ++ [Pulled (key month)])
    | Thrown message =>
        if bool_decide (is_Some (Dataset.data existing !! key month)) then
          (copyFromExisting existing (key month) result,
           log ++ [FallingBackToCachedData (key month) message])
        else (result, log ++ [Skipping (key month) message])
    end.

(** [for (const month of months)], from position [i] on. *)
Fixpoint mainLoop (existing : Dataset.t) (src : Adapters)
    (months : list MonthWindow) (i : nat) (rest : list MonthWindow)
    (st : Dataset.t * list Report) : Dataset.t * list Report :=
  match rest with
  | [] => st
  | month :: rest' =>
      mainLoop existing src months (S i) rest'
        (mainStep existing src months i month st)
  end.

(** The run over a given list of windows: the dataset that is written
    and the report. *)
Definition run (stamp : string) (existing : Dataset.t) (src : Adapters)
    (months : list MonthWindow) : Dataset.t * list Report :=
  let result := Dataset.mk (Some stamp) (map key months) LOCATIONS ∅ ∅ in
  mainLoop existing src months 0 months (result, []).

(** [main]: [now] is the current date and [stamp] its ISO rendering. *)
Definition main (now : JSDate.Date) (stamp : string) (file : BaselineFile)
    (src : Adapters) : Dataset.t * list Report :=
  run stamp (loadExisting file) src (getMonthRange now MONTHS_BACK).

(* ===================================================================== *)
(** * Definitions used to state the properties *)
(* ===================================================================== *)

(** Sums as the specification writes them. *)
Definition sumQ (l : list Q) : Q := fold_right Qplus 0%Q l.
Definition sumN (l : list N) : N := fold_right N.add 0%N l.

(** The sum of [f] over the enumerated locations. *)
Definition overLocations (f : string -> Q) : Q := sumQ (map f LOCATIONS).
Definition countOverLocations (f : string -> N) : N := sumN (map f LOCATIONS).

(** What the second loop reads for a location. *)
Definition revOf (inp : Inputs) (loc : string) : Q := orZero (revenue inp) loc.
Definition spendOf (inp : Inputs) (loc : string) : Q := orZero (mktgSpend inp) loc.
Definition corpAllocOf (inp : Inputs) (loc : string) : Q :=
  orZero (corpAllocation (mktgSpend inp)) loc.
Definition salaryOf (inp : Inputs) (loc : string) : Q :=
  orZero (salaryAllocation (mktgSpend inp)) loc.
Definition leadsOf (inp : Inputs) (loc : string) : N := countOrZero (leads inp) loc.
Definition newMembersOf (inp : Inputs) (loc : string) : N :=
  countOrZero (newMembers inp) loc.
Definition membersOf (inp : Inputs) (loc : string) : N :=
  countOrZero (memberCounts inp) loc.
Definition tenureOf (loc : string) : Q := orZero AVG_MEMBER_DURATION loc.

(** The share rule as the specification words it: the proportional
    share whenever the total direct spend is not zero. *)
Definition proportionalWheneverNonzero (ms : gmap string Q) : Prop :=
  (~ overLocations (orZero ms) == 0)%Q ->
  forall loc, loc ∈ LOCATIONS ->
    (locShare ms loc == orZero ms loc / overLocations (orZero ms))%Q.

(** The end-to-end scenario of the specification, with ATL-UWS and
    ATL-WSP as the two locations. *)
Definition scenarioInputs : Inputs :=
  mkInputs (objectOf [("ATL-UWS", 1000%Q); ("ATL-WSP", 0%Q)])
           (objectOf [("ATL-UWS", 100%Q); ("Corp", 50%Q)])
           ∅
           (objectOf [("ATL-UWS", 5%N)])
           (objectOf [("ATL-UWS", 10%N)]).

(** Two inputs that read the same at every enumerated location, and at
    [Corp] in the spend map. *)
Definition sameReadings (inp inp' : Inputs) : Prop :=
  (forall loc, loc ∈ LOCATIONS ->
     orZero (revenue inp) loc = orZero (revenue inp') loc
     /\ orZero (mktgSpend inp) loc = orZero (mktgSpend inp') loc
     /\ countOrZero (leads inp) loc = countOrZero (leads inp') loc
     /\ countOrZero (newMembers inp) loc = countOrZero (newMembers inp') loc
     /\ countOrZero (memberCounts inp) loc = countOrZero (memberCounts inp') loc)
  /\ orZero (mktgSpend inp) "Corp" = orZero (mktgSpend inp') "Corp".

(** The same for the older variant, whose tenures are an input too. *)
Definition legacySameReadings (inp inp' : Legacy.Inputs) : Prop :=
  (forall loc, loc ∈ LOCATIONS ->
     orZero (Legacy.revenue inp) loc = orZero (Legacy.revenue inp') loc
     /\ orZero (Legacy.mktgSpend inp) loc = orZero (Legacy.mktgSpend inp') loc
     /\ countOrZero (Legacy.leads inp) loc = countOrZero (Legacy.leads inp') loc
     /\ countOrZero (Legacy.memberCounts (Legacy.memberData inp)) loc
        = countOrZero (Legacy.memberCounts (Legacy.memberData inp')) loc
     /\ countOrZero (Legacy.newMembers (Legacy.memberData inp)) loc
        = countOrZero (Legacy.newMembers (Legacy.memberData inp')) loc
     /\ orZero (Legacy.avgDuration (Legacy.memberData inp)) loc
        = orZero (Legacy.avgDuration (Legacy.memberData inp')) loc)
  /\ orZero (Legacy.mktgSpend inp) "Corp" = orZero (Legacy.mktgSpend inp') "Corp".

(** The planner's two decisions, read off the report of a month: the
    sources are queried for every report but [UsingCachedData]. *)
Inductive Decision : Type := REUSE | RECOMPUTE.

Definition decisionOf (r : Report) : Decision :=
  match r with
  | UsingCachedData _ => REUSE
  | Pulled _ | FallingBackToCachedData _ _ | Skipping _ _ => RECOMPUTE
  end.

Definition monthOf (r : Report) : string :=
  match r with
  | UsingCachedData k | Pulled k | FallingBackToCachedData k _ | Skipping k _ => k
  end.

(** The report of the window at position [i]. *)
Definition reportOf (existing : Dataset.t) (src : Adapters)
    (months : list MonthWindow) (i : nat) (month : MonthWindow) : Report :=
  if useCached existing months i month then UsingCachedData (key month)
  else match pullMonth src month with
       | Returned _ => Pulled (key month)
       | Thrown message =>
           if bool_decide (is_Some (Dataset.data existing !! key month))
           then FallingBackToCachedData (key month) message
           else Skipping (key month) message
       end.

Fixpoint reportsFrom (existing : Dataset.t) (src : Adapters)
    (months : list MonthWindow) (i : nat) (rest : list MonthWindow) : list Report :=
  match rest with
  | [] => []
  | month :: rest' =>
      reportOf existing src months i month
      :: reportsFrom existing src months (S i) rest'
  end.

(** What a step leaves at the key of its own month. *)
Definition dataAfter (existing : Dataset.t) (src : Adapters)
    (months : list MonthWindow) (i : nat) (month : MonthWindow)
    (before : option (gmap string KPIRecord)) : option (gmap string KPIRecord) :=
  if useCached existing months i month then Dataset.data existing !! key month
  else match pullMonth src month with
       | Returned kpis => Some (KPIs.data kpis)
       | Thrown _ =>
           if bool_decide (is_Some (Dataset.data existing !! key month))
           then Dataset.data existing !! key month else before
       end.

Definition totalsAfter (existing : Dataset.t) (src : Adapters)
    (months : list MonthWindow) (i : nat) (month : MonthWindow)
    (before : option KPIRecord) : option KPIRecord :=
  if useCached existing months i month then Dataset.totals existing !! key month
  else match pullMonth src month with
       | Returned kpis => Some (KPIs.totals kpis)
       | Thrown _ =>
           if bool_decide (is_Some (Dataset.data existing !! key month))
           then Dataset.totals existing !! key month else before
       end.

(** ** A small run, for the statements below

    Four windows, November 2023 to February 2024; a baseline that holds
    October 2023, December 2023 and January 2024; sources that answer
    with empty maps, and sources whose ledger is down. *)

Definition fourWindows : list MonthWindow := getMonthRange (JSDate.mkDate 19797) 4.

Definition staleRecord : KPIRecord :=
  mkKPI (Some 1%Q) None None None None None None None None None.

Definition sampleBaseline : Dataset.t :=
  Dataset.mk (Some "2024-02-15T06:00:00.000Z") ["2023-10"; "2023-12"; "2024-01"]
    LOCATIONS
    (objectOf [("2023-10", objectOf [("ATL-UWS", staleRecord)]);
               ("2023-12", objectOf [("ATL-UWS", staleRecord)]);
               ("2024-01", objectOf [("ATL-UWS", staleRecord)])])
    (objectOf [("2023-10", staleRecord); ("2023-12", staleRecord);
               ("2024-01", staleRecord)]).

Definition sampleStamp : string := "2024-03-15T06:00:00.000Z".

Definition quietSources : Adapters :=
  mkAdapters (fun _ _ => Returned ∅) (fun _ _ => Returned ∅)
             (fun _ _ => Returned ∅) (fun _ _ => Returned ∅).

Definition ledgerDown : Adapters :=
  mkAdapters (fun _ _ => Thrown "NetSuite API 500: unavailable")
             (fun _ _ => Returned ∅) (fun _ _ => Returned ∅) (fun _ _ => Returned ∅).

(** The older variant reads the tenures from the member data. *)
Definition legacyTenureOf (inp : Legacy.Inputs) (loc : string) : Q :=
  orZero (Legacy.avgDuration (Legacy.memberData inp)) loc.
Definition legacyMembersOf (inp : Legacy.Inputs) (loc : string) : N :=
  countOrZero (Legacy.memberCounts (Legacy.memberData inp)) loc.

(** The aggregate tenure as the specification words it, over all the
    enumerated locations, for the older variant. *)
Definition legacyMeanOverAllLocations (inp : Legacy.Inputs) : option Q :=
  r2 (ratioWhen (0 <? countOverLocations (legacyMembersOf inp))%N
        (overLocations (fun loc => legacyTenureOf inp loc
                                   * N2Q (legacyMembersOf inp loc))%Q)
        (N2Q (countOverLocations (legacyMembersOf inp)))).

(** Ten members each at two locations; at the first the average
    duration came out negative (memberships that start in the future), at
    the second it is 12 months. *)
Definition futureStartInputs : Legacy.Inputs :=
  Legacy.mkInputs ∅ ∅ ∅
    (Legacy.mkMemberData
       (objectOf [("ATL-UWS", 10%N); ("ATL-WSP", 10%N)]) ∅
       (objectOf [("ATL-UWS", (-1)%Q); ("ATL-WSP", 12%Q)])).

(** Reading a key ["YYYY-MM"] back into the linear index of its month. *)
Definition digitValue (c : ascii) : Z := Z.of_nat (nat_of_ascii c) - 48.

Fixpoint parseDigits (s : string) (acc : Z) : Z :=
  match s with
  | EmptyString => acc
  | String c s' => parseDigits s' (10 * acc + digitValue c)
  end.

Definition monthIndexOfKey (k : string) : Z :=
  12 * parseDigits (substring 0 4 k) 0 + parseDigits (substring 5 2 k) 0 - 1.

(** [f] holds at [lo], [lo + 1], ..., [lo + n - 1]. *)
Fixpoint allFrom (f : Z -> bool) (lo : Z) (n : nat) : bool :=
  match n with
  | O => true
  | S n' => f lo && allFrom f (lo + 1) n'
  end.

(* ===================================================================== *)
(** * The environment and the NetSuite client *)
(* ===================================================================== *)

(** [process.env]: the variables that are set, with their values. *)
Definition Env : Type := gmap string string.

(** A step that may end the process by [process.exit(code)], after a
    line on the error stream. *)
Inductive Process (A : Type) : Type :=
| Continues (a : A)
| Exits (code : Z) (stderr : string).
Arguments Continues {A} a.
Arguments Exits {A} code stderr.

Definition thenDo {A B : Type} (p : Process A) (k : A -> Process B) : Process B :=
  match p with
  | Continues a => k a
  | Exits code stderr => Exits code stderr
  end.

Notation "'need' x <- p ; k" := (thenDo p (fun x => k))
  (at level 10, x name, p at level 100, k at level 200).

(** Truthiness of a string that may be undefined: every string but the
    empty one. *)
Definition truthyString (val : option string) : bool :=
  match val with
  | Some (String _ _) => true
  | _ => false
  end.

(** [val || '']. *)
Definition orEmpty (val : option string) : string :=
  if truthyString val then default EmptyString val else EmptyString.

(** [env(name, required = true)]. *)
Definition env (environment : Env) (name : string) (required : bool) : Process string :=
  let val := environment !! name in
  if negb (truthyString val) && required then
    Exits 1 ("Missing required environment variable: " +:+ name)
  else Continues (orEmpty val).

(** [s.replace(/_/g, '-')] and the like: every occurrence. *)
Fixpoint replaceAll (from to : ascii) (s : string) : string :=
  match s with
  | EmptyString => EmptyString
  | String c s' =>
      String (if Ascii.eqb c from then to else c) (replaceAll from to s')
  end.

(** [s.replace('_', '-')] and the like: the first occurrence only. *)
Fixpoint replaceFirst (from to : ascii) (s : string) : string :=
  match s with
  | EmptyString => EmptyString
  | String c s' =>
      if Ascii.eqb c from then String to s' else String c (replaceFirst from to s')
  end.

(** [s.toLowerCase()] on a text of ASCII characters. *)
Definition lowerCaseOf (c : ascii) : ascii :=
  let n := nat_of_ascii c in
  if (65 <=? n)%nat && (n <=? 90)%nat then ascii_of_nat (n + 32) else c.

Fixpoint toLowerCase (s : string) : string :=
  match s with
  | EmptyString => EmptyString
  | String c s' => String (lowerCaseOf c) (toLowerCase s')
  end.

(** [f(a)] inside the result of an awaited call that may still be
    pending. *)
Definition mapOutcome {A B : Type} (f : A -> B) (c : option (Outcome A))
    : option (Outcome B) :=
  match c with
  | Some (Returned a) => Some (Returned (f a))
  | Some (Thrown message) => Some (Thrown message)
  | None => None
  end.

(** [result[name] = v] on an object literal: the name [__proto__] is the
    inherited accessor, and assigning a number to it adds no property. *)
Definition assignOwn {V : Type} (name : string) (v : V) (result : gmap string V)
    : gmap string V :=
  if String.eqb name "__proto__" then result else <[name := v]> result.

Module NetSuite.

(** What [createNetSuiteClient] keeps for [runSuiteQL]. *)
Record Client : Type := mkClient {
  baseUrl : string;
  realm : string;
  consumer : string * string;
  token : string * string
}.

(** The host name of the account:
    [accountId.replace(/_/g, '-').toLowerCase()]. *)
Definition hostOf (accountId : string) : string :=
  toLowerCase (replaceAll "_" "-" accountId).

(** The host name in the older variant: [accountId.replace('_', '-')]. *)
Definition legacyHostOf (accountId : string) : string :=
  replaceFirst "_" "-" accountId.

Definition createNetSuiteClient (environment : Env) : Process Client :=
  need accountId <- env environment "NETSUITE_ACCOUNT_ID" true;
  need consumerKey <- env environment "NETSUITE_CONSUMER_KEY" true;
  need consumerSecret <- env environment "NETSUITE_CONSUMER_SECRET" true;
  need tokenId <- env environment "NETSUITE_TOKEN_ID" true;
  need tokenSecret <- env environment "NETSUITE_TOKEN_SECRET" true;
  Continues
    (mkClient ("https://" +:+ hostOf accountId +:+ ".suitetalk.api.netsuite.com")
              accountId (consumerKey, consumerSecret) (tokenId, tokenSecret)).

(** A row of a result: [location_name] and [total_amount], which is
    null for an empty sum. *)
Record Row : Type := mkRow {
  location_name : string;
  total_amount : option Q
}.

(** The query: the template of the source with what fills its holes,
    the dates of the window, the pattern of the account numbers and the
    quoted location names. *)
Record Query : Type := mkQuery {
  startDate : string;
  endDate : string;
  acctnumber : string;
  locList : string
}.

(** A request of [runSuiteQL]: the URL is made of the base URL, the limit
    and the offset; the body carries the query.  The signature header,
    which changes with the clock, is left out. *)
Record Request : Type := mkRequest {
  host : string;
  limit : Z;
  offset : Z;
  q : Query
}.

(** What [fetch] gives back: it rejects (or the body is no JSON), or the
    response is not OK, or it is OK with a body whose [items] may be
    missing and whose [hasMore] is a boolean or something else. *)
Inductive Response : Type :=
| Failed (message : string)
| NotOk (status : Z) (text : string)
| Ok (items : option (list Row)) (hasMore : option bool).

(** The service, as what it answers to a request. *)
Definition Server : Type := Request -> Response.

(** [data.hasMore === true]. *)
Definition isTrue (hasMore : option bool) : bool :=
  match hasMore with
  | Some true => true
  | _ => false
  end.

(** The [while (hasMore)] loop of [runSuiteQL], entered with [hasMore]
    true; [fuel] bounds the number of requests, and [None] is a loop that
    is still running. *)
Fixpoint suiteQLLoop (fuel : nat) (server : Server) (ns : Client) (query : Query)
    (limit : Z) (allItems : list Row) (offset : Z) : option (Outcome (list Row)) :=
  match fuel with
  | O => None
  | S fuel' =>
      match server (mkRequest (baseUrl ns) limit offset query) with
      | Failed message => Some (Thrown message)
      | NotOk status text =>
          Some (Thrown ("NetSuite API " +:+ String_of_int status +:+ ": " +:+ text))
      | Ok data_items data_hasMore =>
          let items := default [] data_items in
          let allItems := allItems ++ items in
          if isTrue data_hasMore then
            suiteQLLoop fuel' server ns query limit allItems
                        (offset + Z.of_nat (length items))
          else Some (Returned allItems)
      end
  end.

Definition runSuiteQL (fuel : nat) (server : Server) (ns : Client) (query : Query)
    (limit : Z) : option (Outcome (list Row)) :=
  suiteQLLoop fuel server ns query limit [] 0.

(** [names.map(l => `'${l}'`).join(', ')]. *)
Fixpoint joinQuoted (names : list string) : string :=
  match names with
  | [] => EmptyString
  | [l] => "'" +:+ l +:+ "'"
  | l :: rest => "'" +:+ l +:+ "', " +:+ joinQuoted rest
  end.

(** [row.total_amount || 0]. *)
Definition amountOf (row : Row) : Q :=
  match total_amount row with
  | Some a => if truthy a then a else 0%Q
  | None => 0%Q
  end.

(** The loop of [pullNetSuiteRevenue] over the rows: the sign is
    dropped. *)
Definition revenueOfRows (rows : list Row) : gmap string Q :=
  fold_left (fun result row => assignOwn (location_name row) (Qabs (amountOf row)) result)
            rows ∅.

(** The loop of [pullNetSuiteMarketingSpend] over the rows. *)
Definition spendOfRows (rows : list Row) : gmap string Q :=
  fold_left (fun result row => assignOwn (location_name row) (amountOf row) result)
            rows ∅.

Definition pullNetSuiteRevenue (fuel : nat) (server : Server) (ns : Client)
    (startDate endDate : string) : option (Outcome (gmap string Q)) :=
  let locList := joinQuoted LOCATIONS in
  let query := mkQuery startDate endDate "4%" locList in
  mapOutcome revenueOfRows (runSuiteQL fuel server ns query 200).

Definition pullNetSuiteMarketingSpend (fuel : nat) (server : Server) (ns : Client)
    (startDate endDate : string) : option (Outcome (gmap string Q)) :=
  let locList := joinQuoted (LOCATIONS ++ ["Corp"]) in
  let query := mkQuery startDate endDate "65%" locList in
  mapOutcome spendOfRows (runSuiteQL fuel server ns query 200).

End NetSuite.

(* ===================================================================== *)
(** * Parsing a date *)
(* ===================================================================== *)

Definition msPerDay : Z := 86400000.

Definition isDigit (c : ascii) : bool :=
  let n := nat_of_ascii c in (48 <=? n)%nat && (n <=? 57)%nat.

(** A run of decimal digits as a number. *)
Definition readDigits (s : string) : option Z :=
  if forallb isDigit (list_ascii_of_string s) then Some (parseDigits s 0) else None.

(** The date form [YYYY-MM-DD] of ECMA-262: the day number of that
    calendar day. *)
Definition parseDateOnly (s : string) : option Z :=
  if Nat.eqb (String.length s) 10
     && String.eqb (substring 4 1 s) "-" && String.eqb (substring 7 1 s) "-"
  then
    match readDigits (substring 0 4 s), readDigits (substring 5 2 s),
          readDigits (substring 8 2 s) with
    | Some y, Some m, Some d =>
        if (1 <=? m) && (m <=? 12) && (1 <=? d) && (d <=? daysInMonth y m)
        then Some (JSDate.MakeDay y (m - 1) d) else None
    | _, _, _ => None
    end
  else None.

(** The time form [THH:mm:ssZ]: milliseconds into the day. *)
Definition parseTimeUTC (s : string) : option Z :=
  if Nat.eqb (String.length s) 10
     && String.eqb (substring 0 1 s) "T" && String.eqb (substring 3 1 s) ":"
     && String.eqb (substring 6 1 s) ":" && String.eqb (substring 9 1 s) "Z"
  then
    match readDigits (substring 1 2 s), readDigits (substring 4 2 s),
          readDigits (substring 7 2 s) with
    | Some h, Some mi, Some sec =>
        if (h <=? 23) && (mi <=? 59) && (sec <=? 59)
        then Some (((h * 60 + mi) * 60 + sec) * 1000) else None
    | _, _, _ => None
    end
  else None.

(** [new Date(text).getTime()] for the two forms the script builds: a
    date alone is midnight UTC of that day, a date with a time and [Z] is
    that instant.  [None] is a text of another form, whose reading
    ECMA-262 leaves to the implementation. *)
Definition Date_parse (text : string) : option Z :=
  match parseDateOnly text with
  | Some day => Some (day * msPerDay)
  | None =>
      match parseDateOnly (substring 0 10 text),
            parseTimeUTC (substring 10 10 text) with
      | Some day, Some ms =>
          if Nat.eqb (String.length text) 20 then Some (day * msPerDay + ms) else None
      | _, _ => None
      end
  end.

(* ===================================================================== *)
(** * HubSpot *)
(* ===================================================================== *)

Definition HUBSPOT_LOCATION_MAP : gmap string string :=
  objectOf
    [("Atlanta Upper Westside", "ATL-UWS"); ("Atlanta Westside Park", "ATL-WSP");
     ("Dallas Carrollton", "DAL-CAR"); ("Dallas Farmers Branch", "DAL-FB");
     ("DC Alexandria", "DC-ALX"); ("Denver", "DEN-PH"); ("LA Duarte", "LA-DUA");
     ("LA Torrance", "LA-TOR"); ("Miami", "MIA-DR"); ("Phoenix", "PHX-ST");
     ("Seattle", "SEA-SODO")]%string.

Definition HUBSPOT_CLOSED_WON_STAGE : string := "268641940".

(** What an object literal inherits from [Object.prototype], each name
    with the property key its value becomes in [counts[mapped]]: the text
    of a built-in function, and for the prototype itself the text of an
    object. *)
Definition Object_prototype : gmap string string :=
  objectOf
    [("constructor", "function Object() { [native code] }");
     ("__defineGetter__", "function __defineGetter__() { [native code] }");
     ("__defineSetter__", "function __defineSetter__() { [native code] }");
     ("hasOwnProperty", "function hasOwnProperty() { [native code] }");
     ("__lookupGetter__", "function __lookupGetter__() { [native code] }");
     ("__lookupSetter__", "function __lookupSetter__() { [native code] }");
     ("isPrototypeOf", "function isPrototypeOf() { [native code] }");
     ("propertyIsEnumerable", "function propertyIsEnumerable() { [native code] }");
     ("toString", "function toString() { [native code] }");
     ("valueOf", "function valueOf() { [native code] }");
     ("__proto__", "[object Object]");
     ("toLocaleString", "function toLocaleString() { [native code] }")]%string.

Module HubSpot.

(** A contact or a deal of a search result; [properties] may be
    missing, and a property that is null or not there reads as [None]. *)
Record Item : Type := mkItem {
  properties : option (gmap string string)
}.

(** The value a filter compares with: a time in milliseconds, as
    [Date_parse] reads it, or a text. *)
Inductive FilterValue : Type :=
| Time (ms : option Z)
| Text (s : string).

Record Filter : Type := mkFilter {
  propertyName : string;
  operator : string;
  value : FilterValue
}.

(** A search request: the endpoint of the URL, the bearer token of the
    header and the body. *)
Record Request : Type := mkRequest {
  endpoint : string;
  bearer : string;
  filters : list Filter;
  requested : list string;
  limit : Z;
  after : option string
}.

(** What [fetch] gives back: it rejects (or the body is no JSON), or the
    response is not OK, or it is OK with a body whose [results] may be
    missing and whose [paging?.next?.after] is a cursor or undefined. *)
Inductive Response : Type :=
| Failed (message : string)
| NotOk (status : Z) (text : string)
| Ok (results : option (list Item)) (next : option string).

Definition Server : Type := Request -> Response.

(** The [while (true)] loop of [hubspotSearch]; [fuel] bounds the number
    of requests, and [None] is a loop that is still running. *)
Fixpoint searchLoop (fuel : nat) (server : Server) (endpoint : string)
    (filters : list Filter) (properties : list string) (token : string)
    (results : list Item) (after : option string) : option (Outcome (list Item)) :=
  match fuel with
  | O => None
  | S fuel' =>
      match server (mkRequest endpoint token filters properties 100 after) with
      | Failed message => Some (Thrown message)
      | NotOk status text => Some (Returned results)
      | Ok data_results next =>
          let results := results ++ default [] data_results in
          if truthyString next then
            searchLoop fuel' server endpoint filters properties token results next
          else Some (Returned results)
      end
  end.

Definition hubspotSearch (fuel : nat) (server : Server) (endpoint : string)
    (filters : list Filter) (properties : list string) (token : string)
    : option (Outcome (list Item)) :=
  searchLoop fuel server endpoint filters properties token [] None.

(** [item.properties?.[locationProp] || '']. *)
Definition locationOf (item : Item) (locationProp : string) : string :=
  orEmpty (properties item ≫= (fun p => p !! locationProp)).

(** [HUBSPOT_LOCATION_MAP[loc]] when it is truthy, as the key of
    [counts] it is used for: a property of the table itself, or one
    that the table inherits. *)
Definition mappedKey (loc : string) : option string :=
  match HUBSPOT_LOCATION_MAP !! loc with
  | Some code => Some code
  | None => Object_prototype !! loc
  end.

(** The body of the loop of [countByLocation]. *)
Definition countStep (locationProp : string) (counts : gmap string N) (item : Item)
    : gmap string N :=
  match mappedKey (locationOf item locationProp) with
  | Some mapped => <[mapped := (countOrZero counts mapped + 1)%N]> counts
  | None => counts
  end.

Definition countByLocation (results : list Item) (locationProp : string)
    : gmap string N :=
  fold_left (countStep locationProp) results ∅.

(** The two bounds of a window: the first instant of its first day and
    the last whole second of its last day, both UTC. *)
Definition startMsOf (startDate : string) : option Z := Date_parse startDate.
Definition endMsOf (endDate : string) : option Z := Date_parse (endDate +:+ "T23:59:59Z").

Definition leadFilters (startDate endDate : string) : list Filter :=
  [mkFilter "hs_lifecyclestage_lead_date" "GTE" (Time (startMsOf startDate));
   mkFilter "hs_lifecyclestage_lead_date" "LTE" (Time (endMsOf endDate))].

Definition dealFilters (startDate endDate : string) : list Filter :=
  [mkFilter "dealstage" "EQ" (Text HUBSPOT_CLOSED_WON_STAGE);
   mkFilter "closedate" "GTE" (Time (startMsOf startDate));
   mkFilter "closedate" "LTE" (Time (endMsOf endDate))].

Definition pullHubSpotLeads (fuel : nat) (environment : Env) (server : Server)
    (startDate endDate : string) : Process (option (Outcome (gmap string N))) :=
  need token <- env environment "HUBSPOT_TOKEN" true;
  Continues
    (mapOutcome (fun contacts => countByLocation contacts "saltbox_location")
       (hubspotSearch fuel server "contacts" (leadFilters startDate endDate)
          ["saltbox_location"%string] token)).

Definition pullHubSpotNewMembers (fuel : nat) (environment : Env) (server : Server)
    (startDate endDate : string) : Process (option (Outcome (gmap string N))) :=
  need token <- env environment "HUBSPOT_TOKEN" true;
  Continues
    (mapOutcome (fun deals => countByLocation deals "saltbox_location")
       (hubspotSearch fuel server "deals" (dealFilters startDate endDate)
          ["saltbox_location"%string; "closedate"%string] token)).

(** [pullHubSpotLeads] of the older variant: the same requests, the
    contacts counted page by page. *)
Fixpoint legacyLeadsLoop (fuel : nat) (server : Server) (token : string)
    (startDate endDate : string) (locationCounts : gmap string N)
    (after : option string) : option (Outcome (gmap string N)) :=
  match fuel with
  | O => None
  | S fuel' =>
      match server (mkRequest "contacts" token (leadFilters startDate endDate)
                              ["saltbox_location"%string] 100 after) with
      | Failed message => Some (Thrown message)
      | NotOk status text => Some (Returned locationCounts)
      | Ok data_results next =>
          let locationCounts :=
            fold_left (countStep "saltbox_location") (default [] data_results)
                      locationCounts in
          if truthyString next then
            legacyLeadsLoop fuel' server token startDate endDate locationCounts next
          else Some (Returned locationCounts)
      end
  end.

Definition legacyPullHubSpotLeads (fuel : nat) (environment : Env) (server : Server)
    (startDate endDate : string) : Process (option (Outcome (gmap string N))) :=
  need token <- env environment "HUBSPOT_TOKEN" true;
  Continues (legacyLeadsLoop fuel server token startDate endDate ∅ None).

End HubSpot.

(* ===================================================================== *)
(** * Definitions used to state further properties of the engine *)
(* ===================================================================== *)

(** A KPI that is [null] or not negative. *)
Definition notNegative (v : option Q) : Prop :=
  match v with
  | Some x => (0 <= x)%Q
  | None => True
  end.

(** A record none of whose KPIs is negative. *)
Definition recordNotNegative (r : KPIRecord) : Prop :=
  notNegative (cac r) /\ notNegative (corpCac r) /\ notNegative (allInCac r)
  /\ notNegative (avgRevPerMember r) /\ notNegative (avgMemberDuration r)
  /\ notNegative (ltv r) /\ notNegative (mktgSpendToRev r)
  /\ notNegative (corpMktgToRev r) /\ notNegative (allInSpendToRev r)
  /\ notNegative (costPerLead r).

(** [a <= b] on two KPIs that are null together: both null, or both
    numbers in that order. *)
Definition kpiLe (a b : option Q) : Prop :=
  match a, b with
  | Some x, Some y => (x <= y)%Q
  | None, None => True
  | _, _ => False
  end.

(** The three acquisition costs and the three spend ratios of a record
    go up with the costs they take in. *)
Definition laddersOrdered (r : KPIRecord) : Prop :=
  kpiLe (cac r) (corpCac r) /\ kpiLe (corpCac r) (allInCac r)
  /\ kpiLe (mktgSpendToRev r) (corpMktgToRev r)
  /\ kpiLe (corpMktgToRev r) (allInSpendToRev r).

(** The characters of a text that the host name of an account must not
    keep: capital letters of ASCII and the underscore. *)
Definition isUpperCase (c : ascii) : bool :=
  let n := nat_of_ascii c in (65 <=? n)%nat && (n <=? 90)%nat.

Definition isUnderscore (c : ascii) : bool := Ascii.eqb c "_".

Definition isASCII (s : string) : bool :=
  forallb (fun c => (nat_of_ascii c <? 128)%nat) (list_ascii_of_string s).

Definition countOf (p : ascii -> bool) (s : string) : nat :=
  length (List.filter p (list_ascii_of_string s)).

(** The variables of the second loop of the older variant and of the
    current one hold the same sums: the same fields, the weighted tenure
    up to the terms that are zero, and the tenured members counted by the
    older variant are all the members. *)
Definition sameAccumulators (a : Legacy.Accum) (b : Accum) : Prop :=
  Legacy.acc_data a = acc_data b
  /\ Legacy.totRev a = totRev b
  /\ Legacy.totSpend a = totSpend b
  /\ Legacy.totCorpAlloc a = totCorpAlloc b
  /\ Legacy.totSalary2 a = totSalary b
  /\ Legacy.totMembers a = totMembers b
  /\ Legacy.totNewMembers a = totNewMembers b
  /\ Legacy.totLeads a = totLeads b
  /\ (Legacy.durationSum a == durationWeightedSum b)%Q
  /\ Legacy.durationCount a = totMembers b.

(** A dataset whose totals map has no key that its data map lacks, and
    one whose two maps have the same keys. *)
Definition totalsWithinData (d : Dataset.t) : Prop :=
  forall k, is_Some (Dataset.totals d !! k) -> is_Some (Dataset.data d !! k).

Definition dataWithinTotals (d : Dataset.t) : Prop :=
  forall k, is_Some (Dataset.data d !! k) -> is_Some (Dataset.totals d !! k).

(** Sources that are all down. *)
Definition allDown : Adapters :=
  mkAdapters (fun _ _ => Thrown "fetch failed") (fun _ _ => Thrown "fetch failed")
             (fun _ _ => Thrown "fetch failed") (fun _ _ => Thrown "fetch failed").

(** ** The services, for the properties of the adapters *)

(** A ledger that holds [rows] and hands out at most [cap] of them to a
    request, from its offset on. *)
Definition tableServer (rows : list NetSuite.Row) (cap : Z) : NetSuite.Server :=
  fun request =>
    let n := Z.min (NetSuite.limit request) cap in
    let page := take (Z.to_nat n) (drop (Z.to_nat (NetSuite.offset request)) rows) in
    NetSuite.Ok (Some page)
      (Some (bool_decide (NetSuite.offset request + n < Z.of_nat (length rows)))).

(** The request [runSuiteQL] sends for an offset. *)
Definition suiteQLRequest (ns : NetSuite.Client) (query : NetSuite.Query) (limit : Z)
    (offset : Z) : NetSuite.Request :=
  NetSuite.mkRequest (NetSuite.baseUrl ns) limit offset query.

(** The ledger answers [pages] one after the other, each with more to
    come, when asked from [offset] on at the offsets of [runSuiteQL]. *)
Fixpoint pagesServed (server : NetSuite.Server) (request : Z -> NetSuite.Request)
    (offset : Z) (pages : list (list NetSuite.Row)) : Prop :=
  match pages with
  | [] => True
  | page :: rest =>
      (exists items, server (request offset) = NetSuite.Ok items (Some true)
                     /\ default [] items = page)
      /\ pagesServed server request (offset + Z.of_nat (length page)) rest
  end.

(** The request [hubspotSearch] sends for a cursor. *)
Definition searchRequest (endpoint : string) (filters : list HubSpot.Filter)
    (properties : list string) (token : string) (after : option string)
    : HubSpot.Request :=
  HubSpot.mkRequest endpoint token filters properties 100 after.

(** The cursor [hubspotSearch] holds after [pages], each a page with the
    cursor to the next. *)
Definition cursorAfter (after : option string) (pages : list (list HubSpot.Item * string))
    : option string :=
  fold_left (fun _ page => Some (snd page)) pages after.

(** HubSpot answers [pages] one after the other, each with a cursor to
    the next, when asked from the cursor [after] on. *)
Fixpoint cursorsFollowed (server : HubSpot.Server)
    (request : option string -> HubSpot.Request) (after : option string)
    (pages : list (list HubSpot.Item * string)) : Prop :=
  match pages with
  | [] => True
  | page :: rest =>
      (exists results, server (request after) = HubSpot.Ok results (Some (snd page))
                       /\ default [] results = fst page)
      /\ truthyString (Some (snd page)) = true
      /\ cursorsFollowed server request (Some (snd page)) rest
  end.

(** The items of a search whose location property is [name]. *)
Definition itemsAt (name : string) (locationProp : string) (results : list HubSpot.Item)
    : list HubSpot.Item :=
  filter (fun item => HubSpot.locationOf item locationProp = name) results.

(** The items of a search whose location property names a location of
    the table. *)
Definition itemsWithKnownLocation (locationProp : string) (results : list HubSpot.Item)
    : list HubSpot.Item :=
  filter (fun item => is_Some (HUBSPOT_LOCATION_MAP !! HubSpot.locationOf item locationProp))
         results.

(** The five variables of the NetSuite client, in the order they are
    read. *)
Definition netSuiteVariables : list string :=
  ["NETSUITE_ACCOUNT_ID"; "NETSUITE_CONSUMER_KEY"; "NETSUITE_CONSUMER_SECRET";
   "NETSUITE_TOKEN_ID"; "NETSUITE_TOKEN_SECRET"]%string.

(** The HubSpot adapters of [src] are those of the script over the
    service [hubspot], every search ending within [fuel] requests. *)
Definition overHubSpot (fuel : nat) (environment : Env) (hubspot : HubSpot.Server)
    (src : Adapters) : Prop :=
  forall startDate endDate,
    HubSpot.pullHubSpotLeads fuel environment hubspot startDate endDate
    = Continues (Some (pullHubSpotLeads src startDate endDate))
    /\ HubSpot.pullHubSpotNewMembers fuel environment hubspot startDate endDate
       = Continues (Some (pullHubSpotNewMembers src startDate endDate)).

(** A ledger with three rows, and a HubSpot that is down. *)
Definition threeRows : list NetSuite.Row :=
  [NetSuite.mkRow "ATL-UWS" (Some (-(1200))%Q); NetSuite.mkRow "DAL-FB" None;
   NetSuite.mkRow "Corp" (Some 300%Q)].

Definition sampleClient : NetSuite.Client :=
  NetSuite.mkClient "https://1234567-sb1.suitetalk.api.netsuite.com" "1234567_SB1"
                    ("ck", "cs")%string ("tk", "ts")%string.

Definition sampleQuery : NetSuite.Query :=
  NetSuite.mkQuery "2024-01-01" "2024-01-31" "4%" (NetSuite.joinQuoted LOCATIONS).

Definition hubspotDown : HubSpot.Server :=
  fun _ => HubSpot.NotOk 503 "Service Unavailable".

Definition sampleEnv : Env :=
  objectOf [("NETSUITE_ACCOUNT_ID", "1234567_SB1"); ("NETSUITE_CONSUMER_KEY", "ck");
            ("NETSUITE_CONSUMER_SECRET", "cs"); ("NETSUITE_TOKEN_ID", "tk");
            ("NETSUITE_TOKEN_SECRET", "ts"); ("HUBSPOT_TOKEN", "pat")]%string.

(** A ledger that serves one page and then fails, and one that keeps
    announcing more rows without handing out any. *)
Definition failingLedger : NetSuite.Server :=
  fun request =>
    if NetSuite.offset request =? 0 then NetSuite.Ok (Some threeRows) (Some true)
    else NetSuite.NotOk 500 "unavailable".

Definition stuckLedger : NetSuite.Server :=
  fun _ => NetSuite.Ok None (Some true).

(** Contacts, and three ways HubSpot may answer a search: two pages, a
    page and then a failure, the same cursor again and again. *)
Definition contactAt (name : string) : HubSpot.Item :=
  HubSpot.mkItem (Some (objectOf [("saltbox_location"%string, name)])).

Definition contactNowhere : HubSpot.Item := HubSpot.mkItem None.

Definition firstPage : list HubSpot.Item :=
  [contactAt "Denver"; contactAt "Miami"; contactNowhere].

Definition twoPages : HubSpot.Server :=
  fun request =>
    match HubSpot.after request with
    | None => HubSpot.Ok (Some firstPage) (Some "100"%string)
    | Some _ => HubSpot.Ok (Some [contactAt "Denver"]) None
    end.

Definition failsOnSecondPage : HubSpot.Server :=
  fun request =>
    match HubSpot.after request with
    | None => HubSpot.Ok (Some firstPage) (Some "100"%string)
    | Some _ => HubSpot.NotOk 429 "rate limit"
    end.

Definition sameCursorAgain : HubSpot.Server :=
  fun _ => HubSpot.Ok (Some firstPage) (Some "100"%string).

(** The known month whose counts a window with linear index [idx]
    reads: its own when it is known, the latest known month before it
    when there is one, and the latest known month of all otherwise. *)
Definition knownMonthFor (idx : Z) : string :=
  if idx =? 12 * 2025 + 11 then "2025-12"
  else if (12 * 2026 + 0 <=? idx) && (idx <=? 12 * 2026 + 1) then "2026-01"
  else "2026-03".

(* ===================================================================== *)
(** * The engine on the numbers of the script *)
(* ===================================================================== *)

(** A JavaScript number is an IEEE 754 binary64 value.  The module below
    is [calculateKPIs], in both copies, and [r2] on these numbers: every
    sum, product and quotient is rounded as the script rounds it, in the
    order the script takes them.  It gives the values the script
    writes. *)
Module Binary64.

(** An integer as a number: the double nearest to it, which is the
    integer itself below 2^53. *)
Definition Z2F (z : Z) : float := SF2Prim (binary_normalize prec emax z 0 false).

(** A count as a number. *)
Definition N2F (n : N) : float := Z2F (Z.of_N n).

(** [v > 0]: false of NaN. *)
Definition isPositive (v : float) : bool := (0 <? v)%float.

(** Truthiness of a number: every number but 0, -0 and NaN. *)
Definition truthy (v : float) : bool := negb (v =? 0)%float && negb (is_nan v).

(** [isFinite(v)]. *)
Definition isFinite (v : float) : bool := negb (is_nan v) && negb (is_infinity v).

(** [Math.round(x)]: the integer nearest to [x], a half going up; [x]
    itself when it is an integer already, a zero, an infinity or NaN.
    The result keeps the sign of [x] when it is zero.  A finite [x] that
    is no integer is [n * 2^e] with [e < 0] and below 2^52 in size, so
    the floor of [x + 1/2] is computed on integers and is a double. *)
Definition Math_round (x : float) : float :=
  match Prim2SF x with
  | S754_finite s m e =>
      if 0 <=? e then x
      else
        let n := if s then Z.neg m else Z.pos m in
        let r := (2 * n + 2 ^ (- e)) / 2 ^ (- e + 1) in
        if r =? 0 then (if s then neg_zero else zero) else Z2F r
  | _ => x
  end.

(** [r2(v)]: [v != null && isFinite(v) ? Math.round(v * 100) / 100 : null]. *)
Definition r2 (v : option float) : option float :=
  match v with
  | Some x => if isFinite x then Some (Math_round (x * 100) / 100)%float else None
  | None => None
  end.

(** [cond ? num / den : null]. *)
Definition ratioWhen (cond : bool) (num den : float) : option float :=
  if cond then Some (num / den)%float else None.

(** [a && d ? a * d : null], where [a] and [d] may be null. *)
Definition productWhenTruthy (a d : option float) : option float :=
  match a, d with
  | Some x, Some y => if truthy x && truthy y then Some (x * y)%float else None
  | _, _ => None
  end.

(** [v || null] and [v || 0] on a number. *)
Definition orNull (v : float) : option float := if truthy v then Some v else None.
Definition numberOrZero (v : float) : float := if truthy v then v else 0%float.

(** [m[loc] || 0] on a map of numbers and on a map of counts. *)
Definition orZero (m : gmap string float) (loc : string) : float :=
  match m !! loc with
  | Some v => numberOrZero v
  | None => 0%float
  end.
Definition countOrZero (m : gmap string N) (loc : string) : float :=
  N2F (default 0%N (m !! loc)).

Definition SALARY_CONFIG_total : float := 72082%float.

#[warnings="-inexact-float"] Definition AVG_MEMBER_DURATION : gmap string float :=
  objectOf
    [("ATL-UWS", 16); ("ATL-WSP", 12.1); ("DAL-CAR", 12.5);
     ("DAL-FB", 16.4); ("DC-ALX", 12.6); ("DEN-PH", 17.6);
     ("LA-DUA", 11.9); ("LA-TOR", 14.2); ("MIA-DR", 12.9);
     ("PHX-ST", 11.9); ("SEA-SODO", 16.4)]%float.

Record KPIRecord : Type := mkKPI {
  cac : option float;
  corpCac : option float;
  allInCac : option float;
  avgRevPerMember : option float;
  avgMemberDuration : option float;
  ltv : option float;
  mktgSpendToRev : option float;
  corpMktgToRev : option float;
  allInSpendToRev : option float;
  costPerLead : option float
}.

Record Result : Type := mkResult {
  data : gmap string KPIRecord;
  totals : KPIRecord
}.

(** [LOCATIONS.reduce((sum, l) => sum + (mktgSpend[l] || 0), 0)]. *)
Definition totalLocSpendOf (mktgSpend : gmap string float) : float :=
  fold_left (fun sum l => (sum + orZero mktgSpend l)%float) LOCATIONS 0%float.

(** The share of the allocated costs that goes to [loc]. *)
Definition locShare (mktgSpend : gmap string float) (loc : string) : float :=
  let totalLocSpend := totalLocSpendOf mktgSpend in
  if isPositive totalLocSpend
  then (orZero mktgSpend loc / totalLocSpend)%float
  else (1 / Z2F (Z.of_nat (length LOCATIONS)))%float.

(** The first loop: the two allocation objects. *)
Definition allocationStep (mktgSpend : gmap string float)
    (alloc : gmap string float * gmap string float) (loc : string)
    : gmap string float * gmap string float :=
  let corpSpend := orZero mktgSpend "Corp" in
  (<[loc := (corpSpend * locShare mktgSpend loc)%float]> (fst alloc),
   <[loc := (SALARY_CONFIG_total * locShare mktgSpend loc)%float]> (snd alloc)).

Definition allocations (mktgSpend : gmap string float)
    : gmap string float * gmap string float :=
  fold_left (allocationStep mktgSpend) LOCATIONS (∅, ∅).

Definition corpAllocation (mktgSpend : gmap string float) : gmap string float :=
  fst (allocations mktgSpend).
Definition salaryAllocation (mktgSpend : gmap string float) : gmap string float :=
  snd (allocations mktgSpend).

(** The five input maps of [calculateKPIs]: amounts are numbers, counts
    are whole. *)
Record Inputs : Type := mkInputs {
  revenue : gmap string float;
  mktgSpend : gmap string float;
  leads : gmap string N;
  newMembers : gmap string N;
  memberCounts : gmap string N
}.

(** The variables the second loop updates. *)
Record Accum : Type := mkAccum {
  acc_data : gmap string KPIRecord;
  totRev : float;
  totSpend : float;
  totCorpAlloc : float;
  totSalary : float;
  totMembers : float;
  totNewMembers : float;
  totLeads : float;
  durationWeightedSum : float
}.

Definition accum0 : Accum :=
  mkAccum ∅ 0%float 0%float 0%float 0%float 0%float 0%float 0%float 0%float.

(** The record of one location. *)
Definition locationKPIs (inp : Inputs) (loc : string) : KPIRecord :=
  let rev := orZero (revenue inp) loc in
  let spend := orZero (mktgSpend inp) loc in
  let corpAlloc := orZero (corpAllocation (mktgSpend inp)) loc in
  let salary := orZero (salaryAllocation (mktgSpend inp)) loc in
  let leadCount := countOrZero (leads inp) loc in
  let newMem := countOrZero (newMembers inp) loc in
  let members := countOrZero (memberCounts inp) loc in
  let duration := orZero AVG_MEMBER_DURATION loc in
  let avgRevPerMember := ratioWhen (isPositive members) rev members in
  let cac := ratioWhen (isPositive newMem) spend newMem in
  let corpCac := ratioWhen (isPositive newMem) (spend + corpAlloc)%float newMem in
  let allInCac :=
    ratioWhen (isPositive newMem) (spend + corpAlloc + salary)%float newMem in
  let ltv := productWhenTruthy avgRevPerMember (Some duration) in
  let mktgSpendToRev := ratioWhen (isPositive rev) spend rev in
  let corpMktgToRev := ratioWhen (isPositive rev) (spend + corpAlloc)%float rev in
  let allInSpendToRev :=
    ratioWhen (isPositive rev) (spend + corpAlloc + salary)%float rev in
  let costPerLead := ratioWhen (isPositive leadCount) spend leadCount in
  {| cac := r2 cac; corpCac := r2 corpCac; allInCac := r2 allInCac;
     avgRevPerMember := r2 avgRevPerMember;
     avgMemberDuration := r2 (orNull duration);
     ltv := r2 ltv; mktgSpendToRev := r2 mktgSpendToRev;
     corpMktgToRev := r2 corpMktgToRev; allInSpendToRev := r2 allInSpendToRev;
     costPerLead := r2 costPerLead |}.

(** One iteration of the second loop. *)
Definition kpiStep (inp : Inputs) (a : Accum) (loc : string) : Accum :=
  let rev := orZero (revenue inp) loc in
  let spend := orZero (mktgSpend inp) loc in
  let corpAlloc := orZero (corpAllocation (mktgSpend inp)) loc in
  let salary := orZero (salaryAllocation (mktgSpend inp)) loc in
  let leadCount := countOrZero (leads inp) loc in
  let newMem := countOrZero (newMembers inp) loc in
  let members := countOrZero (memberCounts inp) loc in
  let duration := orZero AVG_MEMBER_DURATION loc in
  {| acc_data := <[loc := locationKPIs inp loc]> (acc_data a);
     totRev := (totRev a + rev)%float;
     totSpend := (totSpend a + spend)%float;
     totCorpAlloc := (totCorpAlloc a + corpAlloc)%float;
     totSalary := (totSalary a + salary)%float;
     totMembers := (totMembers a + members)%float;
     totNewMembers := (totNewMembers a + newMem)%float;
     totLeads := (totLeads a + leadCount)%float;
     durationWeightedSum :=
       if isPositive duration && isPositive members
       then (durationWeightedSum a + duration * members)%float
       else durationWeightedSum a |}.

(** The totals record, from the variables as the second loop leaves
    them. *)
Definition totalsOf (a : Accum) : KPIRecord :=
  let totDuration :=
    ratioWhen (isPositive (totMembers a)) (durationWeightedSum a) (totMembers a) in
  let totAvgRev :=
    ratioWhen (isPositive (totMembers a)) (totRev a) (totMembers a) in
  {| cac := r2 (ratioWhen (isPositive (totNewMembers a))
                  (totSpend a) (totNewMembers a));
     corpCac := r2 (ratioWhen (isPositive (totNewMembers a))
                      (totSpend a + totCorpAlloc a)%float (totNewMembers a));
     allInCac := r2 (ratioWhen (isPositive (totNewMembers a))
                       (totSpend a + totCorpAlloc a + totSalary a)%float
                       (totNewMembers a));
     avgRevPerMember := r2 totAvgRev;
     avgMemberDuration := r2 totDuration;
     ltv := r2 (productWhenTruthy totAvgRev totDuration);
     mktgSpendToRev := r2 (ratioWhen (isPositive (totRev a)) (totSpend a) (totRev a));
     corpMktgToRev := r2 (ratioWhen (isPositive (totRev a))
                            (totSpend a + totCorpAlloc a)%float (totRev a));
     allInSpendToRev := r2 (ratioWhen (isPositive (totRev a))
                              (totSpend a + totCorpAlloc a + totSalary a)%float
                              (totRev a));
     costPerLead := r2 (ratioWhen (isPositive (totLeads a))
                          (totSpend a) (totLeads a)) |}.

Definition calculateKPIs (inp : Inputs) : Result :=
  let a := fold_left (kpiStep inp) LOCATIONS accum0 in
  mkResult (acc_data a) (totalsOf a).

(** The older copy: the member data come in one object with the average
    durations, the payroll total is under the [Corp] key of the salary
    table, the tenure is summed where the duration is positive, and [r2]
    does not test for a finite value. *)
Module Legacy.

(** [r2(v)] of the older copy: [v != null ? Math.round(v * 100) / 100 : null]. *)
Definition r2 (v : option float) : option float :=
  match v with
  | Some x => Some (Math_round (x * 100) / 100)%float
  | None => None
  end.

Definition SALARY_CONFIG : gmap string float :=
  objectOf
    [("ATL-UWS", 0); ("ATL-WSP", 0); ("DAL-CAR", 0); ("DAL-FB", 0);
     ("DC-ALX", 0); ("DEN-PH", 0); ("LA-DUA", 0); ("LA-TOR", 0);
     ("MIA-DR", 0); ("PHX-ST", 0); ("SEA-SODO", 0); ("Corp", 72082)]%float.

Record MemberData : Type := mkMemberData {
  memberCounts : gmap string N;
  newMembers : gmap string N;
  avgDuration : gmap string float
}.

Record Inputs : Type := mkInputs {
  revenue : gmap string float;
  mktgSpend : gmap string float;
  leads : gmap string N;
  memberData : MemberData
}.

Definition corpAllocation (mktgSpend : gmap string float) : gmap string float :=
  let corpSpend := orZero mktgSpend "Corp" in
  fold_left (fun alloc loc => <[loc := (corpSpend * locShare mktgSpend loc)%float]> alloc)
            LOCATIONS ∅.

Definition salaryAllocation (mktgSpend : gmap string float) : gmap string float :=
  let totalSalary := orZero SALARY_CONFIG "Corp" in
  fold_left (fun alloc loc => <[loc := (totalSalary * locShare mktgSpend loc)%float]> alloc)
            LOCATIONS ∅.

Record Accum : Type := mkAccum {
  acc_data : gmap string KPIRecord;
  totRev : float;
  totSpend : float;
  totCorpAlloc : float;
  totSalary2 : float;
  totMembers : float;
  totNewMembers : float;
  totLeads : float;
  durationSum : float;
  durationCount : float
}.

Definition accum0 : Accum :=
  mkAccum ∅ 0%float 0%float 0%float 0%float 0%float 0%float 0%float 0%float 0%float.

Definition locationKPIs (inp : Inputs) (loc : string) : KPIRecord :=
  let rev := orZero (revenue inp) loc in
  let spend := orZero (mktgSpend inp) loc in
  let corpAlloc := orZero (corpAllocation (mktgSpend inp)) loc in
  let salary := orZero (salaryAllocation (mktgSpend inp)) loc in
  let leadCount := countOrZero (leads inp) loc in
  let members := countOrZero (memberCounts (memberData inp)) loc in
  let newMem := countOrZero (newMembers (memberData inp)) loc in
  let duration := orZero (avgDuration (memberData inp)) loc in
  let avgRevPerMember := ratioWhen (isPositive members) rev members in
  let cac := ratioWhen (isPositive newMem) spend newMem in
  let corpCac := ratioWhen (isPositive newMem) (spend + corpAlloc)%float newMem in
  let allInCac :=
    ratioWhen (isPositive newMem) (spend + corpAlloc + salary)%float newMem in
  let ltv := productWhenTruthy avgRevPerMember (Some duration) in
  let mktgSpendToRev := ratioWhen (isPositive rev) spend rev in
  let corpMktgToRev := ratioWhen (isPositive rev) (spend + corpAlloc)%float rev in
  let allInSpendToRev :=
    ratioWhen (isPositive rev) (spend + corpAlloc + salary)%float rev in
  let costPerLead := ratioWhen (isPositive leadCount) spend leadCount in
  {| cac := r2 cac; corpCac := r2 corpCac; allInCac := r2 allInCac;
     avgRevPerMember := r2 avgRevPerMember;
     avgMemberDuration := r2 (orNull duration);
     ltv := r2 ltv; mktgSpendToRev := r2 mktgSpendToRev;
     corpMktgToRev := r2 corpMktgToRev; allInSpendToRev := r2 allInSpendToRev;
     costPerLead := r2 costPerLead |}.

Definition kpiStep (inp : Inputs) (a : Accum) (loc : string) : Accum :=
  let rev := orZero (revenue inp) loc in
  let spend := orZero (mktgSpend inp) loc in
  let corpAlloc := orZero (corpAllocation (mktgSpend inp)) loc in
  let salary := orZero (salaryAllocation (mktgSpend inp)) loc in
  let leadCount := countOrZero (leads inp) loc in
  let members := countOrZero (memberCounts (memberData inp)) loc in
  let newMem := countOrZero (newMembers (memberData inp)) loc in
  let duration := orZero (avgDuration (memberData inp)) loc in
  {| acc_data := <[loc := locationKPIs inp loc]> (acc_data a);
     totRev := (totRev a + rev)%float;
     totSpend := (totSpend a + spend)%float;
     totCorpAlloc := (totCorpAlloc a + corpAlloc)%float;
     totSalary2 := (totSalary2 a + salary)%float;
     totMembers := (totMembers a + members)%float;
     totNewMembers := (totNewMembers a + newMem)%float;
     totLeads := (totLeads a + leadCount)%float;
     durationSum :=
       if isPositive duration
       then (durationSum a + duration * members)%float else durationSum a;
     durationCount :=
       if isPositive duration
       then (durationCount a + members)%float else durationCount a |}.

Definition totalsOf (a : Accum) : KPIRecord :=
  let totDuration :=
    ratioWhen (isPositive (durationCount a)) (durationSum a) (durationCount a) in
  let totAvgRev :=
    ratioWhen (isPositive (totMembers a)) (totRev a) (totMembers a) in
  {| cac := r2 (ratioWhen (isPositive (totNewMembers a))
                  (totSpend a) (totNewMembers a));
     corpCac := r2 (ratioWhen (isPositive (totNewMembers a))
                      (totSpend a + totCorpAlloc a)%float (totNewMembers a));
     allInCac := r2 (ratioWhen (isPositive (totNewMembers a))
                       (totSpend a + totCorpAlloc a + totSalary2 a)%float
                       (totNewMembers a));
     avgRevPerMember := r2 totAvgRev;
     avgMemberDuration := r2 totDuration;
     ltv := r2 (productWhenTruthy totAvgRev totDuration);
     mktgSpendToRev :=
       r2 (ratioWhen (isPositive (totRev a)) (totSpend a) (totRev a));
     corpMktgToRev := r2 (ratioWhen (isPositive (totRev a))
                            (totSpend a + totCorpAlloc a)%float (totRev a));
     allInSpendToRev := r2 (ratioWhen (isPositive (totRev a))
                              (totSpend a + totCorpAlloc a + totSalary2 a)%float
                              (totRev a));
     costPerLead := r2 (ratioWhen (isPositive (totLeads a))
                          (totSpend a) (totLeads a)) |}.

Definition calculateKPIs (inp : Inputs) : Result :=
  let a := fold_left (kpiStep inp) LOCATIONS accum0 in
  mkResult (acc_data a) (totalsOf a).

End Legacy.

End Binary64.

(** ** The sums of the script, for the properties of the totals *)

(** The sum of [f] over the locations [locs] as the script takes it:
    from 0, one location after the other, each partial sum a number. *)
Definition sumOver (f : string -> float) (locs : list string) : float :=
  fold_left (fun sum loc => (sum + f loc)%float) locs 0%float.

(** What the second loop of [calculateKPIs] reads for a location. *)
Definition tenure64 (loc : string) : float :=
  Binary64.orZero Binary64.AVG_MEMBER_DURATION loc.
Definition members64 (inp : Binary64.Inputs) (loc : string) : float :=
  Binary64.countOrZero (Binary64.memberCounts inp) loc.

(** The locations that add to the weighted tenure: those with a
    positive tenure and with members. *)
Definition weighs (inp : Binary64.Inputs) (loc : string) : bool :=
  Binary64.isPositive (tenure64 loc) && Binary64.isPositive (members64 inp loc).

(** The same for the older copy, whose tenures come with the member
    data and which counts a location when its tenure is positive. *)
Definition legacyTenure64 (inp : Binary64.Legacy.Inputs) (loc : string) : float :=
  Binary64.orZero (Binary64.Legacy.avgDuration (Binary64.Legacy.memberData inp)) loc.
Definition legacyMembers64 (inp : Binary64.Legacy.Inputs) (loc : string) : float :=
  Binary64.countOrZero (Binary64.Legacy.memberCounts (Binary64.Legacy.memberData inp)) loc.
Definition tenured (inp : Binary64.Legacy.Inputs) (loc : string) : bool :=
  Binary64.isPositive (legacyTenure64 inp loc).

(** Two locations that each spend 100 and sign 1 and 9 members. *)
Definition twoLocations64 : Binary64.Inputs :=
  Binary64.mkInputs ∅ (objectOf [("ATL-UWS", 100); ("ATL-WSP", 100)]%float) ∅
                    (objectOf [("ATL-UWS", 1%N); ("ATL-WSP", 9%N)]) ∅.

(** The arithmetic mean of the per-location CAC values that are
    defined, for comparison with the pooled ratio. *)
Definition meanOfLocationCACs64 (inp : Binary64.Inputs) : float :=
  let cacs := omap (fun loc => Binary64.cac (Binary64.locationKPIs inp loc)) LOCATIONS in
  (fold_left (fun sum c => sum + c)%float cacs 0 / Binary64.Z2F (Z.of_nat (length cacs)))%float.

(** The aggregate tenure of the older copy as the specification words
    it, over all the enumerated locations. *)
Definition legacyMeanOverAllLocations64 (inp : Binary64.Legacy.Inputs) : option float :=
  Binary64.Legacy.r2
    (Binary64.ratioWhen (Binary64.isPositive (sumOver (legacyMembers64 inp) LOCATIONS))
       (sumOver (fun loc => legacyTenure64 inp loc * legacyMembers64 inp loc)%float
          LOCATIONS)
       (sumOver (legacyMembers64 inp) LOCATIONS)).

(** Ten members each at two locations of the older copy, with average
    durations of -1 and 12 months; and 3 and 9 members at two locations
    of the current script. *)
Definition futureStart64 : Binary64.Legacy.Inputs :=
  Binary64.Legacy.mkInputs ∅ ∅ ∅
    (Binary64.Legacy.mkMemberData
       (objectOf [("ATL-UWS", 10%N); ("ATL-WSP", 10%N)]) ∅
       (objectOf [("ATL-UWS", (-1)%float); ("ATL-WSP", 12%float)])).

Definition threeAndNine : Binary64.Inputs :=
  Binary64.mkInputs ∅ ∅ ∅ ∅ (objectOf [("ATL-UWS", 3%N); ("ATL-WSP", 9%N)]).

(** A corporate spend of 3 with no direct spend, so that every location
    gets one eleventh of it, and 8 new members. *)
Definition corpOfThree : Binary64.Inputs :=
  Binary64.mkInputs ∅ (objectOf [("Corp", 3%float)]) ∅ (objectOf [("ATL-UWS", 8%N)]) ∅.

(** ** The member counts at any key *)

(** What [KNOWN_MEMBER_COUNTS[key]] can be: the table of a month, or a
    value that the object inherits from [Object.prototype], a built-in
    function or the prototype itself, which is given by its text. *)
Inductive Known : Type :=
| Table (counts : gmap string N)
| Inherited (text : string).

(** [getMemberCounts] with the names that [KNOWN_MEMBER_COUNTS]
    inherits.  An inherited value is an object, hence truthy, and is
    returned as it is; [Object.keys] lists the own keys only, so that
    [closest] is a month of the table. *)
Module AnyKey.

(** [table[k]]: the own entries first, then [Object.prototype]. *)
Definition entryOf (table : list (string * gmap string N)) (k : string) : option Known :=
  match entryOf table k with
  | Some counts => Some (Table counts)
  | None => Inherited <$> Object_prototype !! k
  end.

Definition getMemberCountsIn (table : list (string * gmap string N))
    (monthKey : string) : Known :=
  match entryOf table monthKey with
  | Some known => known
  | None =>
      match closestKnownMonth table monthKey with
      | Some closest => default (Table ∅) (entryOf table closest)
      | None => Table ∅
      end
  end.

Definition getMemberCounts (monthKey : string) : Known :=
  getMemberCountsIn KNOWN_MEMBER_COUNTS monthKey.

(** [memberCounts[loc] || 0] at a location code: a built-in function
    and [Object.prototype] have no property of such a name. *)
Definition countOrZero (known : Known) (loc : string) : N :=
  match known with
  | Table counts => countOrZero counts loc
  | Inherited _ => 0%N
  end.

End AnyKey.

(* ===================================================================== *)
(** * Facts about the calendar arithmetic *)
(* ===================================================================== *)

Ltac case_ifs :=
  repeat match goal with
         | |- context [if ?b then _ else _] => destruct b eqn:?
         end.

Ltac bool_to_Z :=
  rewrite ?negb_true_iff, ?negb_false_iff, ?andb_true_iff, ?andb_false_iff,
    ?orb_true_iff, ?orb_false_iff,
    ?Z.eqb_eq, ?Z.eqb_neq, ?Z.leb_le, ?Z.leb_gt, ?Z.ltb_lt, ?Z.ltb_ge in *.

Lemma DayFromYear_succ y :
  JSDate.DayFromYear (y + 1) = JSDate.DayFromYear y + JSDate.DaysInYear y.
Proof.
  unfold JSDate.DayFromYear, JSDate.DaysInYear.
  case_ifs; bool_to_Z; Z.div_mod_to_equations; lia.
Qed.

Lemma YearFromDay_spec d :
  JSDate.DayFromYear (JSDate.YearFromDay d) <= d
  < JSDate.DayFromYear (JSDate.YearFromDay d + 1).
Proof.
  unfold JSDate.YearFromDay.
  set (y0 := 1970 + (400 * d) / 146097).
  assert (H1 : JSDate.DayFromYear (y0 - 1) <= d).
  { unfold JSDate.DayFromYear, y0. Z.div_mod_to_equations. lia. }
  assert (H2 : d < JSDate.DayFromYear (y0 + 2)).
  { unfold JSDate.DayFromYear, y0. Z.div_mod_to_equations. lia. }
  destruct (Z.leb_spec (JSDate.DayFromYear (y0 + 1)) d).
  - replace (y0 + 1 + 1) with (y0 + 2) by lia. lia.
  - destruct (Z.leb_spec (JSDate.DayFromYear y0) d).
    + lia.
    + replace (y0 - 1 + 1) with y0 by lia. lia.
Qed.

Lemma DayFromYear_mono y1 y2 :
  y1 <= y2 -> JSDate.DayFromYear y1 <= JSDate.DayFromYear y2.
Proof.
  unfold JSDate.DayFromYear. intros. Z.div_mod_to_equations. lia.
Qed.

(** The year of a day is determined by the year boundaries around it. *)
Lemma YearFromDay_unique y d :
  JSDate.DayFromYear y <= d < JSDate.DayFromYear (y + 1) ->
  JSDate.YearFromDay d = y.
Proof.
  intros Hy. pose proof (YearFromDay_spec d) as Hs.
  destruct (Z.lt_trichotomy (JSDate.YearFromDay d) y) as [Hlt | [Heq | Hgt]]; auto.
  - pose proof (DayFromYear_mono (JSDate.YearFromDay d + 1) y). lia.
  - pose proof (DayFromYear_mono (y + 1) (JSDate.YearFromDay d)). lia.
Qed.

(** Day [k] (counted from 0) of year [y] lies in year [y]. *)
Lemma YearFromDay_within y k :
  0 <= k < JSDate.DaysInYear y ->
  JSDate.YearFromDay (JSDate.DayFromYear y + k) = y.
Proof.
  intros Hk. apply YearFromDay_unique. rewrite DayFromYear_succ. lia.
Qed.

Lemma DayWithinYear_within y k :
  0 <= k < JSDate.DaysInYear y ->
  JSDate.DayWithinYear (JSDate.DayFromYear y + k) = k.
Proof.
  intros Hk. unfold JSDate.DayWithinYear. rewrite YearFromDay_within by lia. lia.
Qed.

Lemma InLeapYear_within y k :
  0 <= k < JSDate.DaysInYear y ->
  JSDate.InLeapYear (JSDate.DayFromYear y + k)
  = (if JSDate.DaysInYear y =? 366 then 1 else 0).
Proof.
  intros Hk. unfold JSDate.InLeapYear. now rewrite YearFromDay_within by lia.
Qed.

Lemma isLeapYear_DaysInYear y :
  JSDate.DaysInYear y = if isLeapYear y then 366 else 365.
Proof.
  unfold JSDate.DaysInYear, isLeapYear.
  destruct (y mod 4 =? 0) eqn:H4; destruct (y mod 100 =? 0) eqn:H100;
    destruct (y mod 400 =? 0) eqn:H400; simpl; try reflexivity;
    bool_to_Z; Z.div_mod_to_equations; lia.
Qed.

(** The calendar fields of day [date] of month [mn] of year [y], for a
    day that exists in that month.  [m] below is the month number 1..12. *)
Lemma fields_of_MakeDay y mn date :
  0 <= mn <= 11 -> 1 <= date <= daysInMonth y (mn + 1) ->
  JSDate.YearFromDay (JSDate.MakeDay y mn date) = y
  /\ JSDate.MonthFromDay (JSDate.MakeDay y mn date) = mn
  /\ JSDate.DateFromDay (JSDate.MakeDay y mn date) = date.
Proof.
  intros Hm Hd.
  unfold JSDate.MakeDay.
  rewrite (Z.div_small mn 12), (Z.mod_small mn 12), Z.add_0_r by lia.
  set (leap := if JSDate.DaysInYear y =? 366 then 1 else 0).
  set (k := JSDate.DaysBeforeMonth leap mn + date - 1).
  replace (JSDate.DayFromYear y + JSDate.DaysBeforeMonth leap mn + date - 1)
    with (JSDate.DayFromYear y + k) by (unfold k; lia).
  assert (Hk : 0 <= k < JSDate.DaysInYear y
               /\ JSDate.DaysBeforeMonth leap mn <= k
                  < JSDate.DaysBeforeMonth leap mn + daysInMonth y (mn + 1)).
  { unfold k. split; [|lia].
    rewrite isLeapYear_DaysInYear in *. unfold leap in *.
    rewrite isLeapYear_DaysInYear.
    assert (Hc : mn = 0 \/ mn = 1 \/ mn = 2 \/ mn = 3 \/ mn = 4 \/ mn = 5
                 \/ mn = 6 \/ mn = 7 \/ mn = 8 \/ mn = 9 \/ mn = 10 \/ mn = 11) by lia.
    repeat destruct Hc as [-> | Hc]; try subst mn;
      unfold daysInMonth in *; simpl in *;
      destruct (isLeapYear y); simpl in *; lia. }
  destruct Hk as [Hk Hk'].
  split; [apply YearFromDay_within; lia|].
  unfold JSDate.DateFromDay, JSDate.MonthFromDay.
  rewrite DayWithinYear_within, InLeapYear_within by lia.
  fold leap.
  assert (Hl : leap = if isLeapYear y then 1 else 0).
  { unfold leap. rewrite isLeapYear_DaysInYear. now destruct (isLeapYear y). }
  assert (Hkd : k = JSDate.DaysBeforeMonth leap mn + date - 1) by reflexivity.
  clearbody leap k.
  assert (Hc : mn = 0 \/ mn = 1 \/ mn = 2 \/ mn = 3 \/ mn = 4 \/ mn = 5
               \/ mn = 6 \/ mn = 7 \/ mn = 8 \/ mn = 9 \/ mn = 10 \/ mn = 11) by lia.
  unfold daysInMonth in Hk'.
  repeat destruct Hc as [-> | Hc]; try subst mn; simpl in Hk', Hkd;
    destruct (isLeapYear y); subst leap; simpl in Hk', Hkd |- *;
    repeat match goal with
           | |- context [?a <? ?b] => destruct (Z.ltb_spec a b); try lia
           end; simpl; lia.
Qed.

Lemma MonthFromDay_range d : 0 <= JSDate.MonthFromDay d <= 11.
Proof. unfold JSDate.MonthFromDay. case_ifs; lia. Qed.

(** Day 0 of the next month is the last day of this month. *)
Lemma MakeDay_day0_next y mn :
  0 <= mn <= 11 ->
  JSDate.MakeDay y (mn + 1) 0 = JSDate.MakeDay y mn (daysInMonth y (mn + 1)).
Proof.
  intros Hm. unfold JSDate.MakeDay.
  rewrite (Z.div_small mn 12), (Z.mod_small mn 12), Z.add_0_r by lia.
  assert (Hc : mn = 0 \/ mn = 1 \/ mn = 2 \/ mn = 3 \/ mn = 4 \/ mn = 5
               \/ mn = 6 \/ mn = 7 \/ mn = 8 \/ mn = 9 \/ mn = 10 \/ mn = 11) by lia.
  repeat destruct Hc as [-> | Hc]; try subst mn;
    try (change ((11 + 1) / 12) with 1; change ((11 + 1) mod 12) with 0;
         rewrite DayFromYear_succ);
    rewrite ?Z.add_0_r, !isLeapYear_DaysInYear;
    unfold daysInMonth;
    repeat match goal with
           | |- context [(?a + 1) / 12] =>
               let v := eval compute in ((a + 1) / 12) in
               change ((a + 1) / 12) with v
           | |- context [(?a + 1) mod 12] =>
               let v := eval compute in ((a + 1) mod 12) in
               change ((a + 1) mod 12) with v
           end;
    rewrite ?Z.add_0_r, ?isLeapYear_DaysInYear;
    destruct (isLeapYear y); simpl; try lia.
  all: destruct (isLeapYear (y + 1)); simpl; lia.
Qed.

Lemma lastDay_is_daysInMonth y mn :
  0 <= mn <= 11 ->
  JSDate.DateFromDay (JSDate.MakeDay y (mn + 1) 0) = daysInMonth y (mn + 1).
Proof.
  intros Hm. rewrite MakeDay_day0_next by lia.
  apply fields_of_MakeDay; [lia|].
  assert (Hc : mn = 0 \/ mn = 1 \/ mn = 2 \/ mn = 3 \/ mn = 4 \/ mn = 5
               \/ mn = 6 \/ mn = 7 \/ mn = 8 \/ mn = 9 \/ mn = 10 \/ mn = 11) by lia.
  repeat destruct Hc as [-> | Hc]; try subst mn;
    unfold daysInMonth; simpl; destruct (isLeapYear y); lia.
Qed.

(** [new Date(y, m, 1)] for any month offset [m]: the first day of the
    month with linear index [12 * y + m], when no year below 100 is
    involved. *)
Lemma newDate_first_of_month y m :
  ~ 0 <= y <= 99 ->
  JSDate.getFullYear (JSDate.newDate y m 1) = (12 * y + m) / 12
  /\ JSDate.getMonth (JSDate.newDate y m 1) = (12 * y + m) mod 12.
Proof.
  intros Hy. unfold JSDate.newDate, JSDate.getFullYear, JSDate.getMonth.
  replace ((0 <=? y) && (y <=? 99))%bool with false
    by (symmetry; apply andb_false_iff; bool_to_Z; lia).
  cbn [JSDate.dayNumber].
  assert (Hn : JSDate.MakeDay y m 1 = JSDate.MakeDay (y + m / 12) (m mod 12) 1).
  { unfold JSDate.MakeDay. rewrite Z.mod_mod by lia.
    rewrite (Z.div_small (m mod 12) 12) by (apply Z.mod_pos_bound; lia).
    now rewrite Z.add_0_r. }
  rewrite Hn.
  assert (Hq : (12 * y + m) / 12 = y + m / 12).
  { rewrite Z.add_comm, Z.mul_comm, Z.div_add by lia. lia. }
  assert (Hr : (12 * y + m) mod 12 = m mod 12).
  { rewrite Z.add_comm, Z.mul_comm, Z.mod_add by lia. reflexivity. }
  rewrite Hq, Hr.
  pose proof (Z.mod_pos_bound m 12 ltac:(lia)) as Hb.
  assert (Hd : 28 <= daysInMonth (y + m / 12) (m mod 12 + 1)).
  { unfold daysInMonth. case_ifs; try lia.
    all: destruct (m mod 12 + 1); try lia;
      repeat match goal with p : positive |- _ => destruct p; try lia end. }
  destruct (fields_of_MakeDay (y + m / 12) (m mod 12) 1) as (H1 & H2 & _);
    [lia | lia | auto].
Qed.

(** One iteration of the loop of [getMonthRange] yields the calendar
    window of the month [i] months before the month of [now]. *)
Lemma monthWindow_calendar now i :
  ~ 0 <= JSDate.getFullYear now <= 99 ->
  ~ 0 <= (monthIndex now - i) / 12 <= 99 ->
  monthWindow now i = calendarWindow (monthIndex now - i).
Proof.
  intros Hy Hw. unfold monthWindow, calendarWindow, monthIndex in *.
  destruct (newDate_first_of_month (JSDate.getFullYear now)
              (JSDate.getMonth now - i) Hy) as [Hyear Hmonth].
  replace (12 * JSDate.getFullYear now + (JSDate.getMonth now - i))
    with (12 * JSDate.getFullYear now + JSDate.getMonth now - i) in * by lia.
  rewrite Hyear, Hmonth.
  set (idx := 12 * JSDate.getFullYear now + JSDate.getMonth now - i) in *.
  assert (Hlast : JSDate.getDate (JSDate.newDate (idx / 12) (idx mod 12 + 1) 0)
                  = daysInMonth (idx / 12) (idx mod 12 + 1)).
  { unfold JSDate.getDate, JSDate.newDate.
    replace ((0 <=? idx / 12) && (idx / 12 <=? 99))%bool with false
      by (symmetry; apply andb_false_iff; bool_to_Z; lia).
    cbn [JSDate.dayNumber]. apply lastDay_is_daysInMonth.
    pose proof (Z.mod_pos_bound idx 12). lia. }
  rewrite Hlast.
  reflexivity.
Qed.

Lemma monthLoop_length now n : length (monthLoop now n) = n.
Proof. induction n; simpl; auto. Qed.

Lemma monthLoop_lookup now n k :
  (k < n)%nat ->
  monthLoop now n !! k = Some (monthWindow now (Z.of_nat n - Z.of_nat k)).
Proof.
  revert k. induction n as [|n IH]; intros k Hk; [lia|].
  destruct k as [|k].
  - cbn [monthLoop]. rewrite lookup_cons.
    replace (Z.of_nat (S n) - Z.of_nat 0) with (Z.of_nat (S n)) by lia. reflexivity.
  - cbn [monthLoop]. rewrite lookup_cons. rewrite IH by lia.
    replace (Z.of_nat (S n) - Z.of_nat (S k)) with (Z.of_nat n - Z.of_nat k) by lia.
    reflexivity.
Qed.

(* ===================================================================== *)
(** * The month windower *)
(* ===================================================================== *)

Lemma allFrom_spec (f : Z -> bool) (n : nat) (lo z : Z) :
  allFrom f lo n = true -> lo <= z < lo + Z.of_nat n -> f z = true.
Proof.
  revert lo. induction n as [|n IH]; intros lo Hall Hz; [lia|].
  cbn [allFrom] in Hall. apply andb_true_iff in Hall as [Hlo Hrest].
  destruct (Z.eq_dec z lo) as [-> | Hne]; [exact Hlo|].
  apply (IH (lo + 1)); [exact Hrest | lia].
Qed.

(** A year from 1000 to 9999 prints as four digits that read back as
    the year. *)
Lemma String_of_int_year y :
  1000 <= y <= 9999 ->
  String.length (String_of_int y) = 4%nat /\ parseDigits (String_of_int y) 0 = y.
Proof.
  intros Hy.
  assert (Hall : allFrom (fun z => Nat.eqb (String.length (String_of_int z)) 4
                                   && (parseDigits (String_of_int z) 0 =? z))
                   1000 (Z.to_nat 9000) = true) by (vm_compute; reflexivity).
  pose proof (allFrom_spec _ _ _ y Hall ltac:(lia)) as H.
  apply andb_true_iff in H as [H1 H2].
  split; [now apply Nat.eqb_eq | now apply Z.eqb_eq].
Qed.

(** A number from 0 to 99 is padded to two digits that read back as the
    number. *)
Lemma padStart2_number n :
  0 <= n <= 99 ->
  String.length (padStart2 (String_of_int n)) = 2%nat
  /\ parseDigits (padStart2 (String_of_int n)) 0 = n.
Proof.
  intros Hn.
  assert (Hall : allFrom (fun z => Nat.eqb (String.length (padStart2 (String_of_int z))) 2
                                   && (parseDigits (padStart2 (String_of_int z)) 0 =? z))
                   0 (Z.to_nat 100) = true) by (vm_compute; reflexivity).
  pose proof (allFrom_spec _ _ _ n Hall ltac:(lia)) as H.
  apply andb_true_iff in H as [H1 H2].
  split; [now apply Nat.eqb_eq | now apply Z.eqb_eq].
Qed.

Lemma String_of_int_4_digits y :
  1000 <= y <= 9999 -> String.length (String_of_int y) = 4%nat.
Proof. intros Hy. now apply String_of_int_year. Qed.

Lemma padStart2_2_digits n :
  0 <= n <= 99 -> String.length (padStart2 (String_of_int n)) = 2%nat.
Proof. intros Hn. now apply padStart2_number. Qed.

Lemma String_length_append (s1 s2 : string) :
  String.length (s1 +:+ s2) = (String.length s1 + String.length s2)%nat.
Proof. induction s1 as [|c s1 IH]; simpl; auto. Qed.

Lemma String_append_assoc (s1 s2 s3 : string) :
  (s1 +:+ s2) +:+ s3 = s1 +:+ (s2 +:+ s3).
Proof.
  induction s1 as [|c s1 IH]; [reflexivity|].
  change (String c ((s1 +:+ s2) +:+ s3) = String c (s1 +:+ (s2 +:+ s3))).
  now f_equal.
Qed.

Lemma daysInMonth_range y m : 1 <= m <= 12 -> 28 <= daysInMonth y m <= 31.
Proof.
  intros Hm.
  assert (Hc : m = 1 \/ m = 2 \/ m = 3 \/ m = 4 \/ m = 5 \/ m = 6 \/ m = 7
               \/ m = 8 \/ m = 9 \/ m = 10 \/ m = 11 \/ m = 12) by lia.
  repeat destruct Hc as [-> | Hc]; try subst m; unfold daysInMonth;
    try destruct (isLeapYear y); lia.
Qed.

(** The dates of a calendar window are its key followed by the day. *)
Lemma calendarWindow_shape idx :
  start (calendarWindow idx) = key (calendarWindow idx) +:+ "-01"
  /\ end_ (calendarWindow idx)
     = key (calendarWindow idx) +:+ "-"
       +:+ padStart2 (String_of_int (daysInMonth (idx / 12) (idx mod 12 + 1))).
Proof.
  unfold calendarWindow. cbn [key start end_].
  split; now rewrite !String_append_assoc.
Qed.

(** In a four-digit year the key and the dates have the lengths of
    ["YYYY-MM"] and ["YYYY-MM-DD"]. *)
Lemma calendarWindow_lengths idx :
  12000 <= idx < 120000 ->
  String.length (key (calendarWindow idx)) = 7%nat
  /\ String.length (start (calendarWindow idx)) = 10%nat
  /\ String.length (end_ (calendarWindow idx)) = 10%nat.
Proof.
  intros Hidx. unfold calendarWindow. cbn [key start end_].
  pose proof (Z.mod_pos_bound idx 12 ltac:(lia)) as Hm.
  assert (Hy : 1000 <= idx / 12 <= 9999) by (Z.div_mod_to_equations; lia).
  pose proof (daysInMonth_range (idx / 12) (idx mod 12 + 1) ltac:(lia)) as Hd.
  rewrite !String_length_append, String_of_int_4_digits, !padStart2_2_digits by lia.
  repeat split.
Qed.

(** The window at every position of the list, for windows in the year
    100 or later. *)
Lemma getMonthRange_lookup (now : JSDate.Date) (monthsBack : Z) :
  1 <= monthsBack ->
  1200 <= monthIndex now - monthsBack ->
  Z.of_nat (length (getMonthRange now monthsBack)) = monthsBack
  /\ (forall j, 0 <= j < monthsBack ->
        getMonthRange now monthsBack !! Z.to_nat j
        = Some (calendarWindow (monthIndex now - monthsBack + j))).
Proof.
  intros Hmb Hlo.
  pose proof (MonthFromDay_range (JSDate.dayNumber now)) as HM.
  assert (Hnow : ~ 0 <= JSDate.getFullYear now <= 99).
  { unfold monthIndex, JSDate.getMonth in *. lia. }
  split.
  { unfold getMonthRange. rewrite monthLoop_length. lia. }
  intros j Hj. unfold getMonthRange.
  rewrite monthLoop_lookup by lia.
  rewrite monthWindow_calendar.
  - do 2 f_equal. lia.
  - exact Hnow.
  - rewrite !Z2Nat.id by lia.
    assert (100 <= (monthIndex now - (monthsBack - j)) / 12)
      by (Z.div_mod_to_equations; lia).
    lia.
Qed.

(** C8.  For a lookback [monthsBack >= 1] from any current date, with
    the oldest window in the year 100 or later (the [Date] constructor
    reads a year from 0 to 99 as 1900 plus that year): [getMonthRange]
    returns exactly [monthsBack] windows; the window at position [j] is
    the calendar window of the month [monthsBack - j] months before the
    current month, so the windows are consecutive months, oldest first,
    and the last one is the month just before the current month, never
    the current one.  Every start is the key followed by [-01] and
    every end is the key followed by the length of that month in the
    Gregorian calendar (28 to 31 days, 29 for February of a leap year).
    In the years 1000 to 9999 the key has the seven characters of
    ["YYYY-MM"] and the dates the ten of ["YYYY-MM-DD"]. *)
Theorem getMonthRange_calendar_months (now : JSDate.Date) (monthsBack : Z) :
  1 <= monthsBack ->
  1200 <= monthIndex now - monthsBack ->
  let ws := getMonthRange now monthsBack in
  Z.of_nat (length ws) = monthsBack
  /\ (forall j, 0 <= j < monthsBack ->
        ws !! Z.to_nat j = Some (calendarWindow (monthIndex now - monthsBack + j)))
  /\ last ws = Some (calendarWindow (monthIndex now - 1))
  /\ (forall w, w ∈ ws ->
        exists idx, monthIndex now - monthsBack <= idx < monthIndex now
          /\ w = calendarWindow idx
          /\ start w = key w +:+ "-01"
          /\ end_ w = key w +:+ "-"
               +:+ padStart2 (String_of_int (daysInMonth (idx / 12) (idx mod 12 + 1)))
          /\ 28 <= daysInMonth (idx / 12) (idx mod 12 + 1) <= 31
          /\ (12000 <= idx < 120000 ->
              String.length (key w) = 7%nat
              /\ String.length (start w) = 10%nat
              /\ String.length (end_ w) = 10%nat)).
Proof.
  intros Hmb Hlo ws.
  destruct (getMonthRange_lookup now monthsBack Hmb Hlo) as [Hlen Hlk].
  fold ws in Hlen, Hlk.
  split; [exact Hlen|]. split; [exact Hlk|]. split.
  - rewrite last_lookup.
    replace (Nat.pred (length ws)) with (Z.to_nat (monthsBack - 1)) by lia.
    rewrite Hlk by lia. do 2 f_equal. lia.
  - intros w Hw. apply list_elem_of_lookup in Hw as [n Hn].
    assert (Hnlt : (n < length ws)%nat) by (eapply lookup_lt_Some; eauto).
    specialize (Hlk (Z.of_nat n) ltac:(lia)).
    rewrite Nat2Z.id, Hn in Hlk. injection Hlk as ->.
    exists (monthIndex now - monthsBack + Z.of_nat n).
    split; [lia|]. split; [reflexivity|].
    destruct (calendarWindow_shape (monthIndex now - monthsBack + Z.of_nat n))
      as [Hs He].
    split; [exact Hs|]. split; [exact He|]. split.
    + apply daysInMonth_range.
      pose proof (Z.mod_pos_bound (monthIndex now - monthsBack + Z.of_nat n) 12).
      lia.
    + apply calendarWindow_lengths.
Qed.

(** A run on 15 March 2024 (day 19797): twelve windows from March 2023
    to February 2024, the last one ending on 29 February. *)
Lemma getMonthRange_calendar_months_witness :
  let now := JSDate.mkDate 19797 in
  Z.of_nat (length (getMonthRange now 12)) = 12
  /\ last (getMonthRange now 12)
     = Some {| key := "2024-02"; start := "2024-02-01"; end_ := "2024-02-29" |}.
Proof.
  intros now.
  destruct (getMonthRange_calendar_months now 12) as (Hlen & _ & Hlast & _).
  - lia.
  - vm_compute. discriminate.
  - split; [exact Hlen|]. rewrite Hlast. vm_compute. reflexivity.
Defined.

(** The month ends of the twelve windows before March 2024: 28 to 31
    days, and 29 for the February of the leap year 2024. *)
Example month_ends_before_march_2024 :
  map end_ (getMonthRange (JSDate.mkDate 19797) 12)
  = ["2023-03-31"; "2023-04-30"; "2023-05-31"; "2023-06-30"; "2023-07-31";
     "2023-08-31"; "2023-09-30"; "2023-10-31"; "2023-11-30"; "2023-12-31";
     "2024-01-31"; "2024-02-29"].
Proof. vm_compute. reflexivity. Qed.

(* ===================================================================== *)
(** * The KPI derivation engine *)
(* ===================================================================== *)

Lemma sumQ_cons (x : Q) (l : list Q) : sumQ (x :: l) = (x + sumQ l)%Q.
Proof. reflexivity. Qed.

Lemma sumN_cons (x : N) (l : list N) : sumN (x :: l) = (x + sumN l)%N.
Proof. reflexivity. Qed.

Lemma r2_None : r2 None = None.
Proof. reflexivity. Qed.

Lemma r2_Qeq (x y : Q) : (x == y)%Q -> r2 (Some x) = r2 (Some y).
Proof.
  intros H. unfold r2, Math_round. do 3 f_equal.
  apply Qfloor_comp. now rewrite H.
Qed.

Lemma isPositive_spec (v : Q) : isPositive v = true <-> (0 < v)%Q.
Proof.
  unfold isPositive. rewrite negb_true_iff.
  destruct (Qle_bool v 0) eqn:E.
  - apply Qle_bool_iff in E. split; [discriminate|]. intros H.
    exfalso. apply (Qlt_not_le _ _ H E).
  - split; [intros _|reflexivity].
    apply Qnot_le_lt. intros H. apply Qle_bool_iff in H. congruence.
Qed.

Lemma isPositive_false (v : Q) : isPositive v = false <-> (v <= 0)%Q.
Proof.
  unfold isPositive. rewrite negb_false_iff. apply Qle_bool_iff.
Qed.

Lemma isPositive_Qeq (x y : Q) : (x == y)%Q -> isPositive x = isPositive y.
Proof.
  intros H. destruct (isPositive y) eqn:E.
  - apply isPositive_spec. rewrite H. now apply isPositive_spec.
  - apply isPositive_false. rewrite H. now apply isPositive_false.
Qed.

Lemma truthy_false (v : Q) : truthy v = false <-> (v == 0)%Q.
Proof. unfold truthy. rewrite negb_false_iff. apply Qeq_bool_iff. Qed.

(** ** The loops as sums *)

Lemma fold_left_Qplus (f : string -> Q) (l : list string) (a : Q) :
  (fold_left (fun sum x => sum + f x) l a == a + sumQ (map f l))%Q.
Proof.
  revert a. induction l as [|x l IH]; intros a; simpl.
  - ring.
  - rewrite IH. ring.
Qed.

Lemma totalLocSpendOf_sum (ms : gmap string Q) :
  (totalLocSpendOf ms == overLocations (orZero ms))%Q.
Proof.
  unfold totalLocSpendOf, overLocations. rewrite fold_left_Qplus. ring.
Qed.

(** The first loop leaves one entry per location it ran over. *)
Lemma allocations_lookup (ms : gmap string Q) (l : list string) a loc :
  fst (fold_left (allocationStep ms) l a) !! loc
  = (if bool_decide (loc ∈ l)
     then Some (orZero ms "Corp" * locShare ms loc)%Q else fst a !! loc)
  /\ snd (fold_left (allocationStep ms) l a) !! loc
     = (if bool_decide (loc ∈ l)
        then Some (SALARY_CONFIG.total * locShare ms loc)%Q else snd a !! loc).
Proof.
  revert a. induction l as [|x l IH]; intros a; simpl; [auto|].
  destruct (IH (allocationStep ms a x)) as [H1 H2].
  rewrite H1, H2. clear IH H1 H2.
  destruct (decide (loc ∈ l)) as [Hin | Hnin].
  - rewrite !bool_decide_eq_true_2; auto. right; auto.
  - rewrite (bool_decide_eq_false_2 (loc ∈ l)) by auto.
    destruct (decide (x = loc)) as [-> | Hne].
    + rewrite bool_decide_eq_true_2 by left.
      unfold allocationStep; simpl. now rewrite !lookup_insert_eq.
    + rewrite bool_decide_eq_false_2.
      * unfold allocationStep; simpl. now rewrite !lookup_insert_ne by auto.
      * intros H. apply elem_of_cons in H as [-> | H]; auto.
Qed.

Lemma corpAllocation_lookup (ms : gmap string Q) loc :
  corpAllocation ms !! loc
  = if bool_decide (loc ∈ LOCATIONS)
    then Some (orZero ms "Corp" * locShare ms loc)%Q else None.
Proof.
  unfold corpAllocation, allocations.
  destruct (allocations_lookup ms LOCATIONS (∅, ∅) loc) as [H _].
  rewrite H. cbn [fst]. now rewrite lookup_empty.
Qed.

Lemma salaryAllocation_lookup (ms : gmap string Q) loc :
  salaryAllocation ms !! loc
  = if bool_decide (loc ∈ LOCATIONS)
    then Some (SALARY_CONFIG.total * locShare ms loc)%Q else None.
Proof.
  unfold salaryAllocation, allocations.
  destruct (allocations_lookup ms LOCATIONS (∅, ∅) loc) as [_ H].
  rewrite H. cbn [snd]. now rewrite lookup_empty.
Qed.

Lemma sumQ_map_ext (f g : string -> Q) (l : list string) :
  (forall x, x ∈ l -> (f x == g x)%Q) -> (sumQ (map f l) == sumQ (map g l))%Q.
Proof.
  induction l as [|x l IH]; intros H; simpl; [reflexivity|].
  rewrite (H x) by left. rewrite IH; [reflexivity|].
  intros y Hy. apply H. now right.
Qed.

Lemma sumQ_map_scale (c : Q) (f : string -> Q) (l : list string) :
  (sumQ (map (fun x => c * f x) l) == c * sumQ (map f l))%Q.
Proof.
  induction l as [|x l IH]; simpl; [ring|]. rewrite IH. ring.
Qed.

Lemma sumQ_map_div (f : string -> Q) (d : Q) (l : list string) :
  (sumQ (map (fun x => f x / d) l) == sumQ (map f l) / d)%Q.
Proof.
  induction l as [|x l IH]; simpl.
  - unfold Qdiv. ring.
  - rewrite IH. unfold Qdiv. ring.
Qed.

(** The shares of the locations add up to one, whichever branch the
    guard [totalLocSpend > 0] takes. *)
Lemma locShare_sum (ms : gmap string Q) :
  (overLocations (locShare ms) == 1)%Q.
Proof.
  unfold overLocations, locShare.
  destruct (isPositive (totalLocSpendOf ms)) eqn:E.
  - apply isPositive_spec in E.
    rewrite sumQ_map_div. fold (overLocations (orZero ms)).
    rewrite <- totalLocSpendOf_sum.
    field. intros H. rewrite H in E. now apply Qlt_irrefl in E.
  - vm_compute. reflexivity.
Qed.

(** The variables after the second loop has run over [l]. *)
Lemma kpiLoop_sums (inp : Inputs) (l : list string) (a : Accum) :
  let r := fold_left (kpiStep inp) l a in
  (totRev r == totRev a + sumQ (map (revOf inp) l))%Q
  /\ (totSpend r == totSpend a + sumQ (map (spendOf inp) l))%Q
  /\ (totCorpAlloc r == totCorpAlloc a + sumQ (map (corpAllocOf inp) l))%Q
  /\ (totSalary r == totSalary a + sumQ (map (salaryOf inp) l))%Q
  /\ totMembers r = (totMembers a + sumN (map (membersOf inp) l))%N
  /\ totNewMembers r = (totNewMembers a + sumN (map (newMembersOf inp) l))%N
  /\ totLeads r = (totLeads a + sumN (map (leadsOf inp) l))%N.
Proof.
  revert a. induction l as [|x l IH]; intros a.
  - cbn. repeat split; try ring; lia.
  - cbn [fold_left map]. rewrite !sumQ_cons, !sumN_cons.
    destruct (IH (kpiStep inp a x)) as (H1 & H2 & H3 & H4 & H5 & H6 & H7).
    cbv zeta. rewrite H1, H2, H3, H4, H5, H6, H7.
    unfold kpiStep, revOf, spendOf, corpAllocOf, salaryOf, membersOf,
      newMembersOf, leadsOf.
    cbn [totRev totSpend totCorpAlloc totSalary totMembers totNewMembers totLeads].
    repeat split; try ring; lia.
Qed.

Lemma kpiLoop_data (inp : Inputs) (l : list string) (a : Accum) (loc : string) :
  acc_data (fold_left (kpiStep inp) l a) !! loc
  = if bool_decide (loc ∈ l) then Some (locationKPIs inp loc) else acc_data a !! loc.
Proof.
  revert a. induction l as [|x l IH]; intros a; [reflexivity|].
  cbn [fold_left]. rewrite IH.
  destruct (decide (loc ∈ l)) as [Hin | Hnin].
  - rewrite !bool_decide_eq_true_2; auto. now right.
  - rewrite (bool_decide_eq_false_2 (loc ∈ l)) by auto.
    destruct (decide (x = loc)) as [-> | Hne].
    + rewrite bool_decide_eq_true_2 by left.
      unfold kpiStep. cbn [acc_data]. now rewrite lookup_insert_eq.
    + rewrite bool_decide_eq_false_2.
      * unfold kpiStep. cbn [acc_data]. now rewrite lookup_insert_ne by auto.
      * intros H. apply elem_of_cons in H as [-> | H]; auto.
Qed.

(** The weighted tenure sum skips a location only when its term is 0,
    as long as no tenure is negative. *)
Lemma kpiLoop_duration (inp : Inputs) (l : list string) (a : Accum) :
  Forall (fun loc => (0 <= tenureOf loc)%Q) l ->
  (durationWeightedSum (fold_left (kpiStep inp) l a)
   == durationWeightedSum a
      + sumQ (map (fun loc => tenureOf loc * N2Q (membersOf inp loc)) l))%Q.
Proof.
  revert a. induction l as [|x l IH]; intros a Hall.
  - cbn. ring.
  - inversion Hall as [|? ? Hx Hl]; subst.
    cbn [fold_left map]. rewrite sumQ_cons. rewrite IH by assumption.
    unfold kpiStep. cbn [durationWeightedSum].
    fold (tenureOf x). fold (membersOf inp x).
    destruct (isPositive (tenureOf x)) eqn:Ed; cbn [andb].
    + destruct (N.ltb_spec 0 (membersOf inp x)) as [Hm | Hm].
      * ring.
      * assert (membersOf inp x = 0%N) as -> by lia.
        unfold N2Q. cbn. ring.
    + apply isPositive_false in Ed.
      assert (tenureOf x == 0)%Q as -> by (apply Qle_antisym; assumption).
      ring.
Qed.

Lemma tenure_nonneg : Forall (fun loc => (0 <= tenureOf loc)%Q) LOCATIONS.
Proof. repeat constructor; vm_compute; discriminate. Qed.

Lemma tenure_positive loc : loc ∈ LOCATIONS -> (0 < tenureOf loc)%Q.
Proof.
  unfold LOCATIONS. rewrite !elem_of_cons, elem_of_nil.
  intros H. repeat destruct H as [-> | H]; try contradiction;
    vm_compute; reflexivity.
Qed.

Lemma LOCATIONS_NoDup : NoDup LOCATIONS.
Proof. apply (bool_decide_unpack (NoDup LOCATIONS)). vm_compute. exact I. Qed.

Lemma calculateKPIs_data (inp : Inputs) (loc : string) :
  KPIs.data (calculateKPIs inp) !! loc
  = if bool_decide (loc ∈ LOCATIONS) then Some (locationKPIs inp loc) else None.
Proof.
  unfold calculateKPIs. cbn [KPIs.data]. rewrite kpiLoop_data.
  unfold accum0. cbn [acc_data]. now rewrite lookup_empty.
Qed.

Lemma isPositive_zero (v : Q) : (v == 0)%Q -> isPositive v = false.
Proof. intros H. apply isPositive_false. rewrite H. apply Qle_refl. Qed.

(** C1.  In the record of any location, a ratio whose denominator is
    zero is [null]: the average revenue per member when there are no
    active members; the three acquisition costs when there are no new
    members; the three spend-to-revenue ratios when the revenue is zero;
    the cost per lead when there are no leads; and the lifetime value when
    the average revenue per member is undefined or zero or the tenure is
    zero.  It is [None], so neither [Some 0] nor a not-a-number, and
    [r2] leaves [null] as it is. *)
Theorem zero_denominator_is_null (inp : Inputs) (loc : string) (rec : KPIRecord) :
  KPIs.data (calculateKPIs inp) !! loc = Some rec ->
  (membersOf inp loc = 0%N -> avgRevPerMember rec = None)
  /\ (newMembersOf inp loc = 0%N ->
      cac rec = None /\ corpCac rec = None /\ allInCac rec = None)
  /\ ((revOf inp loc == 0)%Q ->
      mktgSpendToRev rec = None /\ corpMktgToRev rec = None
      /\ allInSpendToRev rec = None)
  /\ (leadsOf inp loc = 0%N -> costPerLead rec = None)
  /\ (membersOf inp loc = 0%N \/ (revOf inp loc == 0)%Q \/ (tenureOf loc == 0)%Q ->
      ltv rec = None)
  /\ r2 None = None.
Proof.
  rewrite calculateKPIs_data. intros Hrec.
  destruct (bool_decide (loc ∈ LOCATIONS)); [|discriminate].
  injection Hrec as <-.
  unfold locationKPIs, membersOf, newMembersOf, revOf, leadsOf, tenureOf.
  cbn [cac corpCac allInCac avgRevPerMember ltv mktgSpendToRev corpMktgToRev
       allInSpendToRev costPerLead].
  split; [intros ->; reflexivity|].
  split; [intros ->; repeat split|].
  split; [intros Hrev; rewrite (isPositive_zero _ Hrev); repeat split|].
  split; [intros ->; reflexivity|].
  split; [|reflexivity].
  - intros [-> | [Hrev | Hten]]; [reflexivity | |].
    + destruct (0 <? countOrZero (memberCounts inp) loc)%N; [|reflexivity].
      cbn [ratioWhen productWhenTruthy].
      replace (truthy (orZero (revenue inp) loc
                       / N2Q (countOrZero (memberCounts inp) loc)))
        with false; [reflexivity|].
      symmetry. apply truthy_false. rewrite Hrev. unfold Qdiv. ring.
    + destruct (0 <? countOrZero (memberCounts inp) loc)%N; [|reflexivity].
      cbn [ratioWhen productWhenTruthy].
      apply truthy_false in Hten. rewrite Hten, andb_false_r. reflexivity.
Qed.

(** A location without members, new members, revenue or leads: every
    ratio of its record is [null]. *)
Lemma zero_denominator_is_null_witness :
  let inp := mkInputs ∅ (objectOf [("ATL-UWS", 100%Q)]) ∅ ∅ ∅ in
  exists rec,
    KPIs.data (calculateKPIs inp) !! "ATL-UWS" = Some rec
    /\ avgRevPerMember rec = None /\ cac rec = None /\ mktgSpendToRev rec = None
    /\ costPerLead rec = None /\ ltv rec = None.
Proof.
  intros inp. exists (locationKPIs inp "ATL-UWS").
  assert (Hrec : KPIs.data (calculateKPIs inp) !! "ATL-UWS"
                 = Some (locationKPIs inp "ATL-UWS")).
  { rewrite calculateKPIs_data. reflexivity. }
  destruct (zero_denominator_is_null inp "ATL-UWS" _ Hrec)
    as (H1 & H2 & H3 & H4 & H5 & _).
  split; [exact Hrec|].
  split; [apply H1; reflexivity|].
  split; [apply H2; reflexivity|].
  split; [apply H3; reflexivity|].
  split; [apply H4; reflexivity|].
  apply H5. left. reflexivity.
Defined.

(** ** Allocation of the corporate spend and of the payroll *)

Lemma orZero_corpAllocation (ms : gmap string Q) loc :
  loc ∈ LOCATIONS ->
  orZero (corpAllocation ms) loc = (orZero ms "Corp" * locShare ms loc)%Q.
Proof.
  intros Hin. unfold orZero at 1. rewrite corpAllocation_lookup.
  now rewrite bool_decide_eq_true_2.
Qed.

Lemma orZero_salaryAllocation (ms : gmap string Q) loc :
  loc ∈ LOCATIONS ->
  orZero (salaryAllocation ms) loc = (SALARY_CONFIG.total * locShare ms loc)%Q.
Proof.
  intros Hin. unfold orZero at 1. rewrite salaryAllocation_lookup.
  now rewrite bool_decide_eq_true_2.
Qed.

Lemma corpAllocation_total (ms : gmap string Q) :
  (overLocations (orZero (corpAllocation ms)) == orZero ms "Corp")%Q.
Proof.
  unfold overLocations.
  rewrite (sumQ_map_ext _ (fun loc => orZero ms "Corp" * locShare ms loc)%Q).
  - rewrite sumQ_map_scale. fold (overLocations (locShare ms)).
    rewrite locShare_sum. ring.
  - intros loc Hin. now rewrite orZero_corpAllocation.
Qed.

Lemma salaryAllocation_total (ms : gmap string Q) :
  (overLocations (orZero (salaryAllocation ms)) == SALARY_CONFIG.total)%Q.
Proof.
  unfold overLocations.
  rewrite (sumQ_map_ext _ (fun loc => SALARY_CONFIG.total * locShare ms loc)%Q).
  - rewrite sumQ_map_scale. fold (overLocations (locShare ms)).
    rewrite locShare_sum. ring.
  - intros loc Hin. now rewrite orZero_salaryAllocation.
Qed.




(** ** Aggregate totals *)

Lemma r2_ratioWhen_proper c (n n' d d' : Q) :
  (n == n')%Q -> (d == d')%Q -> r2 (ratioWhen c n d) = r2 (ratioWhen c n' d').
Proof.
  intros Hn Hd. destruct c; [|reflexivity]. apply r2_Qeq. now rewrite Hn, Hd.
Qed.

Lemma kpiLoop_from_zero (inp : Inputs) (l : list string) :
  Forall (fun loc => (0 <= tenureOf loc)%Q) l ->
  let a := fold_left (kpiStep inp) l accum0 in
  (totRev a == sumQ (map (revOf inp) l))%Q
  /\ (totSpend a == sumQ (map (spendOf inp) l))%Q
  /\ (totCorpAlloc a == sumQ (map (corpAllocOf inp) l))%Q
  /\ (totSalary a == sumQ (map (salaryOf inp) l))%Q
  /\ totMembers a = sumN (map (membersOf inp) l)
  /\ totNewMembers a = sumN (map (newMembersOf inp) l)
  /\ totLeads a = sumN (map (leadsOf inp) l)
  /\ (durationWeightedSum a
      == sumQ (map (fun loc => tenureOf loc * N2Q (membersOf inp loc)) l))%Q.
Proof.
  intros Hall a.
  destruct (kpiLoop_sums inp l accum0) as (H1 & H2 & H3 & H4 & H5 & H6 & H7).
  pose proof (kpiLoop_duration inp l accum0 Hall) as H8.
  fold a in H1, H2, H3, H4, H5, H6, H7, H8.
  clearbody a.
  unfold accum0 in *.
  cbn [totRev totSpend totCorpAlloc totSalary totMembers totNewMembers totLeads
       durationWeightedSum] in *.
  rewrite H1, H2, H3, H4, H5, H6, H7, H8.
  repeat split; try ring; lia.
Qed.

Lemma calculateKPIs_sums (inp : Inputs) :
  let a := fold_left (kpiStep inp) LOCATIONS accum0 in
  (totRev a == overLocations (revOf inp))%Q
  /\ (totSpend a == overLocations (spendOf inp))%Q
  /\ (totCorpAlloc a == overLocations (corpAllocOf inp))%Q
  /\ (totSalary a == overLocations (salaryOf inp))%Q
  /\ totMembers a = countOverLocations (membersOf inp)
  /\ totNewMembers a = countOverLocations (newMembersOf inp)
  /\ totLeads a = countOverLocations (leadsOf inp)
  /\ (durationWeightedSum a
      == overLocations (fun loc => tenureOf loc * N2Q (membersOf inp loc)))%Q.
Proof. exact (kpiLoop_from_zero inp LOCATIONS tenure_nonneg). Qed.

(* ===================================================================== *)
(** * The totals on the numbers of the script *)
(* ===================================================================== *)

(** A loop that adds a term under a condition sums the terms of the
    elements that meet the condition. *)
Lemma fold_left_when {A B : Type} (p : B -> bool) (f : A -> B -> A) (l : list B) (a : A) :
  fold_left (fun s x => if p x then f s x else s) l a
  = fold_left f (List.filter p l) a.
Proof.
  revert a. induction l as [|x l IH]; intros a; [reflexivity|].
  cbn [fold_left List.filter]. destruct (p x); cbn [fold_left]; apply IH.
Qed.

(** The variables of the second loop after the locations [l]: each
    total is its starting value with the readings of [l] added one by
    one. *)
Lemma kpiLoop64_sums (inp : Binary64.Inputs) (l : list string) (a : Binary64.Accum) :
  let b := fold_left (Binary64.kpiStep inp) l a in
  Binary64.totRev b
  = fold_left (fun s loc => s + Binary64.orZero (Binary64.revenue inp) loc)%float l
      (Binary64.totRev a)
  /\ Binary64.totSpend b
     = fold_left (fun s loc => s + Binary64.orZero (Binary64.mktgSpend inp) loc)%float l
         (Binary64.totSpend a)
  /\ Binary64.totCorpAlloc b
     = fold_left (fun s loc =>
         s + Binary64.orZero (Binary64.corpAllocation (Binary64.mktgSpend inp)) loc)%float
         l (Binary64.totCorpAlloc a)
  /\ Binary64.totSalary b
     = fold_left (fun s loc =>
         s + Binary64.orZero (Binary64.salaryAllocation (Binary64.mktgSpend inp)) loc)%float
         l (Binary64.totSalary a)
  /\ Binary64.totMembers b
     = fold_left (fun s loc => s + members64 inp loc)%float l (Binary64.totMembers a)
  /\ Binary64.totNewMembers b
     = fold_left (fun s loc => s + Binary64.countOrZero (Binary64.newMembers inp) loc)%float
         l (Binary64.totNewMembers a)
  /\ Binary64.totLeads b
     = fold_left (fun s loc => s + Binary64.countOrZero (Binary64.leads inp) loc)%float
         l (Binary64.totLeads a)
  /\ Binary64.durationWeightedSum b
     = fold_left (fun s loc => s + tenure64 loc * members64 inp loc)%float
         (List.filter (weighs inp) l) (Binary64.durationWeightedSum a).
Proof.
  revert a. induction l as [|x l IH]; intros a; cbv zeta.
  - cbn. repeat split; reflexivity.
  - cbn [fold_left]. specialize (IH (Binary64.kpiStep inp a x)). cbv zeta in IH.
    destruct IH as (H1 & H2 & H3 & H4 & H5 & H6 & H7 & H8).
    rewrite H1, H2, H3, H4, H5, H6, H7, H8.
    repeat (split; [reflexivity|]).
    cbn [List.filter]. unfold Binary64.kpiStep.
    cbn [Binary64.durationWeightedSum].
    fold (tenure64 x). fold (members64 inp x). fold (weighs inp x).
    destruct (weighs inp x); reflexivity.
Qed.

(** The totals of [calculateKPIs], variable by variable: the sums of the
    readings over the enumerated locations. *)
Lemma calculateKPIs64_sums (inp : Binary64.Inputs) :
  let a := fold_left (Binary64.kpiStep inp) LOCATIONS Binary64.accum0 in
  Binary64.totRev a = sumOver (Binary64.orZero (Binary64.revenue inp)) LOCATIONS
  /\ Binary64.totSpend a = sumOver (Binary64.orZero (Binary64.mktgSpend inp)) LOCATIONS
  /\ Binary64.totCorpAlloc a
     = sumOver (Binary64.orZero (Binary64.corpAllocation (Binary64.mktgSpend inp)))
         LOCATIONS
  /\ Binary64.totSalary a
     = sumOver (Binary64.orZero (Binary64.salaryAllocation (Binary64.mktgSpend inp)))
         LOCATIONS
  /\ Binary64.totMembers a = sumOver (members64 inp) LOCATIONS
  /\ Binary64.totNewMembers a
     = sumOver (Binary64.countOrZero (Binary64.newMembers inp)) LOCATIONS
  /\ Binary64.totLeads a = sumOver (Binary64.countOrZero (Binary64.leads inp)) LOCATIONS
  /\ Binary64.durationWeightedSum a
     = sumOver (fun loc => tenure64 loc * members64 inp loc)%float
         (List.filter (weighs inp) LOCATIONS).
Proof. exact (kpiLoop64_sums inp LOCATIONS Binary64.accum0). Qed.

(** The rounding of the script on a few numbers: a ratio that is half a
    cent in exact arithmetic is not always one in doubles. *)
Fact r2_on_doubles :
  Binary64.r2 (Some (201 / 200)%float) = Some 1%float
  /\ Binary64.r2 (Some (23 / 40)%float) = Some (57 / 100)%float
  /\ Binary64.r2 (Some (3 / 200)%float) = Some (2 / 100)%float
  /\ Binary64.r2 (Some (1 / 0)%float) = None
  /\ Binary64.r2 None = None.
Proof. vm_compute. repeat split; reflexivity. Qed.

(** The allocations summed back by the second loop need not add up to
    the corporate spend: eleven shares of one eleventh of 3 sum to
    2.9999999999999991, and the corp-loaded CAC over 8 new members is
    written as 0.37, where 3 / 8 itself rounds to 0.38. *)
Example allocations_summed_back :
  (sumOver (Binary64.orZero (Binary64.corpAllocation (Binary64.mktgSpend corpOfThree)))
     LOCATIONS <? 3)%float = true
  /\ Binary64.corpCac (Binary64.totals (Binary64.calculateKPIs corpOfThree))
     = Some (37 / 100)%float
  /\ Binary64.r2 (Some ((0 + 3) / 8)%float) = Some (38 / 100)%float.
Proof. vm_compute. repeat split; reflexivity. Qed.

(** C3.  The aggregate CAC is the pooled ratio: when some location has
    a new member, it is the sum of the direct spend over the enumerated
    locations divided by the sum of their new members, rounded to two
    decimals by [r2].  Every other aggregate ratio is likewise a quotient
    of sums over the locations, [null] when its summed denominator is not
    positive.  The sums, the quotient and the rounding are those of the
    script, on doubles.  The pooled ratio is not the mean of the
    per-location values: for two locations that each spend 100 and sign
    1 and 9 members, the aggregate CAC is 20 while the per-location
    values, 100 and 11.11, average 55.555. *)
Theorem aggregate_ratios_are_pooled (inp : Binary64.Inputs) :
  let tot := Binary64.totals (Binary64.calculateKPIs inp) in
  let spend := sumOver (Binary64.orZero (Binary64.mktgSpend inp)) LOCATIONS in
  let corp :=
    sumOver (Binary64.orZero (Binary64.corpAllocation (Binary64.mktgSpend inp)))
      LOCATIONS in
  let salary :=
    sumOver (Binary64.orZero (Binary64.salaryAllocation (Binary64.mktgSpend inp)))
      LOCATIONS in
  let rev := sumOver (Binary64.orZero (Binary64.revenue inp)) LOCATIONS in
  let newMem := sumOver (Binary64.countOrZero (Binary64.newMembers inp)) LOCATIONS in
  let members := sumOver (members64 inp) LOCATIONS in
  let leadCount := sumOver (Binary64.countOrZero (Binary64.leads inp)) LOCATIONS in
  (Binary64.isPositive newMem = true ->
   Binary64.cac tot = Binary64.r2 (Some (spend / newMem)%float))
  /\ Binary64.corpCac tot
     = Binary64.r2 (Binary64.ratioWhen (Binary64.isPositive newMem)
                      (spend + corp)%float newMem)
  /\ Binary64.allInCac tot
     = Binary64.r2 (Binary64.ratioWhen (Binary64.isPositive newMem)
                      (spend + corp + salary)%float newMem)
  /\ Binary64.avgRevPerMember tot
     = Binary64.r2 (Binary64.ratioWhen (Binary64.isPositive members) rev members)
  /\ Binary64.mktgSpendToRev tot
     = Binary64.r2 (Binary64.ratioWhen (Binary64.isPositive rev) spend rev)
  /\ Binary64.corpMktgToRev tot
     = Binary64.r2 (Binary64.ratioWhen (Binary64.isPositive rev) (spend + corp)%float rev)
  /\ Binary64.allInSpendToRev tot
     = Binary64.r2 (Binary64.ratioWhen (Binary64.isPositive rev)
                      (spend + corp + salary)%float rev)
  /\ Binary64.costPerLead tot
     = Binary64.r2 (Binary64.ratioWhen (Binary64.isPositive leadCount) spend leadCount)
  /\ (Binary64.cac (Binary64.totals (Binary64.calculateKPIs twoLocations64))
      = Some 20%float
      /\ Binary64.cac (Binary64.locationKPIs twoLocations64 "ATL-UWS") = Some 100%float
      /\ Binary64.cac (Binary64.locationKPIs twoLocations64 "ATL-WSP")
         = Some (1111 / 100)%float
      /\ meanOfLocationCACs64 twoLocations64 = ((100 + 1111 / 100) / 2)%float
      /\ (55 <? meanOfLocationCACs64 twoLocations64)%float = true).
Proof.
  cbv zeta.
  pose proof (calculateKPIs64_sums inp) as H. cbv zeta in H.
  unfold Binary64.calculateKPIs. cbn [Binary64.totals].
  set (a := fold_left (Binary64.kpiStep inp) LOCATIONS Binary64.accum0) in *.
  clearbody a.
  destruct H as (H1 & H2 & H3 & H4 & H5 & H6 & H7 & _).
  unfold Binary64.totalsOf.
  cbn [Binary64.cac Binary64.corpCac Binary64.allInCac Binary64.avgRevPerMember
       Binary64.mktgSpendToRev Binary64.corpMktgToRev Binary64.allInSpendToRev
       Binary64.costPerLead].
  rewrite H1, H2, H3, H4, H5, H6, H7.
  split.
  { intros Hpos. rewrite Hpos. reflexivity. }
  repeat (split; [reflexivity|]).
  vm_compute. repeat split; reflexivity.
Qed.

(** The two-location case: 200 of spend over 10 new members. *)
Lemma aggregate_ratios_are_pooled_witness :
  Binary64.cac (Binary64.totals (Binary64.calculateKPIs twoLocations64))
  = Binary64.r2
      (Some (sumOver (Binary64.orZero (Binary64.mktgSpend twoLocations64)) LOCATIONS
             / sumOver (Binary64.countOrZero (Binary64.newMembers twoLocations64))
                 LOCATIONS)%float)
  /\ Binary64.r2
       (Some (sumOver (Binary64.orZero (Binary64.mktgSpend twoLocations64)) LOCATIONS
              / sumOver (Binary64.countOrZero (Binary64.newMembers twoLocations64))
                  LOCATIONS)%float)
     = Some 20%float.
Proof.
  split.
  - destruct (aggregate_ratios_are_pooled twoLocations64) as [Hcac _].
    apply Hcac. vm_compute. reflexivity.
  - vm_compute. reflexivity.
Defined.

(** ** What the engine reads and what it writes *)

Lemma fold_left_ext_in {A B : Type} (f g : A -> B -> A) (l : list B) (a : A) :
  (forall a x, x ∈ l -> f a x = g a x) -> fold_left f l a = fold_left g l a.
Proof.
  revert a. induction l as [|x l IH]; intros a H; [reflexivity|].
  cbn [fold_left]. rewrite (H a x) by left. apply IH.
  intros a' y Hy. apply H. now right.
Qed.

Section SameSpend.
Variables ms ms' : gmap string Q.
Hypothesis Hloc : forall loc, loc ∈ LOCATIONS -> orZero ms loc = orZero ms' loc.
Hypothesis Hcorp : orZero ms "Corp" = orZero ms' "Corp".

Lemma totalLocSpendOf_same : totalLocSpendOf ms = totalLocSpendOf ms'.
Proof.
  unfold totalLocSpendOf. apply fold_left_ext_in.
  intros a x Hx. now rewrite Hloc.
Qed.

Lemma locShare_same loc : loc ∈ LOCATIONS -> locShare ms loc = locShare ms' loc.
Proof.
  intros Hin. unfold locShare. now rewrite totalLocSpendOf_same, Hloc.
Qed.

Lemma allocations_same : allocations ms = allocations ms'.
Proof.
  unfold allocations. apply fold_left_ext_in.
  intros a x Hx. unfold allocationStep. now rewrite Hcorp, locShare_same.
Qed.

End SameSpend.

Lemma sameReadings_calculateKPIs (inp inp' : Inputs) :
  sameReadings inp inp' -> calculateKPIs inp = calculateKPIs inp'.
Proof.
  intros [Hloc Hcorp].
  assert (Halloc : allocations (mktgSpend inp) = allocations (mktgSpend inp')).
  { apply allocations_same; [|exact Hcorp]. intros loc Hin. now apply Hloc. }
  assert (Hrec : forall loc, loc ∈ LOCATIONS ->
            locationKPIs inp loc = locationKPIs inp' loc).
  { intros loc Hin. destruct (Hloc loc Hin) as (H1 & H2 & H3 & H4 & H5).
    unfold locationKPIs, corpAllocation, salaryAllocation.
    now rewrite Halloc, H1, H2, H3, H4, H5. }
  assert (Hstep : forall a loc, loc ∈ LOCATIONS -> kpiStep inp a loc = kpiStep inp' a loc).
  { intros a loc Hin. destruct (Hloc loc Hin) as (H1 & H2 & H3 & H4 & H5).
    unfold kpiStep, corpAllocation, salaryAllocation.
    now rewrite Halloc, H1, H2, H3, H4, H5, (Hrec loc Hin). }
  unfold calculateKPIs. now rewrite (fold_left_ext_in _ _ _ _ Hstep).
Qed.

Lemma orZero_insert_ne (m : gmap string Q) k v loc :
  k <> loc -> orZero (<[k := v]> m) loc = orZero m loc.
Proof. intros H. unfold orZero. now rewrite lookup_insert_ne. Qed.

Lemma countOrZero_insert_ne (m : gmap string N) k v loc :
  k <> loc -> countOrZero (<[k := v]> m) loc = countOrZero m loc.
Proof. intros H. unfold countOrZero. now rewrite lookup_insert_ne. Qed.

Lemma orZero_insert_absent (m : gmap string Q) k loc :
  m !! k = None -> orZero (<[k := 0%Q]> m) loc = orZero m loc.
Proof.
  intros H. unfold orZero. destruct (decide (k = loc)) as [-> | Hne].
  - now rewrite lookup_insert_eq, H.
  - now rewrite lookup_insert_ne.
Qed.

Lemma countOrZero_insert_absent (m : gmap string N) k loc :
  m !! k = None -> countOrZero (<[k := 0%N]> m) loc = countOrZero m loc.
Proof.
  intros H. unfold countOrZero. destruct (decide (k = loc)) as [-> | Hne].
  - now rewrite lookup_insert_eq, H.
  - now rewrite lookup_insert_ne.
Qed.

Lemma calculateKPIs_dom (inp : Inputs) :
  dom (KPIs.data (calculateKPIs inp)) = list_to_set LOCATIONS.
Proof.
  apply set_eq. intros loc.
  rewrite elem_of_dom, calculateKPIs_data, elem_of_list_to_set.
  destruct (decide (loc ∈ LOCATIONS)) as [Hin | Hnin].
  - rewrite bool_decide_eq_true_2 by assumption. split; eauto.
  - rewrite bool_decide_eq_false_2 by assumption.
    split; [intros [? ?]; discriminate | contradiction].
Qed.

Lemma allocations_split (ms : gmap string Q) (l : list string)
    (a b : gmap string Q) :
  fold_left (allocationStep ms) l (a, b)
  = (fold_left (fun alloc loc =>
                  <[loc := (orZero ms "Corp" * locShare ms loc)%Q]> alloc) l a,
     fold_left (fun alloc loc =>
                  <[loc := (SALARY_CONFIG.total * locShare ms loc)%Q]> alloc) l b).
Proof.
  revert a b. induction l as [|loc l IH]; intros a b; [reflexivity|].
  cbn [fold_left]. unfold allocationStep at 2. cbn [fst snd]. apply IH.
Qed.

(** The older variant allocates the same amounts: its payroll total is
    the [Corp] entry of its salary table, 72082 as well. *)
Lemma Legacy_allocations (ms : gmap string Q) :
  Legacy.corpAllocation ms = corpAllocation ms
  /\ Legacy.salaryAllocation ms = salaryAllocation ms.
Proof.
  unfold Legacy.corpAllocation, Legacy.salaryAllocation, corpAllocation,
    salaryAllocation, allocations.
  rewrite allocations_split. cbn [fst snd]. split; reflexivity.
Qed.

Lemma Legacy_sameReadings_calculateKPIs (inp inp' : Legacy.Inputs) :
  legacySameReadings inp inp' ->
  Legacy.calculateKPIs inp = Legacy.calculateKPIs inp'.
Proof.
  intros [Hloc Hcorp].
  assert (Halloc : allocations (Legacy.mktgSpend inp)
                   = allocations (Legacy.mktgSpend inp')).
  { apply allocations_same; [|exact Hcorp]. intros loc Hin. now apply Hloc. }
  assert (Hc : Legacy.corpAllocation (Legacy.mktgSpend inp)
               = Legacy.corpAllocation (Legacy.mktgSpend inp')).
  { destruct (Legacy_allocations (Legacy.mktgSpend inp)) as [-> _].
    destruct (Legacy_allocations (Legacy.mktgSpend inp')) as [-> _].
    unfold corpAllocation. now rewrite Halloc. }
  assert (Hs : Legacy.salaryAllocation (Legacy.mktgSpend inp)
               = Legacy.salaryAllocation (Legacy.mktgSpend inp')).
  { destruct (Legacy_allocations (Legacy.mktgSpend inp)) as [_ ->].
    destruct (Legacy_allocations (Legacy.mktgSpend inp')) as [_ ->].
    unfold salaryAllocation. now rewrite Halloc. }
  assert (Hrec : forall loc, loc ∈ LOCATIONS ->
            Legacy.locationKPIs inp loc = Legacy.locationKPIs inp' loc).
  { intros loc Hin. destruct (Hloc loc Hin) as (H1 & H2 & H3 & H4 & H5 & H6).
    unfold Legacy.locationKPIs. now rewrite Hc, Hs, H1, H2, H3, H4, H5, H6. }
  assert (Hstep : forall a loc, loc ∈ LOCATIONS ->
            Legacy.kpiStep inp a loc = Legacy.kpiStep inp' a loc).
  { intros a loc Hin. destruct (Hloc loc Hin) as (H1 & H2 & H3 & H4 & H5 & H6).
    unfold Legacy.kpiStep.
    now rewrite Hc, Hs, H1, H2, H3, H4, H5, H6, (Hrec loc Hin). }
  unfold Legacy.calculateKPIs. now rewrite (fold_left_ext_in _ _ _ _ Hstep).
Qed.

Lemma Legacy_kpiLoop_data (inp : Legacy.Inputs) (l : list string)
    (a : Legacy.Accum) (loc : string) :
  Legacy.acc_data (fold_left (Legacy.kpiStep inp) l a) !! loc
  = if bool_decide (loc ∈ l)
    then Some (Legacy.locationKPIs inp loc) else Legacy.acc_data a !! loc.
Proof.
  revert a. induction l as [|x l IH]; intros a; [reflexivity|].
  cbn [fold_left]. rewrite IH.
  destruct (decide (loc ∈ l)) as [Hin | Hnin].
  - rewrite !bool_decide_eq_true_2; auto. now right.
  - rewrite (bool_decide_eq_false_2 (loc ∈ l)) by auto.
    destruct (decide (x = loc)) as [-> | Hne].
    + rewrite bool_decide_eq_true_2 by left.
      unfold Legacy.kpiStep. cbn [Legacy.acc_data]. now rewrite lookup_insert_eq.
    + rewrite bool_decide_eq_false_2.
      * unfold Legacy.kpiStep. cbn [Legacy.acc_data].
        now rewrite lookup_insert_ne by auto.
      * intros H. apply elem_of_cons in H as [-> | H]; auto.
Qed.

Lemma Legacy_calculateKPIs_data (inp : Legacy.Inputs) (loc : string) :
  KPIs.data (Legacy.calculateKPIs inp) !! loc
  = if bool_decide (loc ∈ LOCATIONS)
    then Some (Legacy.locationKPIs inp loc) else None.
Proof.
  unfold Legacy.calculateKPIs. cbn [KPIs.data]. rewrite Legacy_kpiLoop_data.
  unfold Legacy.accum0. cbn [Legacy.acc_data]. now rewrite lookup_empty.
Qed.

Lemma Legacy_calculateKPIs_dom (inp : Legacy.Inputs) :
  dom (KPIs.data (Legacy.calculateKPIs inp)) = list_to_set LOCATIONS.
Proof.
  apply set_eq. intros loc.
  rewrite elem_of_dom, Legacy_calculateKPIs_data, elem_of_list_to_set.
  destruct (decide (loc ∈ LOCATIONS)) as [Hin | Hnin].
  - rewrite bool_decide_eq_true_2 by assumption. split; eauto.
  - rewrite bool_decide_eq_false_2 by assumption.
    split; [intros [? ?]; discriminate | contradiction].
Qed.

(** C10.  Whatever the five input maps hold, the per-location output has
    exactly the eleven enumerated location codes as keys, each with one
    record of the ten KPI fields ([KPIRecord]); the same holds for the
    older variant of the engine.  The output depends only on what the
    maps read, with [|| 0], at the enumerated locations and at [Corp] in
    the spend map: setting any other key changes nothing, and neither does
    setting an absent key to zero. *)
Theorem calculateKPIs_keys_and_frame
    (rev spend : gmap string Q) (lead newMem members : gmap string N) :
  let out := calculateKPIs (mkInputs rev spend lead newMem members) in
  dom (KPIs.data out) = list_to_set LOCATIONS
  /\ size (KPIs.data out) = 11%nat
  /\ (forall legacy, dom (KPIs.data (Legacy.calculateKPIs legacy))
                     = list_to_set LOCATIONS)
  /\ (forall legacy legacy', legacySameReadings legacy legacy' ->
        Legacy.calculateKPIs legacy' = Legacy.calculateKPIs legacy)
  /\ (forall inp', sameReadings (mkInputs rev spend lead newMem members) inp' ->
        calculateKPIs inp' = out)
  /\ (forall k (v : Q) (n : N), k ∉ LOCATIONS ->
        calculateKPIs (mkInputs (<[k := v]> rev) spend lead newMem members) = out
        /\ (k <> "Corp" ->
            calculateKPIs (mkInputs rev (<[k := v]> spend) lead newMem members) = out)
        /\ calculateKPIs (mkInputs rev spend (<[k := n]> lead) newMem members) = out
        /\ calculateKPIs (mkInputs rev spend lead (<[k := n]> newMem) members) = out
        /\ calculateKPIs (mkInputs rev spend lead newMem (<[k := n]> members)) = out)
  /\ (forall k,
        (rev !! k = None ->
         calculateKPIs (mkInputs (<[k := 0%Q]> rev) spend lead newMem members) = out)
        /\ (spend !! k = None ->
            calculateKPIs (mkInputs rev (<[k := 0%Q]> spend) lead newMem members) = out)
        /\ (lead !! k = None ->
            calculateKPIs (mkInputs rev spend (<[k := 0%N]> lead) newMem members) = out)
        /\ (newMem !! k = None ->
            calculateKPIs (mkInputs rev spend lead (<[k := 0%N]> newMem) members) = out)
        /\ (members !! k = None ->
            calculateKPIs (mkInputs rev spend lead newMem (<[k := 0%N]> members)) = out)).
Proof.
  intros out.
  assert (Hdom : dom (KPIs.data out) = list_to_set LOCATIONS)
    by apply calculateKPIs_dom.
  split; [exact Hdom|]. split.
  { rewrite <- size_dom, Hdom.
    rewrite size_list_to_set by apply LOCATIONS_NoDup. reflexivity. }
  split; [apply Legacy_calculateKPIs_dom|].
  split.
  { intros legacy legacy' H. symmetry. now apply Legacy_sameReadings_calculateKPIs. }
  split.
  { intros inp' H. symmetry. now apply sameReadings_calculateKPIs. }
  assert (Hne : forall k loc, k ∉ LOCATIONS -> loc ∈ LOCATIONS -> k <> loc)
    by (intros k loc Hk Hl ->; contradiction).
  assert (Hcorp : "Corp" ∉ LOCATIONS).
  { apply (bool_decide_unpack _). vm_compute. exact I. }
  assert (Hsame : forall inp',
            (forall loc, loc ∈ LOCATIONS ->
               orZero (revenue inp') loc = orZero rev loc
               /\ orZero (mktgSpend inp') loc = orZero spend loc
               /\ countOrZero (leads inp') loc = countOrZero lead loc
               /\ countOrZero (newMembers inp') loc = countOrZero newMem loc
               /\ countOrZero (memberCounts inp') loc = countOrZero members loc) ->
            orZero (mktgSpend inp') "Corp" = orZero spend "Corp" ->
            calculateKPIs inp' = out).
  { intros inp' Hloc Hc. apply sameReadings_calculateKPIs. split; assumption. }
  split.
  - intros k v n Hk.
    split; [|split; [|split; [|split]]]; try intros Hkc; apply Hsame;
      cbn [revenue mktgSpend leads newMembers memberCounts];
      try (intros loc Hin;
           rewrite ?orZero_insert_ne, ?countOrZero_insert_ne by eauto; tauto);
      rewrite ?orZero_insert_ne by auto; reflexivity.
  - intros k.
    split; [|split; [|split; [|split]]]; intros Habs; apply Hsame;
      cbn [revenue mktgSpend leads newMembers memberCounts];
      try (intros loc Hin;
           rewrite ?orZero_insert_absent, ?countOrZero_insert_absent by assumption;
           tauto);
      rewrite ?orZero_insert_absent by assumption; reflexivity.
Qed.

(** An unknown location code in the revenue map, and an explicit zero
    for a location that was absent from the spend map. *)
Lemma calculateKPIs_keys_and_frame_witness :
  let rev : gmap string Q := objectOf [("ATL-UWS", 1000%Q)] in
  let spend : gmap string Q := objectOf [("ATL-UWS", 100%Q); ("Corp", 50%Q)] in
  calculateKPIs (mkInputs (<["NYC-BK" := 777%Q]> rev) spend ∅ ∅ ∅)
  = calculateKPIs (mkInputs rev spend ∅ ∅ ∅)
  /\ calculateKPIs (mkInputs rev (<["DAL-FB" := 0%Q]> spend) ∅ ∅ ∅)
     = calculateKPIs (mkInputs rev spend ∅ ∅ ∅).
Proof.
  intros rev spend.
  destruct (calculateKPIs_keys_and_frame rev spend ∅ ∅ ∅)
    as (_ & _ & _ & _ & _ & Hout & Habs).
  assert (Hk : "NYC-BK" ∉ LOCATIONS)
    by (apply (bool_decide_unpack _); vm_compute; exact I).
  destruct (Hout "NYC-BK" 777%Q 0%N Hk) as [Hrev _].
  destruct (Habs "DAL-FB") as (_ & Hspend & _).
  split; [exact Hrev|].
  exact (Hspend eq_refl).
Defined.

(* ===================================================================== *)
(** * Member counts *)
(* ===================================================================== *)

(** The loop keeps the last listed month that is at most [monthKey],
    and its starting value when there is none. *)
Lemma closestLoop_spec (monthKey : string) (knownMonths : list string)
    (closest : option string) :
  closestLoop monthKey knownMonths closest
  = match last (filter (fun km => String.leb km monthKey = true) knownMonths) with
    | Some km => Some km
    | None => closest
    end.
Proof.
  unfold closestLoop. revert closest.
  induction knownMonths as [|km l IH]; intros closest; [reflexivity|].
  cbn [fold_left]. rewrite IH. rewrite filter_cons.
  destruct (decide (String.leb km monthKey = true)) as [Hle | Hnle].
  - rewrite Hle, last_cons.
    destruct (last (filter (fun km => String.leb km monthKey = true) l)); reflexivity.
  - apply not_true_is_false in Hnle. rewrite Hnle. reflexivity.
Qed.

Lemma knownMonths_sorted :
  sortKeys (map fst KNOWN_MEMBER_COUNTS) = ["2025-12"; "2026-01"; "2026-03"].
Proof. reflexivity. Qed.

(** An exact match is returned as it is. *)
Lemma getMemberCounts_exact (monthKey : string) (counts : gmap string N) :
  entryOf KNOWN_MEMBER_COUNTS monthKey = Some counts ->
  getMemberCounts monthKey = counts.
Proof. intros H. unfold getMemberCounts, getMemberCountsIn. now rewrite H. Qed.

(** Without an exact match, the counts are those of the latest known
    month that is at most [monthKey], when there is one. *)
Lemma getMemberCounts_latest_before (monthKey km : string) :
  entryOf KNOWN_MEMBER_COUNTS monthKey = None ->
  last (filter (fun km => String.leb km monthKey = true)
          (sortKeys (map fst KNOWN_MEMBER_COUNTS))) = Some km ->
  getMemberCounts monthKey = default ∅ (entryOf KNOWN_MEMBER_COUNTS km).
Proof.
  intros Hno Hlast. unfold getMemberCounts, getMemberCountsIn, closestKnownMonth.
  now rewrite Hno, closestLoop_spec, Hlast.
Qed.

(** Without an exact match and with every known month after
    [monthKey], the counts are those of the latest known month. *)
Lemma getMemberCounts_none_before (monthKey : string) :
  entryOf KNOWN_MEMBER_COUNTS monthKey = None ->
  filter (fun km => String.leb km monthKey = true)
    (sortKeys (map fst KNOWN_MEMBER_COUNTS)) = [] ->
  getMemberCounts monthKey = default ∅ (entryOf KNOWN_MEMBER_COUNTS "2026-03").
Proof.
  intros Hno Hnone. unfold getMemberCounts, getMemberCountsIn, closestKnownMonth.
  rewrite Hno, closestLoop_spec, Hnone. reflexivity.
Qed.

(** C5, at the month where the code departs from it.  November 2025 is
    before every known month: it is not in the table and no known month
    is at most it.  [getMemberCounts] answers with the counts of March
    2026, the latest known month, and not with those of December 2025,
    the earliest known month and the closest one; the two differ (106
    members against 96 at DAL-FB). *)
Theorem getMemberCounts_before_all_known :
  entryOf KNOWN_MEMBER_COUNTS "2025-11" = None
  /\ filter (fun km => String.leb km "2025-11" = true)
       (sortKeys (map fst KNOWN_MEMBER_COUNTS)) = []
  /\ hd_error (sortKeys (map fst KNOWN_MEMBER_COUNTS)) = Some "2025-12"
  /\ Some (getMemberCounts "2025-11") = entryOf KNOWN_MEMBER_COUNTS "2026-03"
  /\ Some (getMemberCounts "2025-11") <> entryOf KNOWN_MEMBER_COUNTS "2025-12"
  /\ getMemberCounts "2025-11" !! "DAL-FB" = Some 106%N
  /\ getMemberCounts "2025-12" !! "DAL-FB" = Some 96%N.
Proof.
  assert (H : Some (getMemberCounts "2025-11") = entryOf KNOWN_MEMBER_COUNTS "2026-03").
  { rewrite getMemberCounts_none_before by reflexivity. reflexivity. }
  assert (H106 : getMemberCounts "2025-11" !! "DAL-FB" = Some 106%N)
    by (vm_compute; reflexivity).
  repeat split; try reflexivity; try assumption.
  intros Heq.
  apply (f_equal (fun o : option (gmap string N) =>
                    match o with Some m => m !! "DAL-FB" | None => None end)) in Heq.
  vm_compute in Heq. discriminate.
Qed.

(* ===================================================================== *)
(** * The refresh loop *)
(* ===================================================================== *)

Section Loop.
Variable existing : Dataset.t.
Variable src : Adapters.
Variable months : list MonthWindow.

Lemma mainStep_log i month result log :
  snd (mainStep existing src months i month (result, log))
  = log ++ [reportOf existing src months i month].
Proof.
  unfold mainStep, reportOf.
  destruct (useCached existing months i month); [reflexivity|].
  destruct (pullMonth src month); [reflexivity|].
  destruct (bool_decide _); reflexivity.
Qed.

Lemma mainLoop_log i rest st :
  snd (mainLoop existing src months i rest st)
  = snd st ++ reportsFrom existing src months i rest.
Proof.
  revert i st. induction rest as [|month rest IH]; intros i [result log].
  - cbn. now rewrite app_nil_r.
  - cbn [mainLoop reportsFrom]. rewrite IH.
    destruct (mainStep existing src months i month (result, log)) as [r' l'] eqn:E.
    pose proof (mainStep_log i month result log) as Hl. rewrite E in Hl.
    cbn [snd] in *. subst l'. now rewrite <- app_assoc.
Qed.

Lemma reportsFrom_lookup i rest j month :
  rest !! j = Some month ->
  reportsFrom existing src months i rest !! j
  = Some (reportOf existing src months (i + j) month).
Proof.
  revert i j. induction rest as [|m rest IH]; intros i j H; [discriminate|].
  destruct j as [|j].
  - injection H as ->. cbn [reportsFrom]. rewrite Nat.add_0_r. reflexivity.
  - cbn [reportsFrom]. rewrite lookup_cons. rewrite (IH (S i) j) by exact H.
    do 2 f_equal. lia.
Qed.

Lemma reportsFrom_length i rest :
  length (reportsFrom existing src months i rest) = length rest.
Proof. revert i. induction rest; intros i; cbn; auto. Qed.

(** A step writes at the key of its month only, and leaves the list
    of months alone. *)
Lemma mainStep_other i month st k :
  k <> key month ->
  Dataset.data (fst (mainStep existing src months i month st)) !! k
  = Dataset.data (fst st) !! k
  /\ Dataset.totals (fst (mainStep existing src months i month st)) !! k
     = Dataset.totals (fst st) !! k.
Proof.
  intros Hk. destruct st as [result log]. unfold mainStep.
  assert (Hcopy : Dataset.data (copyFromExisting existing (key month) result) !! k
                  = Dataset.data result !! k
                  /\ Dataset.totals (copyFromExisting existing (key month) result) !! k
                     = Dataset.totals result !! k).
  { unfold copyFromExisting, assign. cbn [Dataset.data Dataset.totals].
    destruct (Dataset.data existing !! key month),
             (Dataset.totals existing !! key month);
      rewrite ?lookup_insert_ne, ?lookup_delete_ne by auto; auto. }
  destruct (useCached existing months i month); [exact Hcopy|].
  destruct (pullMonth src month).
  - unfold storeKPIs. cbn [fst Dataset.data Dataset.totals].
    rewrite !lookup_insert_ne by auto. auto.
  - destruct (bool_decide _); [exact Hcopy | auto].
Qed.

Lemma mainStep_months i month st :
  Dataset.months (fst (mainStep existing src months i month st))
  = Dataset.months (fst st).
Proof.
  destruct st as [result log]. unfold mainStep.
  destruct (useCached existing months i month); [reflexivity|].
  destruct (pullMonth src month); [reflexivity|].
  destruct (bool_decide _); reflexivity.
Qed.

Lemma mainLoop_other i rest st k :
  k ∉ map key rest ->
  Dataset.data (fst (mainLoop existing src months i rest st)) !! k
  = Dataset.data (fst st) !! k
  /\ Dataset.totals (fst (mainLoop existing src months i rest st)) !! k
     = Dataset.totals (fst st) !! k.
Proof.
  revert i st. induction rest as [|month rest IH]; intros i st Hk; [auto|].
  cbn [mainLoop]. cbn [map] in Hk. apply not_elem_of_cons in Hk as [Hne Hk].
  destruct (IH (S i) (mainStep existing src months i month st) Hk) as [H1 H2].
  destruct (mainStep_other i month st k Hne) as [H3 H4].
  split; congruence.
Qed.

Lemma mainLoop_months i rest st :
  Dataset.months (fst (mainLoop existing src months i rest st))
  = Dataset.months (fst st).
Proof.
  revert i st. induction rest as [|month rest IH]; intros i st; [reflexivity|].
  cbn [mainLoop]. now rewrite IH, mainStep_months.
Qed.

Lemma mainLoop_app i l1 l2 st :
  mainLoop existing src months i (l1 ++ l2) st
  = mainLoop existing src months (i + length l1) l2
      (mainLoop existing src months i l1 st).
Proof.
  revert i st. induction l1 as [|m l1 IH]; intros i st.
  - cbn. now rewrite Nat.add_0_r.
  - cbn [mainLoop app length]. rewrite IH. f_equal. lia.
Qed.

Lemma assign_lookup {V : Type} (k : string) (v : option V) (obj : gmap string V) :
  assign k v obj !! k = v.
Proof.
  unfold assign. destruct v; [apply lookup_insert_eq | apply lookup_delete_eq].
Qed.

Lemma mainStep_own i month st :
  Dataset.data (fst (mainStep existing src months i month st)) !! key month
  = dataAfter existing src months i month (Dataset.data (fst st) !! key month)
  /\ Dataset.totals (fst (mainStep existing src months i month st)) !! key month
     = totalsAfter existing src months i month
         (Dataset.totals (fst st) !! key month).
Proof.
  destruct st as [result log]. unfold mainStep, dataAfter, totalsAfter.
  destruct (useCached existing months i month).
  { unfold copyFromExisting. cbn [fst Dataset.data Dataset.totals].
    now rewrite !assign_lookup. }
  destruct (pullMonth src month).
  { unfold storeKPIs. cbn [fst Dataset.data Dataset.totals].
    now rewrite !lookup_insert_eq. }
  destruct (bool_decide _); [|auto].
  unfold copyFromExisting. cbn [fst Dataset.data Dataset.totals].
  now rewrite !assign_lookup.
Qed.

End Loop.

Lemma isRecent_spec (months : list MonthWindow) (i : nat) :
  (i < length months)%nat ->
  isRecent months i = true <-> (length months <= i + 2)%nat.
Proof.
  intros Hi. unfold isRecent. rewrite orb_true_iff, !Z.eqb_eq. lia.
Qed.

Lemma run_log stamp existing src months :
  snd (run stamp existing src months) = reportsFrom existing src months 0 months.
Proof. unfold run. now rewrite mainLoop_log. Qed.

Lemma mainLoop_lookup existing src months pre month post st :
  key month ∉ map key pre ->
  key month ∉ map key post ->
  Dataset.data (fst (mainLoop existing src months 0 (pre ++ month :: post) st))
    !! key month
  = dataAfter existing src months (length pre) month
      (Dataset.data (fst st) !! key month)
  /\ Dataset.totals (fst (mainLoop existing src months 0 (pre ++ month :: post) st))
       !! key month
     = totalsAfter existing src months (length pre) month
         (Dataset.totals (fst st) !! key month).
Proof.
  intros Hpre Hpost.
  rewrite mainLoop_app. cbn [Nat.add mainLoop].
  set (st1 := mainLoop existing src months 0 pre st).
  destruct (mainLoop_other existing src months (S (length pre)) post
              (mainStep existing src months (length pre) month st1)
              (key month) Hpost) as [H1 H2].
  destruct (mainStep_own existing src months (length pre) month st1) as [H3 H4].
  destruct (mainLoop_other existing src months 0 pre st (key month) Hpre)
    as [H5 H6].
  fold st1 in H5, H6.
  rewrite H1, H2, H3, H4, H5, H6. auto.
Qed.

(** With distinct window keys, the entry of a month in the written
    dataset is what the step of that month left there. *)
Lemma run_lookup stamp existing src months i month :
  NoDup (map key months) ->
  months !! i = Some month ->
  Dataset.data (fst (run stamp existing src months)) !! key month
  = dataAfter existing src months i month None
  /\ Dataset.totals (fst (run stamp existing src months)) !! key month
     = totalsAfter existing src months i month None.
Proof.
  intros Hnd Hi.
  assert (Hlt : (i < length months)%nat) by (eapply lookup_lt_Some; eauto).
  pose proof (take_drop_middle months i month Hi) as Hsplit.
  rewrite <- Hsplit in Hnd. rewrite map_app in Hnd. cbn [map] in Hnd.
  apply NoDup_app in Hnd as (_ & Hpre & Hrest).
  apply NoDup_cons in Hrest as [Hpost _].
  assert (Hpre' : key month ∉ map key (take i months)).
  { intros Hin. apply (Hpre _ Hin). left. }
  unfold run.
  set (st0 := (Dataset.mk (Some stamp) (map key months) LOCATIONS ∅ ∅, @nil Report)).
  replace (mainLoop existing src months 0 months st0)
    with (mainLoop existing src months 0
            (take i months ++ month :: drop (S i) months) st0)
    by (now rewrite Hsplit).
  destruct (mainLoop_lookup existing src months (take i months) month
              (drop (S i) months) st0 Hpre' Hpost) as [H1 H2].
  rewrite length_take, Nat.min_l in H1, H2 by lia.
  rewrite H1, H2. unfold st0. cbn [fst Dataset.data Dataset.totals].
  now rewrite !lookup_empty.
Qed.

Lemma reportOf_REUSE existing src months i month :
  decisionOf (reportOf existing src months i month) = REUSE ->
  useCached existing months i month = true.
Proof.
  unfold reportOf. destruct (useCached existing months i month); [reflexivity|].
  destruct (pullMonth src month); [discriminate|].
  destruct (bool_decide _); discriminate.
Qed.


Lemma fourWindows_keys :
  map key fourWindows = ["2023-11"; "2023-12"; "2024-01"; "2024-02"].
Proof. vm_compute. reflexivity. Qed.


(** C6.  In a run over windows with distinct keys, take a window that
    is recomputed and whose pull throws.  If the baseline has a record
    for its key, the written dataset holds the baseline's per-location
    data and the baseline's totals for that key; if the baseline has
    none, the key is in neither the data map nor the totals map of the
    written dataset.  The run goes on: there is one report per window,
    and every window that is pulled without an error, before or after the
    failed one, has its fresh records in the written dataset. *)
Theorem failed_month_falls_back_or_is_omitted stamp (existing : Dataset.t)
    (src : Adapters) (months : list MonthWindow) (i : nat) (month : MonthWindow)
    (message : string) :
  NoDup (map key months) ->
  months !! i = Some month ->
  useCached existing months i month = false ->
  pullMonth src month = Thrown message ->
  let result := fst (run stamp existing src months) in
  let log := snd (run stamp existing src months) in
  (is_Some (Dataset.data existing !! key month) ->
   Dataset.data result !! key month = Dataset.data existing !! key month
   /\ Dataset.totals result !! key month = Dataset.totals existing !! key month
   /\ log !! i = Some (FallingBackToCachedData (key month) message))
  /\ (Dataset.data existing !! key month = None ->
      Dataset.data result !! key month = None
      /\ Dataset.totals result !! key month = None
      /\ log !! i = Some (Skipping (key month) message))
  /\ length log = length months
  /\ (forall j month' kpis,
        months !! j = Some month' ->
        useCached existing months j month' = false ->
        pullMonth src month' = Returned kpis ->
        Dataset.data result !! key month' = Some (KPIs.data kpis)
        /\ Dataset.totals result !! key month' = Some (KPIs.totals kpis)
        /\ log !! j = Some (Pulled (key month'))).
Proof.
  intros Hnd Hi Hcached Hthrown result log.
  destruct (run_lookup stamp existing src months i month Hnd Hi) as [Hd Ht].
  fold result in Hd, Ht.
  unfold dataAfter in Hd. unfold totalsAfter in Ht.
  rewrite Hcached, Hthrown in Hd, Ht.
  assert (Hlog : log !! i = Some (reportOf existing src months i month)).
  { unfold log. rewrite run_log.
    now rewrite (reportsFrom_lookup _ _ _ 0 months i month Hi). }
  unfold reportOf in Hlog. rewrite Hcached, Hthrown in Hlog.
  split; [|split; [|split]].
  - intros Hs. rewrite bool_decide_eq_true_2 in Hd, Ht, Hlog by exact Hs. auto.
  - intros Hnone.
    assert (Hn : ~ is_Some (Dataset.data existing !! key month)).
    { rewrite Hnone. intros [? ?]; discriminate. }
    rewrite bool_decide_eq_false_2 in Hd, Ht, Hlog by exact Hn. auto.
  - unfold log. rewrite run_log. apply reportsFrom_length.
  - intros j month' kpis Hj Hc Hp.
    destruct (run_lookup stamp existing src months j month' Hnd Hj) as [Hd' Ht'].
    fold result in Hd', Ht'.
    unfold dataAfter in Hd'. unfold totalsAfter in Ht'.
    rewrite Hc, Hp in Hd', Ht'.
    split; [exact Hd'|]. split; [exact Ht'|].
    unfold log. rewrite run_log.
    rewrite (reportsFrom_lookup _ _ _ 0 months j month' Hj). cbn [Nat.add].
    unfold reportOf. now rewrite Hc, Hp.
Qed.

(** With the ledger down, January 2024 (recent, in the baseline) falls
    back to the baseline's records and February 2024 (not in the
    baseline) is left out. *)
Lemma failed_month_falls_back_or_is_omitted_witness :
  let result := fst (run sampleStamp sampleBaseline ledgerDown fourWindows) in
  (Dataset.data result !! "2024-01" = Dataset.data sampleBaseline !! "2024-01"
   /\ Dataset.totals result !! "2024-01" = Some staleRecord)
  /\ (Dataset.data result !! "2024-02" = None
      /\ Dataset.totals result !! "2024-02" = None).
Proof.
  intros result.
  assert (Hnd : NoDup (map key fourWindows)).
  { rewrite fourWindows_keys. apply (bool_decide_unpack _). vm_compute. exact I. }
  split.
  - destruct (failed_month_falls_back_or_is_omitted sampleStamp sampleBaseline ledgerDown
                fourWindows 2 (mkWindow "2024-01" "2024-01-01" "2024-01-31")
                "NetSuite API 500: unavailable" Hnd)
      as (Hfall & _); try (vm_compute; reflexivity).
    destruct Hfall as (Hd & Ht & _); [vm_compute; eexists; reflexivity|].
    split; [exact Hd|].
    etransitivity; [exact Ht | vm_compute; reflexivity].
  - destruct (failed_month_falls_back_or_is_omitted sampleStamp sampleBaseline ledgerDown
                fourWindows 3 (mkWindow "2024-02" "2024-02-01" "2024-02-29")
                "NetSuite API 500: unavailable" Hnd)
      as (_ & Hskip & _); try (vm_compute; reflexivity).
    destruct Hskip as (Hd & Ht & _); [vm_compute; reflexivity|].
    split; [exact Hd | exact Ht].
Defined.

(** C9.  Every month key of the written dataset, in its data map, its
    totals map or its list of months, is the key of one of the windows of
    the run.  A month that the baseline holds but that is outside the
    windows of the run is in neither map of the written dataset: the
    dataset is built from empty maps and the baseline is only read at
    the keys of the windows. *)
Theorem output_keys_are_window_keys stamp (existing : Dataset.t) (src : Adapters)
    (months : list MonthWindow) (k : string) :
  let result := fst (run stamp existing src months) in
  Dataset.months result = map key months
  /\ (k ∈ dom (Dataset.data result) -> k ∈ map key months)
  /\ (k ∈ dom (Dataset.totals result) -> k ∈ map key months)
  /\ (k ∉ map key months ->
      Dataset.data result !! k = None /\ Dataset.totals result !! k = None).
Proof.
  intros result.
  assert (Hout : k ∉ map key months ->
            Dataset.data result !! k = None /\ Dataset.totals result !! k = None).
  { intros Hk. unfold result, run.
    destruct (mainLoop_other existing src months 0 months
                (Dataset.mk (Some stamp) (map key months) LOCATIONS ∅ ∅, []) k Hk)
      as [H1 H2].
    rewrite H1, H2. cbn [fst Dataset.data Dataset.totals].
    now rewrite !lookup_empty. }
  split; [|split; [|split]].
  - unfold result, run. now rewrite mainLoop_months.
  - intros Hin. destruct (decide (k ∈ map key months)) as [|Hk]; [assumption|].
    apply elem_of_dom in Hin. destruct (Hout Hk) as [H1 _].
    rewrite H1 in Hin. destruct Hin; discriminate.
  - intros Hin. destruct (decide (k ∈ map key months)) as [|Hk]; [assumption|].
    apply elem_of_dom in Hin. destruct (Hout Hk) as [_ H2].
    rewrite H2 in Hin. destruct Hin; discriminate.
  - exact Hout.
Qed.

(** October 2023 is in the baseline and before the four windows of the
    run: it is not in the written dataset. *)
Lemma output_keys_are_window_keys_witness :
  is_Some (Dataset.data sampleBaseline !! "2023-10")
  /\ Dataset.data (fst (run sampleStamp sampleBaseline quietSources fourWindows)) !! "2023-10"
     = None
  /\ Dataset.totals (fst (run sampleStamp sampleBaseline quietSources fourWindows)) !! "2023-10"
     = None.
Proof.
  split; [vm_compute; eexists; reflexivity|].
  destruct (output_keys_are_window_keys sampleStamp sampleBaseline quietSources fourWindows
              "2023-10") as (_ & _ & _ & Hout).
  apply Hout. rewrite fourWindows_keys.
  apply (bool_decide_unpack _). vm_compute. exact I.
Defined.

(* ===================================================================== *)
(** * The aggregate tenure *)
(* ===================================================================== *)

Lemma Legacy64_kpiLoop_duration (inp : Binary64.Legacy.Inputs) (l : list string)
    (a : Binary64.Legacy.Accum) :
  let b := fold_left (Binary64.Legacy.kpiStep inp) l a in
  Binary64.Legacy.durationSum b
  = fold_left (fun s loc => s + legacyTenure64 inp loc * legacyMembers64 inp loc)%float
      (List.filter (tenured inp) l) (Binary64.Legacy.durationSum a)
  /\ Binary64.Legacy.durationCount b
     = fold_left (fun s loc => s + legacyMembers64 inp loc)%float
         (List.filter (tenured inp) l) (Binary64.Legacy.durationCount a).
Proof.
  revert a. induction l as [|x l IH]; intros a; cbv zeta.
  - cbn. split; reflexivity.
  - cbn [fold_left]. specialize (IH (Binary64.Legacy.kpiStep inp a x)). cbv zeta in IH.
    destruct IH as (H1 & H2). rewrite H1, H2.
    cbn [List.filter]. unfold Binary64.Legacy.kpiStep.
    cbn [Binary64.Legacy.durationSum Binary64.Legacy.durationCount].
    fold (legacyTenure64 inp x). fold (legacyMembers64 inp x). fold (tenured inp x).
    destruct (tenured inp x); split; reflexivity.
Qed.

Lemma tenure64_positive loc :
  loc ∈ LOCATIONS -> Binary64.isPositive (tenure64 loc) = true.
Proof.
  unfold LOCATIONS. rewrite !elem_of_cons, elem_of_nil.
  intros H. repeat destruct H as [-> | H]; try contradiction;
    vm_compute; reflexivity.
Qed.

Lemma Legacy64_aggregate_tenure (inp : Binary64.Legacy.Inputs) :
  let members := sumOver (legacyMembers64 inp) (List.filter (tenured inp) LOCATIONS) in
  let weighted :=
    sumOver (fun loc => legacyTenure64 inp loc * legacyMembers64 inp loc)%float
      (List.filter (tenured inp) LOCATIONS) in
  Binary64.avgMemberDuration (Binary64.totals (Binary64.Legacy.calculateKPIs inp))
  = Binary64.Legacy.r2 (Binary64.ratioWhen (Binary64.isPositive members) weighted members).
Proof.
  cbv zeta. unfold Binary64.Legacy.calculateKPIs. cbn [Binary64.totals].
  pose proof (Legacy64_kpiLoop_duration inp LOCATIONS Binary64.Legacy.accum0) as H.
  cbv zeta in H.
  set (a := fold_left (Binary64.Legacy.kpiStep inp) LOCATIONS Binary64.Legacy.accum0) in *.
  clearbody a. destruct H as [H1 H2].
  unfold Binary64.Legacy.totalsOf. cbn [Binary64.avgMemberDuration].
  now rewrite H1, H2.
Qed.

(** On the older variant the mean is not over all the enumerated
    locations: the location with the negative average is left out of both
    sums, so the aggregate is 12, while the mean over all the enumerated
    locations is (-1 * 10 + 12 * 10) / 20 = 5.5.  The two numbers are the
    same on exact rationals and on doubles. *)
Lemma legacy_tenure_not_over_all_locations :
  avgMemberDuration (KPIs.totals (Legacy.calculateKPIs futureStartInputs))
  = Some (1200 / 100)%Q
  /\ legacyMeanOverAllLocations futureStartInputs = Some (550 / 100)%Q
  /\ avgMemberDuration (KPIs.totals (Legacy.calculateKPIs futureStartInputs))
     <> legacyMeanOverAllLocations futureStartInputs
  /\ Binary64.avgMemberDuration
       (Binary64.totals (Binary64.Legacy.calculateKPIs futureStart64))
     = Some 12%float
  /\ legacyMeanOverAllLocations64 futureStart64 = Some 5.5%float
  /\ (12 =? 5.5)%float = false.
Proof.
  assert (H1 : avgMemberDuration
                 (KPIs.totals (Legacy.calculateKPIs futureStartInputs))
               = Some (1200 / 100)%Q) by (vm_compute; reflexivity).
  assert (H2 : legacyMeanOverAllLocations futureStartInputs = Some (550 / 100)%Q)
    by (vm_compute; reflexivity).
  split; [exact H1|]. split; [exact H2|].
  split; [rewrite H1, H2; intros H; vm_compute in H; discriminate|].
  split; [vm_compute; reflexivity|].
  split; vm_compute; reflexivity.
Qed.

(** C7, as the code has it.  The aggregate average member duration is
    the member-count weighted mean of the per-location tenures: the sum
    of tenure times members divided by the sum of the members, rounded to
    two decimals by [r2], all on the doubles of the script, and [null]
    when the summed members are not positive.  In [scripts/pull-data.js]
    the tenures are the configured table, positive at every enumerated
    location: the members are summed over all eleven locations and the
    products over those that have members.  In the older variant the
    tenures come with the member data, and a location whose tenure is
    zero, negative or missing is left out of both sums: ten members each
    at tenures of -1 and 12 months give 12, not 5.5. *)
Theorem aggregate_tenure_is_weighted_mean (inp : Binary64.Inputs)
    (legacy : Binary64.Legacy.Inputs) :
  let tot := Binary64.totals (Binary64.calculateKPIs inp) in
  let members := sumOver (members64 inp) LOCATIONS in
  let weighted :=
    sumOver (fun loc => tenure64 loc * members64 inp loc)%float
      (List.filter (fun loc => Binary64.isPositive (members64 inp loc)) LOCATIONS) in
  let tot' := Binary64.totals (Binary64.Legacy.calculateKPIs legacy) in
  let members' :=
    sumOver (legacyMembers64 legacy) (List.filter (tenured legacy) LOCATIONS) in
  let weighted' :=
    sumOver (fun loc => legacyTenure64 legacy loc * legacyMembers64 legacy loc)%float
      (List.filter (tenured legacy) LOCATIONS) in
  (forall loc, loc ∈ LOCATIONS -> Binary64.isPositive (tenure64 loc) = true)
  /\ (Binary64.isPositive members = true ->
      Binary64.avgMemberDuration tot = Binary64.r2 (Some (weighted / members)%float))
  /\ (Binary64.isPositive members = false -> Binary64.avgMemberDuration tot = None)
  /\ (Binary64.isPositive members' = true ->
      Binary64.avgMemberDuration tot'
      = Binary64.Legacy.r2 (Some (weighted' / members')%float))
  /\ (Binary64.isPositive members' = false -> Binary64.avgMemberDuration tot' = None)
  /\ Binary64.avgMemberDuration
       (Binary64.totals (Binary64.Legacy.calculateKPIs futureStart64)) = Some 12%float.
Proof.
  cbv zeta. split; [exact tenure64_positive|].
  pose proof (Legacy64_aggregate_tenure legacy) as HL. cbv zeta in HL. rewrite HL.
  pose proof (calculateKPIs64_sums inp) as H. cbv zeta in H.
  unfold Binary64.calculateKPIs. cbn [Binary64.totals].
  set (a := fold_left (Binary64.kpiStep inp) LOCATIONS Binary64.accum0) in *.
  clearbody a.
  destruct H as (_ & _ & _ & _ & H5 & _ & _ & H8).
  unfold Binary64.totalsOf. cbn [Binary64.avgMemberDuration]. rewrite H5, H8.
  assert (Hfilter : List.filter (weighs inp) LOCATIONS
                    = List.filter (fun loc => Binary64.isPositive (members64 inp loc))
                        LOCATIONS).
  { apply List.filter_ext_in. intros loc Hin. unfold weighs.
    rewrite tenure64_positive; [reflexivity|]. now apply list_elem_of_In. }
  rewrite Hfilter.
  split; [|split; [|split; [|split]]].
  - intros Hpos. now rewrite Hpos.
  - intros Hnot. now rewrite Hnot.
  - intros Hpos. now rewrite Hpos.
  - intros Hnot. now rewrite Hnot.
  - vm_compute. reflexivity.
Qed.

(** The member counts of March 2026 give 13.94 months; 3 members at a
    tenure of 16 months and 9 at 12.1 give 13.07, the doubles making
    156.89999999999998 of the weighted sum; no members give [null]; and
    in the older variant the location with the negative average is left
    out, which gives 12 months. *)
Lemma aggregate_tenure_is_weighted_mean_witness :
  Binary64.avgMemberDuration
    (Binary64.totals
       (Binary64.calculateKPIs
          (Binary64.mkInputs ∅ ∅ ∅ ∅ (getMemberCounts "2026-03"))))
  = Some (1394 / 100)%float
  /\ Binary64.avgMemberDuration (Binary64.totals (Binary64.calculateKPIs threeAndNine))
     = Some (1307 / 100)%float
  /\ Binary64.avgMemberDuration
       (Binary64.totals (Binary64.calculateKPIs (Binary64.mkInputs ∅ ∅ ∅ ∅ ∅))) = None
  /\ Binary64.avgMemberDuration
       (Binary64.totals (Binary64.Legacy.calculateKPIs futureStart64))
     = Some 12%float
  /\ Binary64.avgMemberDuration
       (Binary64.totals
          (Binary64.Legacy.calculateKPIs
             (Binary64.Legacy.mkInputs ∅ ∅ ∅ (Binary64.Legacy.mkMemberData ∅ ∅ ∅))))
     = None.
Proof.
  split; [|split; [|split; [|split]]].
  - destruct (aggregate_tenure_is_weighted_mean
                (Binary64.mkInputs ∅ ∅ ∅ ∅ (getMemberCounts "2026-03")) futureStart64)
      as (_ & H & _).
    rewrite H; vm_compute; reflexivity.
  - destruct (aggregate_tenure_is_weighted_mean threeAndNine futureStart64)
      as (_ & H & _).
    rewrite H; vm_compute; reflexivity.
  - destruct (aggregate_tenure_is_weighted_mean
                (Binary64.mkInputs ∅ ∅ ∅ ∅ ∅) futureStart64) as (_ & _ & H & _).
    apply H. vm_compute. reflexivity.
  - destruct (aggregate_tenure_is_weighted_mean
                (Binary64.mkInputs ∅ ∅ ∅ ∅ ∅) futureStart64) as (_ & _ & _ & H & _).
    rewrite H; vm_compute; reflexivity.
  - destruct (aggregate_tenure_is_weighted_mean (Binary64.mkInputs ∅ ∅ ∅ ∅ ∅)
                (Binary64.Legacy.mkInputs ∅ ∅ ∅ (Binary64.Legacy.mkMemberData ∅ ∅ ∅)))
      as (_ & _ & _ & _ & H & _).
    apply H. vm_compute. reflexivity.
Defined.

(* ===================================================================== *)
(** * The windows of a run have distinct keys *)
(* ===================================================================== *)

Lemma substring_prefix (a b : string) :
  substring 0 (String.length a) (a +:+ b) = a.
Proof.
  induction a as [|c a IH]; [now destruct b|].
  change (String c (substring 0 (String.length a) (a +:+ b)) = String c a).
  f_equal. exact IH.
Qed.

Lemma substring_skip (a b : string) (k m : nat) :
  substring (String.length a + k) m (a +:+ b) = substring k m b.
Proof. induction a as [|c a IH]; [reflexivity | exact IH]. Qed.

Lemma substring_all (a : string) : substring 0 (String.length a) a = a.
Proof.
  induction a as [|c a IH]; [reflexivity|].
  change (String c (substring 0 (String.length a) a) = String c a).
  f_equal. exact IH.
Qed.

Lemma monthIndexOfKey_calendarWindow idx :
  12000 <= idx < 120000 -> monthIndexOfKey (key (calendarWindow idx)) = idx.
Proof.
  intros Hidx. unfold calendarWindow. cbn [key].
  pose proof (Z.mod_pos_bound idx 12 ltac:(lia)) as Hm.
  assert (Hy : 1000 <= idx / 12 <= 9999) by (Z.div_mod_to_equations; lia).
  destruct (String_of_int_year (idx / 12) Hy) as [Hlen Hval].
  destruct (padStart2_number (idx mod 12 + 1) ltac:(lia)) as [Hlen' Hval'].
  set (yyyy := String_of_int (idx / 12)) in *.
  set (mm := padStart2 (String_of_int (idx mod 12 + 1))) in *.
  unfold monthIndexOfKey.
  assert (H1 : substring 0 4 (yyyy +:+ "-" +:+ mm) = yyyy).
  { rewrite <- Hlen. apply substring_prefix. }
  assert (H2 : substring 5 2 (yyyy +:+ "-" +:+ mm) = mm).
  { change 5%nat with (4 + 1)%nat. rewrite <- Hlen, substring_skip.
    change (substring 1 2 ("-" +:+ mm)) with (substring 0 2 mm).
    rewrite <- Hlen'. apply substring_all. }
  rewrite H1, H2, Hval, Hval'.
  pose proof (Z.div_mod idx 12 ltac:(lia)). lia.
Qed.

Lemma getMonthRange_keys_NoDup (now : JSDate.Date) (monthsBack : Z) :
  1 <= monthsBack ->
  12000 <= monthIndex now - monthsBack ->
  monthIndex now < 120000 ->
  NoDup (map key (getMonthRange now monthsBack)).
Proof.
  intros Hmb Hlo Hhi.
  destruct (getMonthRange_lookup now monthsBack Hmb ltac:(lia)) as [Hlen Hlk].
  change (map key (getMonthRange now monthsBack))
    with (key <$> getMonthRange now monthsBack).
  apply NoDup_alt. intros i j k Hi Hj.
  rewrite list_lookup_fmap in Hi, Hj.
  assert (Hilt : (i < length (getMonthRange now monthsBack))%nat).
  { apply lookup_lt_is_Some. destruct (getMonthRange now monthsBack !! i); [eauto|discriminate]. }
  assert (Hjlt : (j < length (getMonthRange now monthsBack))%nat).
  { apply lookup_lt_is_Some. destruct (getMonthRange now monthsBack !! j); [eauto|discriminate]. }
  pose proof (Hlk (Z.of_nat i) ltac:(lia)) as Hwi.
  pose proof (Hlk (Z.of_nat j) ltac:(lia)) as Hwj.
  rewrite Nat2Z.id in Hwi, Hwj. rewrite Hwi in Hi. rewrite Hwj in Hj.
  assert (Hkey : key (calendarWindow (monthIndex now - monthsBack + Z.of_nat i))
                 = key (calendarWindow (monthIndex now - monthsBack + Z.of_nat j))).
  { assert (Hsome : Some (key (calendarWindow
                                 (monthIndex now - monthsBack + Z.of_nat i)))
                    = Some (key (calendarWindow
                                   (monthIndex now - monthsBack + Z.of_nat j))))
      by (etransitivity; [exact Hi | symmetry; exact Hj]).
    exact (f_equal (fun o => default EmptyString o) Hsome). }
  apply (f_equal monthIndexOfKey) in Hkey.
  rewrite !monthIndexOfKey_calendarWindow in Hkey by lia.
  lia.
Qed.

(* ===================================================================== *)
(** * The script as it runs *)
(* ===================================================================== *)

(** The scenario: 100 of direct spend and 50 of corporate spend, all of
    it allocated to the only spender; 5 new members and 10 members on
    1000 of revenue; the location without activity has no ratio. *)
Example scenario_records :
  let out := calculateKPIs scenarioInputs in
  (exists rec, KPIs.data out !! "ATL-UWS" = Some rec
     /\ cac rec = Some (2000 / 100)%Q /\ corpCac rec = Some (3000 / 100)%Q
     /\ avgRevPerMember rec = Some (10000 / 100)%Q
     /\ ltv rec = Some (160000 / 100)%Q
     /\ mktgSpendToRev rec = Some (10 / 100)%Q)
  /\ (exists rec, KPIs.data out !! "ATL-WSP" = Some rec
        /\ cac rec = None /\ corpCac rec = None /\ allInCac rec = None
        /\ avgRevPerMember rec = None /\ ltv rec = None
        /\ mktgSpendToRev rec = None /\ corpMktgToRev rec = None
        /\ allInSpendToRev rec = None /\ costPerLead rec = None).
Proof.
  cbv zeta. split.
  - exists (locationKPIs scenarioInputs "ATL-UWS").
    split; [now rewrite calculateKPIs_data|].
    repeat split; vm_compute; reflexivity.
  - exists (locationKPIs scenarioInputs "ATL-WSP").
    split; [now rewrite calculateKPIs_data|].
    repeat split; vm_compute; reflexivity.
Qed.

(** [main] is a run over the twelve windows before the current month,
    and in the years 1001 to 9999 those windows have distinct keys. *)
Lemma main_windows (now : JSDate.Date) (stamp : string) (file : BaselineFile)
    (src : Adapters) :
  12012 <= monthIndex now < 120000 ->
  main now stamp file src
  = run stamp (loadExisting file) src (getMonthRange now MONTHS_BACK)
  /\ length (getMonthRange now MONTHS_BACK) = 12%nat
  /\ NoDup (map key (getMonthRange now MONTHS_BACK)).
Proof.
  intros Hnow. split; [reflexivity|]. split.
  - unfold getMonthRange. now rewrite monthLoop_length.
  - apply getMonthRange_keys_NoDup; unfold MONTHS_BACK; lia.
Qed.

(** The run of 2 November 2026 (day 20759): the twelve windows start at
    November 2025, a month before every known member count. *)
Example windows_of_november_2026 :
  map key (getMonthRange (JSDate.mkDate 20759) MONTHS_BACK)
  = ["2025-11"; "2025-12"; "2026-01"; "2026-02"; "2026-03"; "2026-04";
     "2026-05"; "2026-06"; "2026-07"; "2026-08"; "2026-09"; "2026-10"].
Proof. vm_compute. reflexivity. Qed.

(* ===================================================================== *)
(** * Rounding an exact rational *)
(* ===================================================================== *)

Lemma Math_round_bounds (x : Q) :
  (inject_Z (Math_round x) <= x + (1 # 2))%Q
  /\ (x + (1 # 2) < inject_Z (Math_round x) + 1)%Q.
Proof.
  unfold Math_round. split.
  - apply Qfloor_le.
  - pose proof (Qlt_floor (x + (1 # 2))) as H.
    rewrite inject_Z_plus in H. exact H.
Qed.

Lemma Math_round_integer (n : Z) : Math_round (inject_Z n) = n.
Proof.
  destruct (Math_round_bounds (inject_Z n)) as [Hle Hlt].
  assert (H1 : (inject_Z (Math_round (inject_Z n)) < inject_Z (n + 1))%Q).
  { rewrite inject_Z_plus. change (inject_Z 1) with 1%Q. lra. }
  assert (H2 : (inject_Z n < inject_Z (Math_round (inject_Z n) + 1))%Q).
  { rewrite inject_Z_plus. change (inject_Z 1) with 1%Q. lra. }
  rewrite <- Zlt_Qlt in H1, H2. lia.
Qed.

Lemma Math_round_mono (x y : Q) : (x <= y)%Q -> Math_round x <= Math_round y.
Proof.
  intros H. unfold Math_round. apply Qfloor_resp_le.
  now apply Qplus_le_l.
Qed.

(* ===================================================================== *)
(** * The totals and the signs of the KPIs *)
(* ===================================================================== *)

Lemma notNegative_r2 (v : option Q) : notNegative v -> notNegative (r2 v).
Proof.
  destruct v as [x|]; [|auto]. cbn [notNegative r2]. intros Hx.
  apply Qle_shift_div_l; [reflexivity|]. rewrite Qmult_0_l.
  change 0%Q with (inject_Z 0). rewrite <- Zle_Qle.
  rewrite <- (Math_round_integer 0). apply Math_round_mono.
  change (inject_Z 0) with 0%Q. apply Qmult_le_0_compat; [exact Hx | discriminate].
Qed.

Lemma N2Q_nonneg (n : N) : (0 <= N2Q n)%Q.
Proof. unfold N2Q. change 0%Q with (inject_Z 0). rewrite <- Zle_Qle. lia. Qed.

Lemma Qdiv_nonneg (n d : Q) : (0 <= n)%Q -> (0 <= d)%Q -> (0 <= n / d)%Q.
Proof.
  intros Hn Hd. unfold Qdiv. apply Qmult_le_0_compat; [exact Hn|].
  now apply Qinv_le_0_compat.
Qed.

Lemma notNegative_ratioWhen c (n d : Q) :
  (0 <= n)%Q -> (0 <= d)%Q -> notNegative (ratioWhen c n d).
Proof. intros Hn Hd. destruct c; cbn; [now apply Qdiv_nonneg | exact I]. Qed.

Lemma notNegative_productWhenTruthy (a d : option Q) :
  notNegative a -> notNegative d -> notNegative (productWhenTruthy a d).
Proof.
  destruct a as [x|], d as [y|]; cbn; auto. intros Hx Hy.
  destruct (truthy x && truthy y); cbn; [|exact I].
  now apply Qmult_le_0_compat.
Qed.

Lemma sumQ_nonneg (f : string -> Q) (l : list string) :
  (forall x, x ∈ l -> (0 <= f x)%Q) -> (0 <= sumQ (map f l))%Q.
Proof.
  induction l as [|x l IH]; intros H; [cbn; apply Qle_refl|].
  cbn [map]. rewrite sumQ_cons.
  replace 0%Q with (0 + 0)%Q by reflexivity.
  apply Qplus_le_compat; [apply H; left | apply IH; intros y Hy; apply H; now right].
Qed.

(** With no negative direct spend a share is a fraction of one, at
    least zero. *)
Lemma locShare_nonneg (ms : gmap string Q) (loc : string) :
  (forall l, l ∈ LOCATIONS -> (0 <= orZero ms l)%Q) ->
  loc ∈ LOCATIONS -> (0 <= locShare ms loc)%Q.
Proof.
  intros Hall Hin. unfold locShare.
  destruct (isPositive (totalLocSpendOf ms)) eqn:E.
  - apply isPositive_spec in E. apply Qdiv_nonneg; [now apply Hall|].
    now apply Qlt_le_weak.
  - vm_compute. discriminate.
Qed.

(** X4.  When the revenue, the direct spend of every location and the
    corporate spend are not negative, no KPI is: every field of every
    location's record and of the totals record is [null] or at least
    zero. *)
Theorem no_negative_KPI (inp : Inputs) :
  (forall loc, loc ∈ LOCATIONS -> (0 <= orZero (revenue inp) loc)%Q) ->
  (forall loc, loc ∈ LOCATIONS -> (0 <= orZero (mktgSpend inp) loc)%Q) ->
  (0 <= orZero (mktgSpend inp) "Corp")%Q ->
  (forall loc rec, KPIs.data (calculateKPIs inp) !! loc = Some rec ->
                   recordNotNegative rec)
  /\ recordNotNegative (KPIs.totals (calculateKPIs inp)).
Proof.
  intros Hrev Hspend Hcorp.
  assert (Hsal : (0 <= SALARY_CONFIG.total)%Q) by discriminate.
  assert (Hca : forall loc, loc ∈ LOCATIONS -> (0 <= corpAllocOf inp loc)%Q).
  { intros loc Hin. unfold corpAllocOf. rewrite orZero_corpAllocation by exact Hin.
    apply Qmult_le_0_compat; [exact Hcorp | now apply locShare_nonneg]. }
  assert (Hsa : forall loc, loc ∈ LOCATIONS -> (0 <= salaryOf inp loc)%Q).
  { intros loc Hin. unfold salaryOf. rewrite orZero_salaryAllocation by exact Hin.
    apply Qmult_le_0_compat; [exact Hsal | now apply locShare_nonneg]. }
  assert (Hplus : forall a b : Q, (0 <= a)%Q -> (0 <= b)%Q -> (0 <= a + b)%Q).
  { intros a b Ha Hb. replace 0%Q with (0 + 0)%Q by reflexivity.
    now apply Qplus_le_compat. }
  split.
  - intros loc rec. rewrite calculateKPIs_data.
    destruct (decide (loc ∈ LOCATIONS)) as [Hin | Hnin].
    2: { rewrite bool_decide_eq_false_2 by exact Hnin. discriminate. }
    rewrite bool_decide_eq_true_2 by exact Hin. intros [= <-].
    specialize (Hrev loc Hin). specialize (Hspend loc Hin).
    specialize (Hca loc Hin). specialize (Hsa loc Hin).
    unfold corpAllocOf in Hca. unfold salaryOf in Hsa.
    pose proof (tenure_nonneg) as Hten. rewrite Forall_forall in Hten.
    specialize (Hten loc Hin). unfold tenureOf in Hten.
    unfold locationKPIs, recordNotNegative.
    cbn [cac corpCac allInCac avgRevPerMember avgMemberDuration ltv mktgSpendToRev
         corpMktgToRev allInSpendToRev costPerLead].
    repeat match goal with
           | |- _ /\ _ => split
           | |- notNegative (r2 _) => apply notNegative_r2
           | |- notNegative (ratioWhen _ _ _) => apply notNegative_ratioWhen
           | |- notNegative (productWhenTruthy _ _) =>
               apply notNegative_productWhenTruthy
           | |- (0 <= N2Q _)%Q => apply N2Q_nonneg
           | |- (0 <= _ + _)%Q => apply Hplus
           | |- (0 <= _)%Q => assumption
           end.
    + unfold orNull. destruct (truthy _); cbn; [assumption | exact I].
    + cbn. exact Hten.
  - pose proof (calculateKPIs_sums inp) as H. cbv zeta in H.
    unfold calculateKPIs. cbn [KPIs.totals].
    set (a := fold_left (kpiStep inp) LOCATIONS accum0) in *. clearbody a.
    destruct H as (H1 & H2 & H3 & H4 & _ & _ & _ & H8).
    assert (N1 : (0 <= totRev a)%Q)
      by (rewrite H1; apply sumQ_nonneg; exact Hrev).
    assert (N2 : (0 <= totSpend a)%Q)
      by (rewrite H2; apply sumQ_nonneg; exact Hspend).
    assert (N3 : (0 <= totCorpAlloc a)%Q)
      by (rewrite H3; apply sumQ_nonneg; exact Hca).
    assert (N4 : (0 <= totSalary a)%Q)
      by (rewrite H4; apply sumQ_nonneg; exact Hsa).
    assert (N8 : (0 <= durationWeightedSum a)%Q).
    { rewrite H8. apply sumQ_nonneg. intros loc Hin.
      apply Qmult_le_0_compat; [|apply N2Q_nonneg].
      pose proof (tenure_nonneg) as Hten. rewrite Forall_forall in Hten.
      now apply Hten. }
    unfold totalsOf, recordNotNegative.
    cbn [cac corpCac allInCac avgRevPerMember avgMemberDuration ltv mktgSpendToRev
         corpMktgToRev allInSpendToRev costPerLead].
    repeat match goal with
           | |- _ /\ _ => split
           | |- notNegative (r2 _) => apply notNegative_r2
           | |- notNegative (ratioWhen _ _ _) => apply notNegative_ratioWhen
           | |- notNegative (productWhenTruthy _ _) =>
               apply notNegative_productWhenTruthy
           | |- (0 <= N2Q _)%Q => apply N2Q_nonneg
           | |- (0 <= _ + _)%Q => apply Hplus
           | |- (0 <= _)%Q => assumption
           end.
Qed.

(** The scenario of the specification has no negative input. *)
Lemma no_negative_KPI_witness :
  recordNotNegative (KPIs.totals (calculateKPIs scenarioInputs)).
Proof.
  apply (no_negative_KPI scenarioInputs).
  - intros loc Hin. unfold LOCATIONS in Hin.
    rewrite !elem_of_cons, elem_of_nil in Hin.
    repeat destruct Hin as [-> | Hin]; try contradiction; vm_compute; discriminate.
  - intros loc Hin. unfold LOCATIONS in Hin.
    rewrite !elem_of_cons, elem_of_nil in Hin.
    repeat destruct Hin as [-> | Hin]; try contradiction; vm_compute; discriminate.
  - vm_compute. discriminate.
Defined.

Lemma r2_le (x y : Q) : (x <= y)%Q -> kpiLe (r2 (Some x)) (r2 (Some y)).
Proof.
  intros Hxy. cbn [r2 kpiLe].
  apply Qmult_le_r; [reflexivity|].
  rewrite <- Zle_Qle. apply Math_round_mono.
  apply Qmult_le_r; [reflexivity | exact Hxy].
Qed.

Lemma kpiLe_ratioWhen c (n n' d : Q) :
  (c = true -> (0 < d)%Q) -> (n <= n')%Q ->
  kpiLe (r2 (ratioWhen c n d)) (r2 (ratioWhen c n' d)).
Proof.
  intros Hd Hn. destruct c; [|exact I]. cbn [ratioWhen]. apply r2_le.
  unfold Qdiv. apply Qmult_le_r; [|exact Hn].
  apply Qinv_lt_0_compat. now apply Hd.
Qed.

Lemma N2Q_positive (n : N) : (0 <? n)%N = true -> (0 < N2Q n)%Q.
Proof.
  intros H. apply N.ltb_lt in H. unfold N2Q.
  change 0%Q with (inject_Z 0). rewrite <- Zlt_Qlt. lia.
Qed.

Lemma Qle_add_nonneg (a b : Q) : (0 <= b)%Q -> (a <= a + b)%Q.
Proof.
  intros Hb. rewrite <- (Qplus_0_r a) at 1. apply Qplus_le_compat; [apply Qle_refl | exact Hb].
Qed.



(* ===================================================================== *)
(** * The two copies of the engine *)
(* ===================================================================== *)

Lemma truthy_proper (x y : Q) : (x == y)%Q -> truthy x = truthy y.
Proof.
  intros H. unfold truthy. f_equal.
  destruct (Qeq_bool y 0) eqn:E.
  - apply Qeq_bool_iff. rewrite H. now apply Qeq_bool_iff.
  - destruct (Qeq_bool x 0) eqn:E'; [|reflexivity].
    apply Qeq_bool_iff in E'. rewrite H in E'. apply Qeq_bool_iff in E'. congruence.
Qed.

Lemma r2_productWhenTruthy_proper (a : option Q) c (n n' d : Q) :
  (n == n')%Q ->
  r2 (productWhenTruthy a (ratioWhen c n d))
  = r2 (productWhenTruthy a (ratioWhen c n' d)).
Proof.
  intros Hn. destruct a as [x|], c; cbn [ratioWhen productWhenTruthy]; try reflexivity.
  assert (Hq : (n / d == n' / d)%Q) by now rewrite Hn.
  rewrite (truthy_proper _ _ Hq).
  destruct (truthy x && truthy (n' / d)); [|reflexivity].
  apply r2_Qeq. now rewrite Hq.
Qed.

Lemma Legacy_locationKPIs_same (rev spend : gmap string Q)
    (lead newMem members : gmap string N) (loc : string) :
  Legacy.locationKPIs
    (Legacy.mkInputs rev spend lead
       (Legacy.mkMemberData members newMem AVG_MEMBER_DURATION)) loc
  = locationKPIs (mkInputs rev spend lead newMem members) loc.
Proof.
  unfold Legacy.locationKPIs, locationKPIs.
  cbn [Legacy.revenue Legacy.mktgSpend Legacy.leads Legacy.memberData
       Legacy.memberCounts Legacy.newMembers Legacy.avgDuration
       revenue mktgSpend leads newMembers memberCounts].
  destruct (Legacy_allocations spend) as [-> ->]. reflexivity.
Qed.

Lemma Legacy_kpiStep_same (rev spend : gmap string Q)
    (lead newMem members : gmap string N)
    (a : Legacy.Accum) (b : Accum) (loc : string) :
  (0 < tenureOf loc)%Q ->
  sameAccumulators a b ->
  sameAccumulators
    (Legacy.kpiStep
       (Legacy.mkInputs rev spend lead
          (Legacy.mkMemberData members newMem AVG_MEMBER_DURATION)) a loc)
    (kpiStep (mkInputs rev spend lead newMem members) b loc).
Proof.
  intros Hpos (H0 & H1 & H2 & H3 & H4 & H5 & H6 & H7 & H8 & H9).
  pose proof (Legacy_locationKPIs_same rev spend lead newMem members loc) as Hrec.
  unfold sameAccumulators, Legacy.kpiStep, kpiStep.
  cbn [Legacy.acc_data Legacy.totRev Legacy.totSpend Legacy.totCorpAlloc
       Legacy.totSalary2 Legacy.totMembers Legacy.totNewMembers Legacy.totLeads
       Legacy.durationSum Legacy.durationCount
       acc_data totRev totSpend totCorpAlloc totSalary totMembers totNewMembers
       totLeads durationWeightedSum].
  rewrite Hrec, H0, H1, H2, H3, H4, H5, H6, H7, H9.
  cbn [Legacy.revenue Legacy.mktgSpend Legacy.leads Legacy.memberData
       Legacy.memberCounts Legacy.newMembers Legacy.avgDuration
       revenue mktgSpend leads newMembers memberCounts].
  destruct (Legacy_allocations spend) as [-> ->].
  fold (tenureOf loc). apply isPositive_spec in Hpos. rewrite Hpos.
  repeat (split; [reflexivity|]). split; [|reflexivity].
  cbn [andb]. rewrite H8.
  destruct (N.ltb_spec 0 (countOrZero members loc)) as [Hm | Hm]; [reflexivity|].
  assert (countOrZero members loc = 0%N) as -> by lia.
  unfold N2Q. cbn. ring.
Qed.

Lemma Legacy_kpiLoop_same (rev spend : gmap string Q)
    (lead newMem members : gmap string N)
    (l : list string) (a : Legacy.Accum) (b : Accum) :
  Forall (fun loc => (0 < tenureOf loc)%Q) l ->
  sameAccumulators a b ->
  sameAccumulators
    (fold_left
       (Legacy.kpiStep
          (Legacy.mkInputs rev spend lead
             (Legacy.mkMemberData members newMem AVG_MEMBER_DURATION))) l a)
    (fold_left (kpiStep (mkInputs rev spend lead newMem members)) l b).
Proof.
  revert a b. induction l as [|loc l IH]; intros a b Hall Hab; [exact Hab|].
  inversion Hall as [|? ? Hloc Hl]; subst. cbn [fold_left].
  apply IH; [exact Hl|]. now apply Legacy_kpiStep_same.
Qed.

Lemma Legacy_totalsOf_same (a : Legacy.Accum) (b : Accum) :
  sameAccumulators a b -> Legacy.totalsOf a = totalsOf b.
Proof.
  intros (H0 & H1 & H2 & H3 & H4 & H5 & H6 & H7 & H8 & H9).
  unfold Legacy.totalsOf, totalsOf. rewrite H1, H2, H3, H4, H5, H6, H7, H9.
  f_equal.
  - apply r2_ratioWhen_proper; [exact H8 | reflexivity].
  - apply r2_productWhenTruthy_proper. exact H8.
Qed.

Lemma tenure_all_positive : Forall (fun loc => (0 < tenureOf loc)%Q) LOCATIONS.
Proof. apply Forall_forall. exact tenure_positive. Qed.


(* ===================================================================== *)
(** * Member counts for any month *)
(* ===================================================================== *)

Lemma closestLoop_elem (monthKey : string) (knownMonths : list string)
    (closest : option string) (km : string) :
  closestLoop monthKey knownMonths closest = Some km ->
  km ∈ knownMonths \/ closest = Some km.
Proof.
  unfold closestLoop. revert closest.
  induction knownMonths as [|k l IH]; intros closest H; [right; exact H|].
  cbn [fold_left] in H. apply IH in H as [H | H].
  - left. now right.
  - destruct (String.leb k monthKey).
    + injection H as ->. left. left.
    + right. exact H.
Qed.

Lemma entryOf_elem {V : Type} (table : list (string * V)) (k : string) (v : V) :
  entryOf table k = Some v -> v ∈ map snd table.
Proof.
  induction table as [|[k' v'] table IH]; [discriminate|].
  cbn [entryOf map snd]. destruct (String.eqb k' k).
  - intros [= ->]. left.
  - intros H. right. now apply IH.
Qed.

Lemma getMemberCounts_known (monthKey : string) :
  getMemberCounts monthKey ∈ map snd KNOWN_MEMBER_COUNTS.
Proof.
  unfold getMemberCounts, getMemberCountsIn.
  destruct (entryOf KNOWN_MEMBER_COUNTS monthKey) as [counts|] eqn:E.
  - now apply (entryOf_elem _ monthKey).
  - unfold closestKnownMonth. rewrite knownMonths_sorted.
    destruct (closestLoop monthKey ["2025-12"; "2026-01"; "2026-03"]
                (last ["2025-12"; "2026-01"; "2026-03"])) as [km|] eqn:Ec.
    + apply closestLoop_elem in Ec.
      assert (Hkm : km ∈ ["2025-12"; "2026-01"; "2026-03"]).
      { destruct Ec as [Hin | Hlast]; [exact Hin|].
        cbn in Hlast. injection Hlast as <-. rewrite !elem_of_cons. auto. }
      rewrite !elem_of_cons, elem_of_nil in Hkm.
      destruct Hkm as [-> | [-> | [-> | []]]].
      * now apply (entryOf_elem KNOWN_MEMBER_COUNTS "2025-12").
      * now apply (entryOf_elem KNOWN_MEMBER_COUNTS "2026-01").
      * now apply (entryOf_elem KNOWN_MEMBER_COUNTS "2026-03").
    + exfalso. rewrite closestLoop_spec in Ec.
      destruct (last (filter _ _)); discriminate.
Qed.

Lemma known_counts_positive (counts : gmap string N) (loc : string) :
  counts ∈ map snd KNOWN_MEMBER_COUNTS -> loc ∈ LOCATIONS ->
  (55 <= countOrZero counts loc)%N.
Proof.
  cbn [map snd KNOWN_MEMBER_COUNTS]. rewrite !elem_of_cons, elem_of_nil.
  unfold LOCATIONS. rewrite !elem_of_cons, elem_of_nil.
  intros [-> | [-> | [-> | []]]] Hloc;
    repeat destruct Hloc as [-> | Hloc]; try contradiction;
    vm_compute; discriminate.
Qed.

(** At a key that is not inherited, the lookup is the one over the own
    entries. *)
Lemma AnyKey_getMemberCounts_own (monthKey : string) :
  Object_prototype !! monthKey = None ->
  AnyKey.getMemberCounts monthKey = Table (getMemberCounts monthKey).
Proof.
  intros Hown.
  unfold AnyKey.getMemberCounts, AnyKey.getMemberCountsIn, AnyKey.entryOf,
    getMemberCounts, getMemberCountsIn.
  destruct (entryOf KNOWN_MEMBER_COUNTS monthKey) as [counts|] eqn:E; [reflexivity|].
  rewrite Hown. cbn [fmap option_fmap option_map].
  unfold closestKnownMonth. rewrite knownMonths_sorted.
  destruct (closestLoop monthKey ["2025-12"; "2026-01"; "2026-03"]
              (last ["2025-12"; "2026-01"; "2026-03"])) as [km|] eqn:Ec;
    [|reflexivity].
  apply closestLoop_elem in Ec.
  assert (Hkm : km ∈ ["2025-12"; "2026-01"; "2026-03"]).
  { destruct Ec as [Hin | Hlast]; [exact Hin|].
    cbn in Hlast. injection Hlast as <-. rewrite !elem_of_cons. auto. }
  rewrite !elem_of_cons, elem_of_nil in Hkm.
  destruct Hkm as [-> | [-> | [-> | []]]]; reflexivity.
Qed.

(** At an inherited name the script answers with the inherited value:
    with [constructor] as the key, every location reads no members. *)
Lemma AnyKey_getMemberCounts_inherited (monthKey text : string) :
  Object_prototype !! monthKey = Some text ->
  AnyKey.getMemberCounts monthKey = Inherited text
  /\ (forall loc, AnyKey.countOrZero (AnyKey.getMemberCounts monthKey) loc = 0%N).
Proof.
  intros Hin.
  assert (Hno : entryOf KNOWN_MEMBER_COUNTS monthKey = None).
  { cbn [entryOf KNOWN_MEMBER_COUNTS].
    destruct (String.eqb "2025-12" monthKey) eqn:E1;
      [apply String.eqb_eq in E1; subst; vm_compute in Hin; discriminate|].
    destruct (String.eqb "2026-01" monthKey) eqn:E2;
      [apply String.eqb_eq in E2; subst; vm_compute in Hin; discriminate|].
    destruct (String.eqb "2026-03" monthKey) eqn:E3;
      [apply String.eqb_eq in E3; subst; vm_compute in Hin; discriminate|].
    reflexivity. }
  assert (H : AnyKey.getMemberCounts monthKey = Inherited text).
  { unfold AnyKey.getMemberCounts, AnyKey.getMemberCountsIn, AnyKey.entryOf.
    rewrite Hno, Hin. reflexivity. }
  split; [exact H|]. intros loc. rewrite H. reflexivity.
Qed.

(** X6.  For a month key that is not a name inherited from
    [Object.prototype], known or not, well formed or not,
    [getMemberCounts] answers with the table of one of the known months,
    never with an empty or partial one: every enumerated location gets a
    count, and none below 55.  (At an inherited name, [constructor] for
    one, the script answers with the inherited value, in which no
    location has a count.) *)
Theorem getMemberCounts_always_a_known_table (monthKey : string) :
  Object_prototype !! monthKey = None ->
  exists counts,
    AnyKey.getMemberCounts monthKey = Table counts
    /\ getMemberCounts monthKey = counts
    /\ counts ∈ map snd KNOWN_MEMBER_COUNTS
    /\ (forall loc, loc ∈ LOCATIONS ->
          (55 <= AnyKey.countOrZero (AnyKey.getMemberCounts monthKey) loc)%N).
Proof.
  intros Hown. exists (getMemberCounts monthKey).
  rewrite (AnyKey_getMemberCounts_own monthKey Hown).
  split; [reflexivity|]. split; [reflexivity|].
  split; [apply getMemberCounts_known|].
  intros loc Hloc. cbn [AnyKey.countOrZero].
  apply known_counts_positive; [apply getMemberCounts_known | exact Hloc].
Qed.

(** A month long before the known ones, and a key that is no month;
    both get the counts of March 2026. *)
Lemma getMemberCounts_always_a_known_table_witness :
  (exists counts, AnyKey.getMemberCounts "1999-07" = Table counts
                  /\ counts ∈ map snd KNOWN_MEMBER_COUNTS)
  /\ (55 <= AnyKey.countOrZero (AnyKey.getMemberCounts "not a month") "LA-DUA")%N.
Proof.
  split.
  - destruct (getMemberCounts_always_a_known_table "1999-07")
      as (counts & Hat & _ & Hknown & _); [vm_compute; reflexivity|].
    exists counts. split; [exact Hat | exact Hknown].
  - destruct (getMemberCounts_always_a_known_table "not a month")
      as (counts & _ & _ & _ & Hcount); [vm_compute; reflexivity|].
    apply Hcount. apply (bool_decide_unpack _). vm_compute. exact I.
Defined.

(* ===================================================================== *)
(** * A pulled month *)
(* ===================================================================== *)

(** A month is pulled when the four adapters have returned, and its
    records are then those of the engine on their maps and on the member
    counts of the month. *)
Lemma pullMonth_Returned (src : Adapters) (month : MonthWindow) (kpis : KPIs.t) :
  pullMonth src month = Returned kpis ->
  exists rev spend lead newMem,
    pullNetSuiteRevenue src (start month) (end_ month) = Returned rev
    /\ pullNetSuiteMarketingSpend src (start month) (end_ month) = Returned spend
    /\ pullHubSpotLeads src (start month) (end_ month) = Returned lead
    /\ pullHubSpotNewMembers src (start month) (end_ month) = Returned newMem
    /\ kpis = calculateKPIs
                (mkInputs rev spend lead newMem (getMemberCounts (key month))).
Proof.
  unfold pullMonth, andThen.
  destruct (pullNetSuiteRevenue src _ _) as [rev|]; [|discriminate].
  destruct (pullNetSuiteMarketingSpend src _ _) as [spend|]; [|discriminate].
  destruct (pullHubSpotLeads src _ _) as [lead|]; [|discriminate].
  destruct (pullHubSpotNewMembers src _ _) as [newMem|]; [|discriminate].
  intros [= <-]. exists rev, spend, lead, newMem. auto.
Qed.

Lemma sumN_positive (f : string -> N) (l : list string) (x : string) :
  x ∈ l -> (0 < f x)%N -> (0 < sumN (map f l))%N.
Proof.
  induction l as [|y l IH]; intros Hin Hpos; [inversion Hin|].
  cbn [map]. rewrite sumN_cons. apply elem_of_cons in Hin as [-> | Hin]; [lia|].
  specialize (IH Hin Hpos). lia.
Qed.



(* ===================================================================== *)
(** * What a run keeps *)
(* ===================================================================== *)

Lemma mainLoop_invariant existing src months (P : Dataset.t -> Prop) :
  (forall i month st, P (fst st) ->
     P (fst (mainStep existing src months i month st))) ->
  forall i rest st, P (fst st) -> P (fst (mainLoop existing src months i rest st)).
Proof.
  intros Hstep i rest. revert i.
  induction rest as [|month rest IH]; intros i st Hst; [exact Hst|].
  cbn [mainLoop]. apply IH. now apply Hstep.
Qed.

Lemma useCached_is_Some existing months i month :
  useCached existing months i month = true ->
  is_Some (Dataset.data existing !! key month).
Proof.
  unfold useCached. intros H. apply andb_true_iff in H as [H _].
  now apply bool_decide_eq_true in H.
Qed.

(** A step that copies from the baseline copies a record that is
    there. *)
Lemma copyFromExisting_lookup existing k result k' :
  is_Some (Dataset.data existing !! k) ->
  (k' = k /\ is_Some (Dataset.data (copyFromExisting existing k result) !! k')
   /\ Dataset.data (copyFromExisting existing k result) !! k'
      = Dataset.data existing !! k
   /\ Dataset.totals (copyFromExisting existing k result) !! k'
      = Dataset.totals existing !! k)
  \/ (k' <> k
      /\ Dataset.data (copyFromExisting existing k result) !! k'
         = Dataset.data result !! k'
      /\ Dataset.totals (copyFromExisting existing k result) !! k'
         = Dataset.totals result !! k').
Proof.
  intros Hs. unfold copyFromExisting. cbn [Dataset.data Dataset.totals].
  destruct (decide (k' = k)) as [-> | Hne].
  - left. rewrite !assign_lookup. auto.
  - right. split; [exact Hne|]. unfold assign.
    destruct (Dataset.data existing !! k), (Dataset.totals existing !! k);
      rewrite ?lookup_insert_ne, ?lookup_delete_ne by auto; auto.
Qed.

Lemma mainStep_totalsWithinData existing src months i month st :
  totalsWithinData (fst st) ->
  totalsWithinData (fst (mainStep existing src months i month st)).
Proof.
  destruct st as [result log]. cbn [fst]. intros Hinv. unfold mainStep.
  assert (Hcopy : is_Some (Dataset.data existing !! key month) ->
            totalsWithinData (copyFromExisting existing (key month) result)).
  { intros Hs k.
    destruct (copyFromExisting_lookup existing (key month) result k Hs)
      as [(-> & Hd & _) | (_ & Hd & Ht)].
    - intros _. exact Hd.
    - rewrite Hd, Ht. apply Hinv. }
  destruct (useCached existing months i month) eqn:Ec.
  { cbn [fst]. apply Hcopy. eapply useCached_is_Some; eauto. }
  destruct (pullMonth src month).
  - cbn [fst]. intros k. unfold storeKPIs. cbn [Dataset.data Dataset.totals].
    destruct (decide (k = key month)) as [-> | Hne].
    + rewrite !lookup_insert_eq. eauto.
    + rewrite !lookup_insert_ne by auto. apply Hinv.
  - destruct (bool_decide _) eqn:Eb; cbn [fst]; [|exact Hinv].
    apply Hcopy. now apply bool_decide_eq_true in Eb.
Qed.

Lemma mainStep_dataWithinTotals existing src months i month st :
  dataWithinTotals existing ->
  dataWithinTotals (fst st) ->
  dataWithinTotals (fst (mainStep existing src months i month st)).
Proof.
  destruct st as [result log]. cbn [fst]. intros Hex Hinv. unfold mainStep.
  assert (Hcopy : is_Some (Dataset.data existing !! key month) ->
            dataWithinTotals (copyFromExisting existing (key month) result)).
  { intros Hs k.
    destruct (copyFromExisting_lookup existing (key month) result k Hs)
      as [(-> & _ & _ & Ht) | (_ & Hd & Ht)].
    - intros _. rewrite Ht. now apply Hex.
    - rewrite Hd, Ht. apply Hinv. }
  destruct (useCached existing months i month) eqn:Ec.
  { cbn [fst]. apply Hcopy. eapply useCached_is_Some; eauto. }
  destruct (pullMonth src month).
  - cbn [fst]. intros k. unfold storeKPIs. cbn [Dataset.data Dataset.totals].
    destruct (decide (k = key month)) as [-> | Hne].
    + rewrite !lookup_insert_eq. eauto.
    + rewrite !lookup_insert_ne by auto. apply Hinv.
  - destruct (bool_decide _) eqn:Eb; cbn [fst]; [|exact Hinv].
    apply Hcopy. now apply bool_decide_eq_true in Eb.
Qed.

Lemma run_totalsWithinData stamp existing src months :
  totalsWithinData (fst (run stamp existing src months)).
Proof.
  unfold run. apply mainLoop_invariant.
  - intros i month st. apply mainStep_totalsWithinData.
  - intros k. cbn [fst Dataset.totals]. rewrite lookup_empty. intros [? ?]; discriminate.
Qed.

(** X8.  In the written dataset every month that has totals has
    per-location data, whatever the baseline held; and when every month of
    the baseline with data has totals, the data map and the totals map of
    the written dataset have the same keys. *)
Theorem written_maps_have_the_same_months stamp (existing : Dataset.t)
    (src : Adapters) (months : list MonthWindow) :
  let result := fst (run stamp existing src months) in
  totalsWithinData result
  /\ (dataWithinTotals existing ->
      dom (Dataset.data result) = dom (Dataset.totals result)).
Proof.
  intros result. split; [apply run_totalsWithinData|].
  intros Hex.
  assert (Hdt : dataWithinTotals result).
  { unfold result, run. apply mainLoop_invariant.
    - intros i month st. now apply mainStep_dataWithinTotals.
    - intros k. cbn [fst Dataset.data]. rewrite lookup_empty.
      intros [? ?]; discriminate. }
  apply set_eq. intros k. rewrite !elem_of_dom. split.
  - apply Hdt.
  - apply (run_totalsWithinData stamp existing src months).
Qed.

(** The sample baseline has totals for each of its months. *)
Lemma written_maps_have_the_same_months_witness :
  dom (Dataset.data (fst (run sampleStamp sampleBaseline ledgerDown fourWindows)))
  = dom (Dataset.totals (fst (run sampleStamp sampleBaseline ledgerDown fourWindows))).
Proof.
  apply (written_maps_have_the_same_months sampleStamp sampleBaseline ledgerDown
           fourWindows).
  intros k [d Hd]. unfold sampleBaseline, objectOf in *.
  cbn [Dataset.data Dataset.totals] in *.
  apply elem_of_list_to_map_2 in Hd.
  rewrite !elem_of_cons, elem_of_nil in Hd.
  destruct Hd as [[= -> _] | [[= -> _] | [[= -> _] | []]]]; vm_compute; eauto.
Defined.

(** X9.  A month of the baseline that is among the windows of the run
    is never lost: the written dataset has a record under its key, the
    baseline's own when the month is reused or its pull fails, the fresh
    one when it is pulled. *)
Theorem baseline_month_in_window_is_kept stamp (existing : Dataset.t)
    (src : Adapters) (months : list MonthWindow) (i : nat) (month : MonthWindow) :
  NoDup (map key months) ->
  months !! i = Some month ->
  is_Some (Dataset.data existing !! key month) ->
  let result := fst (run stamp existing src months) in
  is_Some (Dataset.data result !! key month)
  /\ (Dataset.data result !! key month = Dataset.data existing !! key month
      /\ Dataset.totals result !! key month = Dataset.totals existing !! key month
      \/ exists kpis, pullMonth src month = Returned kpis
           /\ Dataset.data result !! key month = Some (KPIs.data kpis)
           /\ Dataset.totals result !! key month = Some (KPIs.totals kpis)).
Proof.
  intros Hnd Hi Hs result.
  destruct (run_lookup stamp existing src months i month Hnd Hi) as [Hd Ht].
  fold result in Hd, Ht. unfold dataAfter in Hd. unfold totalsAfter in Ht.
  rewrite (bool_decide_eq_true_2 _ Hs) in Hd, Ht.
  destruct (useCached existing months i month).
  { rewrite Hd. auto. }
  destruct (pullMonth src month) as [kpis|message].
  - rewrite Hd. split; [eauto|]. right. exists kpis. auto.
  - rewrite Hd. auto.
Qed.

(** January 2024 is in the sample baseline and among the four windows;
    with the ledger down its record is still written. *)
Lemma baseline_month_in_window_is_kept_witness :
  is_Some (Dataset.data (fst (run sampleStamp sampleBaseline ledgerDown fourWindows))
             !! "2024-01").
Proof.
  assert (Hnd : NoDup (map key fourWindows)).
  { rewrite fourWindows_keys. apply (bool_decide_unpack _). vm_compute. exact I. }
  destruct (baseline_month_in_window_is_kept sampleStamp sampleBaseline ledgerDown
              fourWindows 2 (mkWindow "2024-01" "2024-01-01" "2024-01-31") Hnd)
    as [Hkept _].
  - vm_compute. reflexivity.
  - vm_compute. eexists. reflexivity.
  - exact Hkept.
Defined.

Lemma run_outside stamp existing src months k :
  k ∉ map key months ->
  Dataset.data (fst (run stamp existing src months)) !! k = None
  /\ Dataset.totals (fst (run stamp existing src months)) !! k = None.
Proof.
  intros Hk. unfold run.
  destruct (mainLoop_other existing src months 0 months
              (Dataset.mk (Some stamp) (map key months) LOCATIONS ∅ ∅, []) k Hk)
    as [H1 H2].
  rewrite H1, H2. cbn [fst Dataset.data Dataset.totals].
  now rewrite !lookup_empty.
Qed.

(** X10.  Running again over the same windows with the written dataset
    as baseline, while every pull fails, writes the same data and totals
    again: the fallback to stale records loses nothing and adds
    nothing. *)
Theorem rerun_with_failing_sources_writes_the_same stamp stamp'
    (existing : Dataset.t) (src down : Adapters) (months : list MonthWindow) :
  NoDup (map key months) ->
  (forall month, month ∈ months -> exists message,
     pullMonth down month = Thrown message) ->
  let first := fst (run stamp existing src months) in
  let second := fst (run stamp' first down months) in
  Dataset.data second = Dataset.data first
  /\ Dataset.totals second = Dataset.totals first
  /\ Dataset.months second = Dataset.months first.
Proof.
  intros Hnd Hdown first second.
  assert (Hkey : forall k,
            Dataset.data second !! k = Dataset.data first !! k
            /\ Dataset.totals second !! k = Dataset.totals first !! k).
  { intros k. destruct (decide (k ∈ map key months)) as [Hin | Hout].
    - change (map key months) with (key <$> months) in Hin.
      apply list_elem_of_fmap in Hin as (month & -> & Hm).
      apply list_elem_of_lookup in Hm as [i Hi].
      destruct (run_lookup stamp' first down months i month Hnd Hi) as [Hd Ht].
      fold second in Hd, Ht. unfold dataAfter in Hd. unfold totalsAfter in Ht.
      destruct (Hdown month) as [message Hm].
      { apply list_elem_of_lookup. eauto. }
      rewrite Hm in Hd, Ht.
      destruct (useCached first months i month); [auto|].
      destruct (decide (is_Some (Dataset.data first !! key month))) as [Hs | Hn].
      + rewrite (bool_decide_eq_true_2 _ Hs) in Hd, Ht. auto.
      + rewrite (bool_decide_eq_false_2 _ Hn) in Hd, Ht.
        rewrite Hd, Ht. split.
        * destruct (Dataset.data first !! key month); [exfalso; eauto | reflexivity].
        * destruct (Dataset.totals first !! key month) eqn:Et; [|reflexivity].
          exfalso. apply Hn.
          apply (run_totalsWithinData stamp existing src months). fold first.
          rewrite Et. eauto.
    - destruct (run_outside stamp existing src months k Hout) as [H1 H2].
      destruct (run_outside stamp' first down months k Hout) as [H3 H4].
      fold first in H1, H2. fold second in H3, H4.
      rewrite H1, H2, H3, H4. auto. }
  split; [apply map_eq; intros k; apply Hkey|].
  split; [apply map_eq; intros k; apply Hkey|].
  unfold second, first, run. now rewrite !mainLoop_months.
Qed.

Lemma allDown_throws (month : MonthWindow) :
  pullMonth allDown month = Thrown "fetch failed".
Proof. reflexivity. Qed.

(** A run with quiet sources, then a run with every source down. *)
Lemma rerun_with_failing_sources_writes_the_same_witness :
  Dataset.data
    (fst (run sampleStamp
            (fst (run sampleStamp sampleBaseline quietSources fourWindows))
            allDown fourWindows))
  = Dataset.data (fst (run sampleStamp sampleBaseline quietSources fourWindows)).
Proof.
  assert (Hnd : NoDup (map key fourWindows)).
  { rewrite fourWindows_keys. apply (bool_decide_unpack _). vm_compute. exact I. }
  destruct (rerun_with_failing_sources_writes_the_same sampleStamp sampleStamp
              sampleBaseline quietSources allDown fourWindows Hnd) as [Hdata _].
  - intros month _. exists "fetch failed"%string. apply allDown_throws.
  - exact Hdata.
Defined.

Lemma mainStep_dom existing src months i month st :
  (is_Some (Dataset.data existing !! key month)
   \/ exists kpis, pullMonth src month = Returned kpis) ->
  dom (Dataset.data (fst (mainStep existing src months i month st)))
  = {[key month]} ∪ dom (Dataset.data (fst st)).
Proof.
  destruct st as [result log]. cbn [fst]. intros Hok. unfold mainStep.
  assert (Hcopy : is_Some (Dataset.data existing !! key month) ->
            dom (Dataset.data (copyFromExisting existing (key month) result))
            = {[key month]} ∪ dom (Dataset.data result)).
  { intros [d Hd]. unfold copyFromExisting. cbn [Dataset.data].
    rewrite Hd. cbn [assign]. apply dom_insert_L. }
  destruct (useCached existing months i month) eqn:Ec.
  { cbn [fst]. apply Hcopy. eapply useCached_is_Some; eauto. }
  destruct (pullMonth src month) as [kpis|message] eqn:Ep.
  - cbn [fst]. unfold storeKPIs. cbn [Dataset.data]. apply dom_insert_L.
  - destruct Hok as [Hs | [kpis Hk]]; [|discriminate].
    rewrite (bool_decide_eq_true_2 _ Hs). cbn [fst]. now apply Hcopy.
Qed.

Lemma mainLoop_dom existing src months i rest st :
  (forall month, month ∈ rest ->
     is_Some (Dataset.data existing !! key month)
     \/ exists kpis, pullMonth src month = Returned kpis) ->
  dom (Dataset.data (fst (mainLoop existing src months i rest st)))
  = list_to_set (map key rest) ∪ dom (Dataset.data (fst st)).
Proof.
  revert i st. induction rest as [|month rest IH]; intros i st Hok.
  - cbn [mainLoop map]. rewrite list_to_set_nil. now rewrite (left_id_L ∅ (∪)).
  - cbn [mainLoop map]. rewrite IH.
    + rewrite mainStep_dom by (apply Hok; left).
      rewrite list_to_set_cons, (assoc_L (∪)).
      now rewrite (comm_L (∪) (list_to_set (map key rest))).
    + intros m Hm. apply Hok. now right.
Qed.

(** X11.  When every window of the run is in the baseline or can be
    pulled without an error, the written data map has a record for every
    window and for nothing else; with no baseline file, or an unreadable
    one, that takes every pull to succeed, and no report is of cached
    data. *)
Theorem complete_run_covers_every_window stamp (existing : Dataset.t)
    (src : Adapters) (months : list MonthWindow) :
  (forall month, month ∈ months ->
     is_Some (Dataset.data existing !! key month)
     \/ exists kpis, pullMonth src month = Returned kpis) ->
  dom (Dataset.data (fst (run stamp existing src months)))
  = list_to_set (map key months)
  /\ (forall file r, (file = NoFile \/ file = Unreadable) ->
        r ∈ snd (run stamp (loadExisting file) src months) ->
        decisionOf r = RECOMPUTE).
Proof.
  intros Hok. split.
  - unfold run. rewrite mainLoop_dom by exact Hok.
    cbn [fst Dataset.data]. rewrite dom_empty_L. apply (right_id_L ∅ (∪)).
  - intros file r Hfile Hr. rewrite run_log in Hr.
    assert (Hex : Dataset.data (loadExisting file) = ∅)
      by (destruct Hfile as [-> | ->]; reflexivity).
    apply list_elem_of_lookup in Hr as [j Hj].
    assert (Hjlt : (j < length months)%nat).
    { rewrite <- (reportsFrom_length (loadExisting file) src months 0 months).
      eapply lookup_lt_Some; eauto. }
    destruct (lookup_lt_is_Some_2 months j Hjlt) as [month Hm].
    rewrite (reportsFrom_lookup _ _ _ 0 months j month Hm) in Hj.
    injection Hj as <-. unfold reportOf, useCached.
    rewrite Hex, lookup_empty.
    rewrite bool_decide_eq_false_2 by (intros [? ?]; discriminate).
    cbn [andb]. destruct (pullMonth src month); reflexivity.
Qed.

(** The four windows with quiet sources and no baseline file. *)
Lemma complete_run_covers_every_window_witness :
  dom (Dataset.data (fst (run sampleStamp (loadExisting NoFile) quietSources
                            fourWindows)))
  = list_to_set (map key fourWindows).
Proof.
  apply (complete_run_covers_every_window sampleStamp (loadExisting NoFile)
           quietSources fourWindows).
  intros month _. right. eexists. reflexivity.
Defined.

(** X12.  A window whose pull failed with nothing to fall back on is
    still named, at its place, in the list of months of the written
    dataset, while the data and the totals have no record for it; the
    locations are the enumerated ones and the stamp is that of the
    run. *)
Theorem skipped_month_is_still_listed stamp (existing : Dataset.t)
    (src : Adapters) (months : list MonthWindow) (i : nat) (month : MonthWindow)
    (message : string) :
  NoDup (map key months) ->
  months !! i = Some month ->
  Dataset.data existing !! key month = None ->
  pullMonth src month = Thrown message ->
  let result := fst (run stamp existing src months) in
  Dataset.months result !! i = Some (key month)
  /\ Dataset.data result !! key month = None
  /\ Dataset.totals result !! key month = None
  /\ Dataset.locations result = LOCATIONS
  /\ Dataset.lastUpdated result = Some stamp.
Proof.
  intros Hnd Hi Hnone Hthrown result.
  destruct (run_lookup stamp existing src months i month Hnd Hi) as [Hd Ht].
  fold result in Hd, Ht. unfold dataAfter in Hd. unfold totalsAfter in Ht.
  unfold useCached in Hd, Ht. rewrite Hthrown, Hnone in Hd, Ht.
  rewrite bool_decide_eq_false_2 in Hd, Ht by (intros [? ?]; discriminate).
  cbn [andb] in Hd, Ht.
  split; [|split; [exact Hd | split; [exact Ht|]]].
  - unfold result, run. rewrite mainLoop_months. cbn [fst Dataset.months].
    change (map key months) with (key <$> months).
    now rewrite list_lookup_fmap, Hi.
  - unfold result, run. split.
    + apply (mainLoop_invariant existing src months
               (fun d => Dataset.locations d = LOCATIONS)); [|reflexivity].
      intros j m [r l] Hr. cbn [fst] in *. unfold mainStep.
      destruct (useCached existing months j m); [exact Hr|].
      destruct (pullMonth src m); [exact Hr|].
      destruct (bool_decide _); exact Hr.
    + apply (mainLoop_invariant existing src months
               (fun d => Dataset.lastUpdated d = Some stamp)); [|reflexivity].
      intros j m [r l] Hr. cbn [fst] in *. unfold mainStep.
      destruct (useCached existing months j m); [exact Hr|].
      destruct (pullMonth src m); [exact Hr|].
      destruct (bool_decide _); exact Hr.
Qed.

(** February 2024 with the ledger down and no record in the baseline. *)
Lemma skipped_month_is_still_listed_witness :
  Dataset.months (fst (run sampleStamp sampleBaseline ledgerDown fourWindows))
    !! 3%nat = Some "2024-02"%string
  /\ Dataset.data (fst (run sampleStamp sampleBaseline ledgerDown fourWindows))
       !! "2024-02" = None.
Proof.
  assert (Hnd : NoDup (map key fourWindows)).
  { rewrite fourWindows_keys. apply (bool_decide_unpack _). vm_compute. exact I. }
  destruct (skipped_month_is_still_listed sampleStamp sampleBaseline ledgerDown
              fourWindows 3 (mkWindow "2024-02" "2024-02-01" "2024-02-29")
              "NetSuite API 500: unavailable" Hnd)
    as (Hlisted & Hdata & _); try (vm_compute; reflexivity).
  split; [exact Hlisted | exact Hdata].
Defined.

(* ===================================================================== *)
(** * The NetSuite adapter *)
(* ===================================================================== *)

Lemma suiteQLLoop_pagesServed server ns query limit pages :
  forall offset allItems fuel,
    pagesServed server (suiteQLRequest ns query limit) offset pages ->
    NetSuite.suiteQLLoop (length pages + fuel) server ns query limit allItems offset
    = NetSuite.suiteQLLoop fuel server ns query limit (allItems ++ concat pages)
        (offset + Z.of_nat (length (concat pages))).
Proof.
  induction pages as [|page rest IH]; intros offset allItems fuel Hserved.
  - cbn. now rewrite app_nil_r, Z.add_0_r.
  - destruct Hserved as [(items & Hresp & Hitems) Hrest].
    cbn [length Nat.add NetSuite.suiteQLLoop].
    unfold suiteQLRequest in Hresp. rewrite Hresp. cbn [NetSuite.isTrue].
    rewrite Hitems, (IH _ _ _ Hrest). cbn [concat].
    rewrite length_app, app_assoc. f_equal. lia.
Qed.

Lemma suiteQLLoop_more_fuel server ns query limit fuel :
  forall allItems offset result extra,
    NetSuite.suiteQLLoop fuel server ns query limit allItems offset = Some result ->
    NetSuite.suiteQLLoop (fuel + extra) server ns query limit allItems offset
    = Some result.
Proof.
  induction fuel as [|fuel IH]; intros allItems offset result extra H; [discriminate|].
  cbn [Nat.add NetSuite.suiteQLLoop] in *.
  destruct (server _) as [message|status text|items hasMore]; try exact H.
  destruct (NetSuite.isTrue hasMore); [now apply IH | exact H].
Qed.

(** X13.  Against a ledger that holds a list of rows and serves them by
    offset, never more than [cap] rows a request, [runSuiteQL] returns
    exactly those rows, in order: it advances by the number of rows it
    was handed, so a page shorter than the limit it asked for loses
    nothing. *)
Theorem runSuiteQL_collects_every_row (rows : list NetSuite.Row) (cap limit : Z)
    (ns : NetSuite.Client) (query : NetSuite.Query) (fuel : nat) :
  0 < cap -> 0 < limit -> (length rows < fuel)%nat ->
  NetSuite.runSuiteQL fuel (tableServer rows cap) ns query limit
  = Some (Returned rows).
Proof.
  intros Hcap Hlimit Hfuel. unfold NetSuite.runSuiteQL.
  assert (Hgen : forall k o fuel',
            (o <= length rows)%nat -> (length rows - o <= k)%nat -> (k < fuel')%nat ->
            NetSuite.suiteQLLoop fuel' (tableServer rows cap) ns query limit
              (take o rows) (Z.of_nat o) = Some (Returned rows)).
  { induction k as [|k IH]; intros o fuel' Ho Hk Hf.
    - destruct fuel' as [|fuel']; [lia|].
      cbn [NetSuite.suiteQLLoop]. unfold tableServer.
      cbn [NetSuite.limit NetSuite.offset default from_option id NetSuite.isTrue].
      rewrite bool_decide_eq_false_2 by lia.
      rewrite Nat2Z.id. f_equal. f_equal.
      rewrite take_take_drop. apply take_ge. lia.
    - destruct fuel' as [|fuel']; [lia|].
      cbn [NetSuite.suiteQLLoop]. unfold tableServer.
      cbn [NetSuite.limit NetSuite.offset default from_option id NetSuite.isTrue].
      rewrite Nat2Z.id.
      set (n := Z.min limit cap).
      assert (Hn : 0 < n) by (unfold n; lia).
      destruct (bool_decide (Z.of_nat o + n < Z.of_nat (length rows))) eqn:Emore.
      + apply bool_decide_eq_true_1 in Emore.
        rewrite take_take_drop.
        rewrite length_take, length_drop.
        replace (Z.of_nat o + Z.of_nat (Z.to_nat n `min` (length rows - o)))
          with (Z.of_nat (o + Z.to_nat n)) by lia.
        apply IH; lia.
      + apply bool_decide_eq_false_1 in Emore.
        f_equal. f_equal. rewrite take_take_drop. apply take_ge. lia. }
  apply (Hgen (length rows) 0%nat fuel); lia.
Qed.

(** Three rows, one row a page, a limit of 200. *)
Lemma runSuiteQL_collects_every_row_witness :
  NetSuite.runSuiteQL 4 (tableServer threeRows 1) sampleClient sampleQuery 200
  = Some (Returned threeRows).
Proof.
  apply (runSuiteQL_collects_every_row threeRows 1 200 sampleClient sampleQuery 4).
  - lia.
  - lia.
  - vm_compute. lia.
Defined.

(** X14.  When the ledger, after any number of pages, answers with a
    response that is not OK, [runSuiteQL] throws an error that carries
    the status and the text of that response, and the rows of the pages
    before are gone. *)
Theorem runSuiteQL_error_discards_pages (server : NetSuite.Server)
    (ns : NetSuite.Client) (query : NetSuite.Query) (limit : Z)
    (pages : list (list NetSuite.Row)) (status : Z) (text : string) (fuel : nat) :
  pagesServed server (suiteQLRequest ns query limit) 0 pages ->
  server (suiteQLRequest ns query limit (Z.of_nat (length (concat pages))))
  = NetSuite.NotOk status text ->
  (length pages < fuel)%nat ->
  NetSuite.runSuiteQL fuel server ns query limit
  = Some (Thrown ("NetSuite API " +:+ String_of_int status +:+ ": " +:+ text)).
Proof.
  intros Hserved Hlast Hfuel. unfold NetSuite.runSuiteQL.
  replace fuel with (length pages + S (fuel - S (length pages)))%nat by lia.
  rewrite (suiteQLLoop_pagesServed _ _ _ _ _ _ _ _ Hserved).
  cbn [NetSuite.suiteQLLoop]. rewrite Z.add_0_l.
  unfold suiteQLRequest in Hlast. now rewrite Hlast.
Qed.

Lemma suiteQLLoop_stuck server ns query limit offset items :
  server (suiteQLRequest ns query limit offset) = NetSuite.Ok items (Some true) ->
  default [] items = [] ->
  forall fuel allItems,
    NetSuite.suiteQLLoop fuel server ns query limit allItems offset = None.
Proof.
  intros Hresp Hitems. induction fuel as [|fuel IH]; intros allItems; [reflexivity|].
  cbn [NetSuite.suiteQLLoop]. unfold suiteQLRequest in Hresp.
  rewrite Hresp, Hitems. cbn [NetSuite.isTrue length Z.of_nat].
  rewrite Z.add_0_r. apply IH.
Qed.

(** X15.  The loop of [runSuiteQL] has no bound of its own: when the
    ledger, after any number of pages, answers with no rows and
    [hasMore] true, the same request is sent again and again and
    [runSuiteQL] never returns, however many requests it is given. *)
Theorem runSuiteQL_empty_page_with_more_never_returns (server : NetSuite.Server)
    (ns : NetSuite.Client) (query : NetSuite.Query) (limit : Z)
    (pages : list (list NetSuite.Row)) (items : option (list NetSuite.Row)) :
  pagesServed server (suiteQLRequest ns query limit) 0 pages ->
  server (suiteQLRequest ns query limit (Z.of_nat (length (concat pages))))
  = NetSuite.Ok items (Some true) ->
  default [] items = [] ->
  forall fuel, NetSuite.runSuiteQL fuel server ns query limit = None.
Proof.
  intros Hserved Hlast Hempty fuel. unfold NetSuite.runSuiteQL.
  destruct (decide (fuel <= length pages)%nat) as [Hle | Hgt].
  - destruct (NetSuite.suiteQLLoop fuel server ns query limit [] 0) as [result|] eqn:E;
      [|reflexivity].
    apply (suiteQLLoop_more_fuel _ _ _ _ _ _ _ _ (S (length pages) - fuel)) in E.
    replace (fuel + (S (length pages) - fuel))%nat with (length pages + 1)%nat in E by lia.
    rewrite (suiteQLLoop_pagesServed _ _ _ _ _ _ _ _ Hserved) in E.
    rewrite Z.add_0_l in E.
    now rewrite (suiteQLLoop_stuck _ _ _ _ _ _ Hlast Hempty) in E.
  - replace fuel with (length pages + (fuel - length pages))%nat by lia.
    rewrite (suiteQLLoop_pagesServed _ _ _ _ _ _ _ _ Hserved), Z.add_0_l.
    now apply (suiteQLLoop_stuck _ _ _ _ _ _ Hlast Hempty).
Qed.

(** One page of three rows, then a response with status 500. *)
Lemma runSuiteQL_error_discards_pages_witness :
  NetSuite.runSuiteQL 2 failingLedger sampleClient sampleQuery 200
  = Some (Thrown "NetSuite API 500: unavailable").
Proof.
  apply (runSuiteQL_error_discards_pages failingLedger sampleClient sampleQuery 200
           [threeRows] 500 "unavailable" 2).
  - split; [|exact I]. exists (Some threeRows). split; reflexivity.
  - reflexivity.
  - vm_compute. lia.
Defined.

(** A ledger that announces more rows and hands out none. *)
Lemma runSuiteQL_empty_page_with_more_never_returns_witness :
  NetSuite.runSuiteQL 500 stuckLedger sampleClient sampleQuery 200 = None.
Proof.
  apply (runSuiteQL_empty_page_with_more_never_returns stuckLedger sampleClient
           sampleQuery 200 [] None).
  - exact I.
  - reflexivity.
  - reflexivity.
Defined.

Lemma revenueOfRows_fold rows : forall revenue spend,
  revenue = Qabs <$> spend ->
  fold_left (fun result row =>
               assignOwn (NetSuite.location_name row) (Qabs (NetSuite.amountOf row)) result)
            rows revenue
  = Qabs <$> fold_left (fun result row =>
               assignOwn (NetSuite.location_name row) (NetSuite.amountOf row) result)
            rows spend.
Proof.
  induction rows as [|row rows IH]; intros revenue spend H; [exact H|].
  cbn [fold_left]. apply IH. unfold assignOwn.
  destruct (String.eqb _ _); [exact H|].
  now rewrite fmap_insert, H.
Qed.

(** X16.  Over the same rows the revenue map is the spend map with the
    sign of every amount dropped: revenue is never negative, whatever the
    ledger answers, while a marketing spend keeps the sign the ledger
    gives it; and a row without an amount reads as zero in both. *)
Theorem revenue_drops_the_sign_spend_keeps_it (rows : list NetSuite.Row) :
  NetSuite.revenueOfRows rows = Qabs <$> NetSuite.spendOfRows rows
  /\ (forall loc, (0 <= orZero (NetSuite.revenueOfRows rows) loc)%Q)
  /\ (forall fuel server ns startDate endDate revenue,
        NetSuite.pullNetSuiteRevenue fuel server ns startDate endDate
        = Some (Returned revenue) ->
        forall loc, (0 <= orZero revenue loc)%Q).
Proof.
  assert (Hrev : NetSuite.revenueOfRows rows = Qabs <$> NetSuite.spendOfRows rows).
  { unfold NetSuite.revenueOfRows, NetSuite.spendOfRows.
    apply revenueOfRows_fold. now rewrite fmap_empty. }
  assert (Hpos : forall rows' loc, (0 <= orZero (NetSuite.revenueOfRows rows') loc)%Q).
  { intros rows' loc. unfold orZero.
    assert (H' : NetSuite.revenueOfRows rows' = Qabs <$> NetSuite.spendOfRows rows').
    { unfold NetSuite.revenueOfRows, NetSuite.spendOfRows.
      apply revenueOfRows_fold. now rewrite fmap_empty. }
    rewrite H', lookup_fmap.
    destruct (NetSuite.spendOfRows rows' !! loc) as [v|]; cbn.
    - apply Qabs_nonneg.
    - apply Qle_refl. }
  split; [exact Hrev|]. split; [apply Hpos|].
  intros fuel server ns startDate endDate revenue Hpull loc.
  unfold NetSuite.pullNetSuiteRevenue, mapOutcome in Hpull.
  destruct (NetSuite.runSuiteQL _ _ _ _ _) as [[rows'|message]|]; try discriminate.
  injection Hpull as <-. apply Hpos.
Qed.

(* ===================================================================== *)
(** * The HubSpot adapter *)
(* ===================================================================== *)

Lemma cursorAfter_cons after page rest :
  cursorAfter after (page :: rest) = cursorAfter (Some (snd page)) rest.
Proof. reflexivity. Qed.

Lemma searchLoop_cursorsFollowed server endpoint filters properties token pages :
  forall after results fuel,
    cursorsFollowed server (searchRequest endpoint filters properties token) after pages ->
    HubSpot.searchLoop (length pages + fuel) server endpoint filters properties token
      results after
    = HubSpot.searchLoop fuel server endpoint filters properties token
        (results ++ concat (map fst pages)) (cursorAfter after pages).
Proof.
  induction pages as [|page rest IH]; intros after results fuel Hfollowed.
  - cbn. now rewrite app_nil_r.
  - destruct Hfollowed as [(data & Hresp & Hdata) [Htruthy Hrest]].
    cbn [length Nat.add HubSpot.searchLoop].
    unfold searchRequest in Hresp. rewrite Hresp, Htruthy, Hdata.
    rewrite (IH _ _ _ Hrest), cursorAfter_cons. cbn [map concat].
    now rewrite app_assoc.
Qed.

Lemma searchLoop_more_fuel server endpoint filters properties token fuel :
  forall results after result extra,
    HubSpot.searchLoop fuel server endpoint filters properties token results after
    = Some result ->
    HubSpot.searchLoop (fuel + extra) server endpoint filters properties token
      results after = Some result.
Proof.
  induction fuel as [|fuel IH]; intros results after result extra H; [discriminate|].
  cbn [Nat.add HubSpot.searchLoop] in *.
  destruct (server _) as [message|status text|data next]; try exact H.
  destruct (truthyString next); [now apply IH | exact H].
Qed.

(** X17.  [hubspotSearch] follows the cursors: when HubSpot answers a
    chain of pages, each with the cursor to the next, and then a page
    with no cursor (or an empty one), the search returns the items of all
    of them in order. *)
Theorem hubspotSearch_returns_every_page (server : HubSpot.Server)
    (endpoint : string) (filters : list HubSpot.Filter) (properties : list string)
    (token : string) (pages : list (list HubSpot.Item * string))
    (results : option (list HubSpot.Item)) (next : option string) (fuel : nat) :
  cursorsFollowed server (searchRequest endpoint filters properties token) None pages ->
  server (searchRequest endpoint filters properties token (cursorAfter None pages))
  = HubSpot.Ok results next ->
  truthyString next = false ->
  (length pages < fuel)%nat ->
  HubSpot.hubspotSearch fuel server endpoint filters properties token
  = Some (Returned (concat (map fst pages) ++ default [] results)).
Proof.
  intros Hfollowed Hlast Hnext Hfuel. unfold HubSpot.hubspotSearch.
  replace fuel with (length pages + S (fuel - S (length pages)))%nat by lia.
  rewrite (searchLoop_cursorsFollowed _ _ _ _ _ _ _ _ _ Hfollowed).
  cbn [HubSpot.searchLoop app]. unfold searchRequest in Hlast.
  now rewrite Hlast, Hnext.
Qed.

(** A page with a cursor, then a page without one. *)
Lemma hubspotSearch_returns_every_page_witness :
  HubSpot.hubspotSearch 2 twoPages "contacts"
    (HubSpot.leadFilters "2024-01-01" "2024-01-31") ["saltbox_location"%string] "pat"
  = Some (Returned (firstPage ++ [contactAt "Denver"])).
Proof.
  apply (hubspotSearch_returns_every_page twoPages "contacts"
           (HubSpot.leadFilters "2024-01-01" "2024-01-31") ["saltbox_location"%string]
           "pat" [(firstPage, "100"%string)] (Some [contactAt "Denver"]) None 2).
  - split; [|split; [reflexivity | exact I]].
    exists (Some firstPage). split; reflexivity.
  - reflexivity.
  - reflexivity.
  - vm_compute. lia.
Defined.

(** X18.  A response that is not OK ends the search without an error:
    [hubspotSearch] returns the items of the pages it had before, none
    at all when the first response fails, as if they were all there
    were. *)
Theorem hubspotSearch_error_returns_the_pages_so_far (server : HubSpot.Server)
    (endpoint : string) (filters : list HubSpot.Filter) (properties : list string)
    (token : string) (pages : list (list HubSpot.Item * string))
    (status : Z) (text : string) (fuel : nat) :
  cursorsFollowed server (searchRequest endpoint filters properties token) None pages ->
  server (searchRequest endpoint filters properties token (cursorAfter None pages))
  = HubSpot.NotOk status text ->
  (length pages < fuel)%nat ->
  HubSpot.hubspotSearch fuel server endpoint filters properties token
  = Some (Returned (concat (map fst pages))).
Proof.
  intros Hfollowed Hlast Hfuel. unfold HubSpot.hubspotSearch.
  replace fuel with (length pages + S (fuel - S (length pages)))%nat by lia.
  rewrite (searchLoop_cursorsFollowed _ _ _ _ _ _ _ _ _ Hfollowed).
  cbn [HubSpot.searchLoop app]. unfold searchRequest in Hlast.
  now rewrite Hlast.
Qed.

(** A page with a cursor, then a response with status 429. *)
Lemma hubspotSearch_error_returns_the_pages_so_far_witness :
  HubSpot.hubspotSearch 2 failsOnSecondPage "contacts"
    (HubSpot.leadFilters "2024-01-01" "2024-01-31") ["saltbox_location"%string] "pat"
  = Some (Returned firstPage).
Proof.
  apply (hubspotSearch_error_returns_the_pages_so_far failsOnSecondPage "contacts"
           (HubSpot.leadFilters "2024-01-01" "2024-01-31") ["saltbox_location"%string]
           "pat" [(firstPage, "100"%string)] 429 "rate limit" 2).
  - split; [|split; [reflexivity | exact I]].
    exists (Some firstPage). split; reflexivity.
  - reflexivity.
  - vm_compute. lia.
Defined.

Lemma searchLoop_stuck server endpoint filters properties token cursor data :
  server (searchRequest endpoint filters properties token (Some cursor))
  = HubSpot.Ok data (Some cursor) ->
  truthyString (Some cursor) = true ->
  forall fuel results,
    HubSpot.searchLoop fuel server endpoint filters properties token results
      (Some cursor) = None.
Proof.
  intros Hresp Htruthy. induction fuel as [|fuel IH]; intros results; [reflexivity|].
  cbn [HubSpot.searchLoop]. unfold searchRequest in Hresp.
  rewrite Hresp, Htruthy. apply IH.
Qed.

(** X19.  The loop of [hubspotSearch] has no bound of its own either:
    when HubSpot answers a request with the cursor the request came
    with, the search asks again with it for ever and never returns. *)
Theorem hubspotSearch_repeated_cursor_never_returns (server : HubSpot.Server)
    (endpoint : string) (filters : list HubSpot.Filter) (properties : list string)
    (token : string) (pages : list (list HubSpot.Item * string))
    (cursor : string) (data : option (list HubSpot.Item)) :
  cursorsFollowed server (searchRequest endpoint filters properties token) None pages ->
  cursorAfter None pages = Some cursor ->
  server (searchRequest endpoint filters properties token (Some cursor))
  = HubSpot.Ok data (Some cursor) ->
  forall fuel,
    HubSpot.hubspotSearch fuel server endpoint filters properties token = None.
Proof.
  intros Hfollowed Hcursor Hlast fuel. unfold HubSpot.hubspotSearch.
  assert (Htruthy : truthyString (Some cursor) = true).
  { destruct pages as [|page rest] using rev_ind; [discriminate|].
    unfold cursorAfter in Hcursor. rewrite fold_left_app in Hcursor.
    cbn in Hcursor. injection Hcursor as <-.
    clear -Hfollowed. revert Hfollowed. generalize (@None string).
    induction rest as [|p rest IH]; intros after H.
    - destruct H as [_ [H _]]. exact H.
    - destruct H as [_ [_ H]]. exact (IH _ H). }
  destruct (decide (fuel <= length pages)%nat) as [Hle | Hgt].
  - destruct (HubSpot.searchLoop fuel server endpoint filters properties token [] None)
      as [result|] eqn:E; [|reflexivity].
    apply (searchLoop_more_fuel _ _ _ _ _ _ _ _ _ (S (length pages) - fuel)) in E.
    replace (fuel + (S (length pages) - fuel))%nat with (length pages + 1)%nat in E by lia.
    rewrite (searchLoop_cursorsFollowed _ _ _ _ _ _ _ _ _ Hfollowed), Hcursor in E.
    now rewrite (searchLoop_stuck _ _ _ _ _ _ _ Hlast Htruthy) in E.
  - replace fuel with (length pages + (fuel - length pages))%nat by lia.
    rewrite (searchLoop_cursorsFollowed _ _ _ _ _ _ _ _ _ Hfollowed), Hcursor.
    now apply (searchLoop_stuck _ _ _ _ _ _ _ Hlast Htruthy).
Qed.

(** Every answer carries the cursor 100. *)
Lemma hubspotSearch_repeated_cursor_never_returns_witness :
  HubSpot.hubspotSearch 500 sameCursorAgain "contacts"
    (HubSpot.leadFilters "2024-01-01" "2024-01-31") ["saltbox_location"%string] "pat"
  = None.
Proof.
  apply (hubspotSearch_repeated_cursor_never_returns sameCursorAgain "contacts"
           (HubSpot.leadFilters "2024-01-01" "2024-01-31") ["saltbox_location"%string]
           "pat" [(firstPage, "100"%string)] "100" (Some firstPage)).
  - split; [|split; [reflexivity | exact I]].
    exists (Some firstPage). split; reflexivity.
  - reflexivity.
  - reflexivity.
Defined.

Lemma countStep_fold locationProp results : forall counts c,
  countOrZero (fold_left (HubSpot.countStep locationProp) results counts) c
  = (countOrZero counts c
     + N.of_nat (length (filter (fun item =>
         HubSpot.mappedKey (HubSpot.locationOf item locationProp) = Some c) results)))%N.
Proof.
  induction results as [|item rest IH]; intros counts c.
  - cbn. lia.
  - cbn [fold_left]. rewrite IH, filter_cons. unfold HubSpot.countStep.
    destruct (HubSpot.mappedKey (HubSpot.locationOf item locationProp)) as [mapped|].
    + destruct (decide (Some mapped = Some c)) as [[= ->] | Hne].
      * unfold countOrZero at 1. rewrite lookup_insert_eq. cbn [default from_option id length].
        fold (countOrZero counts c). lia.
      * unfold countOrZero at 1. rewrite lookup_insert_ne by congruence.
        fold (countOrZero counts c). lia.
    + destruct (decide (None = Some c)); [discriminate | lia].
Qed.

Lemma snd_injective {A B : Type} (l : list (A * B)) (a a' : A) (b : B) :
  NoDup (map snd l) -> (a, b) ∈ l -> (a', b) ∈ l -> a = a'.
Proof.
  induction l as [|[x y] l IH]; intros Hnd H1 H2; [now apply elem_of_nil in H1|].
  cbn [map snd] in Hnd. apply NoDup_cons in Hnd as [Hy Hnd].
  assert (Hin : forall a0, (a0, y) ∈ l -> False).
  { intros a0 H0. apply Hy. change (map snd l) with (snd <$> l).
    apply list_elem_of_fmap. now exists (a0, y). }
  apply elem_of_cons in H1 as [E1 | H1]; apply elem_of_cons in H2 as [E2 | H2].
  - congruence.
  - injection E1 as -> ->. exfalso. eauto.
  - injection E2 as -> ->. exfalso. eauto.
  - now apply IH.
Qed.

Lemma HUBSPOT_LOCATION_MAP_injective name name' code :
  HUBSPOT_LOCATION_MAP !! name = Some code ->
  HUBSPOT_LOCATION_MAP !! name' = Some code ->
  name = name'.
Proof.
  intros H1 H2. apply elem_of_map_to_list in H1, H2.
  apply (snd_injective (map_to_list HUBSPOT_LOCATION_MAP) name name' code); auto.
  apply (bool_decide_unpack _). vm_compute. exact I.
Qed.

Lemma HUBSPOT_LOCATION_MAP_codes name code :
  HUBSPOT_LOCATION_MAP !! name = Some code -> code ∈ LOCATIONS.
Proof.
  intros H.
  assert (Hall : Forall (fun entry => snd entry ∈ LOCATIONS)
                   (map_to_list HUBSPOT_LOCATION_MAP)).
  { apply (bool_decide_unpack _). vm_compute. exact I. }
  apply elem_of_map_to_list in H.
  rewrite Forall_forall in Hall. exact (Hall (name, code) H).
Qed.

Lemma Object_prototype_no_code name code :
  Object_prototype !! name = Some code -> code ∉ LOCATIONS.
Proof.
  intros H.
  assert (Hall : Forall (fun entry => snd entry ∉ LOCATIONS)
                   (map_to_list Object_prototype)).
  { apply (bool_decide_unpack _). vm_compute. exact I. }
  apply elem_of_map_to_list in H.
  rewrite Forall_forall in Hall. exact (Hall (name, code) H).
Qed.

Lemma mappedKey_code loc code :
  code ∈ LOCATIONS ->
  HubSpot.mappedKey loc = Some code <-> HUBSPOT_LOCATION_MAP !! loc = Some code.
Proof.
  intros Hcode. unfold HubSpot.mappedKey.
  destruct (HUBSPOT_LOCATION_MAP !! loc) as [c|] eqn:E; [tauto|].
  split; [|discriminate].
  intros H. exfalso. exact (Object_prototype_no_code _ _ H Hcode).
Qed.

(** X20.  The count [countByLocation] gives a location code is the
    number of items whose location property is the HubSpot name of that
    location; an item with another name, with none, or with no
    properties adds to the count of no location. *)
Theorem countByLocation_counts_by_name (results : list HubSpot.Item)
    (locationProp name code : string) :
  HUBSPOT_LOCATION_MAP !! name = Some code ->
  countOrZero (HubSpot.countByLocation results locationProp) code
  = N.of_nat (length (itemsAt name locationProp results)).
Proof.
  intros Hname. unfold HubSpot.countByLocation, itemsAt.
  rewrite countStep_fold. unfold countOrZero at 1. rewrite lookup_empty.
  cbn [default from_option]. rewrite N.add_0_l. f_equal. f_equal.
  apply list_filter_iff. intros item.
  rewrite (mappedKey_code _ _ (HUBSPOT_LOCATION_MAP_codes _ _ Hname)).
  split.
  - intros H. exact (HUBSPOT_LOCATION_MAP_injective _ _ _ H Hname).
  - now intros ->.
Qed.

(** Two contacts in Denver among four. *)
Lemma countByLocation_counts_by_name_witness :
  countOrZero (HubSpot.countByLocation (firstPage ++ [contactAt "Denver"])
                 "saltbox_location") "DEN-PH" = 2%N.
Proof.
  rewrite (countByLocation_counts_by_name (firstPage ++ [contactAt "Denver"])
             "saltbox_location" "Denver" "DEN-PH").
  - vm_compute. reflexivity.
  - vm_compute. reflexivity.
Defined.

Lemma sumN_map_add {A : Type} (f g : A -> N) (l : list A) :
  sumN (map (fun a => (f a + g a)%N) l) = (sumN (map f l) + sumN (map g l))%N.
Proof.
  induction l as [|a l IH]; [reflexivity|].
  cbn [map]. rewrite !sumN_cons, IH. lia.
Qed.

Lemma sumN_indicator (codes : list string) (k : option string) :
  NoDup codes ->
  sumN (map (fun c => if decide (k = Some c) then 1%N else 0%N) codes)
  = if decide (Exists (fun c => k = Some c) codes) then 1%N else 0%N.
Proof.
  induction codes as [|c codes IH]; intros Hnd.
  - cbn. destruct (decide _) as [H | _]; [|reflexivity].
    now apply Exists_nil in H.
  - apply NoDup_cons in Hnd as [Hc Hnd]. cbn [map]. rewrite sumN_cons, (IH Hnd).
    destruct (decide (k = Some c)) as [-> | Hne].
    + destruct (decide (Exists (fun c0 => Some c = Some c0) codes)) as [H | _].
      * exfalso. apply Exists_exists in H as (c0 & Hc0 & [= <-]). contradiction.
      * destruct (decide _) as [_ | Hno]; [reflexivity|].
        exfalso. apply Hno. now left.
    + destruct (decide (Exists (fun c0 => k = Some c0) codes)) as [H | Hno].
      * destruct (decide _) as [_ | Hno']; [reflexivity|].
        exfalso. apply Hno'. now right.
      * destruct (decide _) as [H | _]; [|reflexivity].
        exfalso. apply Exists_cons in H as [H | H]; [congruence | contradiction].
Qed.

Lemma knownLocation_iff loc :
  is_Some (HUBSPOT_LOCATION_MAP !! loc)
  <-> Exists (fun c => HubSpot.mappedKey loc = Some c) LOCATIONS.
Proof.
  rewrite Exists_exists. split.
  - intros [code Hcode]. exists code.
    pose proof (HUBSPOT_LOCATION_MAP_codes _ _ Hcode) as Hin.
    split; [exact Hin|]. now apply mappedKey_code.
  - intros (code & Hin & Hkey). exists code. now apply mappedKey_code.
Qed.

(** X21.  Over the enumerated locations the counts of
    [countByLocation] add up to the number of items whose location
    property names a location of the table, so never to more than the
    number of items: no item is counted twice. *)
Theorem countByLocation_counts_each_item_once (results : list HubSpot.Item)
    (locationProp : string) :
  countOverLocations (countOrZero (HubSpot.countByLocation results locationProp))
  = N.of_nat (length (itemsWithKnownLocation locationProp results))
  /\ (countOverLocations (countOrZero (HubSpot.countByLocation results locationProp))
      <= N.of_nat (length results))%N.
Proof.
  assert (Heq : countOverLocations
                  (countOrZero (HubSpot.countByLocation results locationProp))
                = N.of_nat (length (itemsWithKnownLocation locationProp results))).
  { unfold countOverLocations, HubSpot.countByLocation, itemsWithKnownLocation.
    rewrite (map_ext _ (fun c => N.of_nat (length (filter (fun item =>
               HubSpot.mappedKey (HubSpot.locationOf item locationProp) = Some c)
               results)))).
    2:{ intros c. rewrite countStep_fold. unfold countOrZero.
        rewrite lookup_empty. cbn [default from_option]. lia. }
    induction results as [|item rest IH].
    - generalize LOCATIONS as codes. induction codes as [|c codes IHc]; [reflexivity|].
      cbn [map]. rewrite sumN_cons, IHc. reflexivity.
    - rewrite filter_cons.
      rewrite (map_ext _ (fun c =>
                 ((if decide (HubSpot.mappedKey (HubSpot.locationOf item locationProp)
                              = Some c) then 1 else 0)
                  + N.of_nat (length (filter (fun item =>
                      HubSpot.mappedKey (HubSpot.locationOf item locationProp) = Some c)
                      rest)))%N)).
      2:{ intros c. rewrite filter_cons. destruct (decide _); cbn [length]; lia. }
      rewrite sumN_map_add, IH, (sumN_indicator _ _ LOCATIONS_NoDup).
      destruct (decide (is_Some _)) as [Hk | Hk];
        destruct (decide (Exists _ _)) as [He | He]; cbn [length]; try lia.
      + exfalso. apply He. now apply knownLocation_iff.
      + exfalso. apply Hk. now apply knownLocation_iff. }
  split; [exact Heq|]. rewrite Heq. unfold itemsWithKnownLocation.
  pose proof (length_filter (fun item => is_Some (HUBSPOT_LOCATION_MAP
                !! HubSpot.locationOf item locationProp)) results). lia.
Qed.

Lemma legacyLeadsLoop_searchLoop server token startDate endDate fuel :
  forall results after,
    HubSpot.legacyLeadsLoop fuel server token startDate endDate
      (HubSpot.countByLocation results "saltbox_location") after
    = mapOutcome (fun contacts => HubSpot.countByLocation contacts "saltbox_location")
        (HubSpot.searchLoop fuel server "contacts"
           (HubSpot.leadFilters startDate endDate) ["saltbox_location"%string] token
           results after).
Proof.
  induction fuel as [|fuel IH]; intros results after; [reflexivity|].
  cbn [HubSpot.legacyLeadsLoop HubSpot.searchLoop].
  destruct (server _) as [message|status text|data next]; try reflexivity.
  assert (Hcount : fold_left (HubSpot.countStep "saltbox_location") (default [] data)
                     (HubSpot.countByLocation results "saltbox_location")
                   = HubSpot.countByLocation (results ++ default [] data)
                       "saltbox_location").
  { unfold HubSpot.countByLocation. now rewrite fold_left_app. }
  rewrite Hcount. destruct (truthyString next); [apply IH | reflexivity].
Qed.

(** X22.  The pull of the leads in the older variant, which counts the
    contacts page by page inside its own loop, and the pull of the
    current script, which collects them with [hubspotSearch] and counts
    them with [countByLocation] afterwards, give the same result for
    every environment, service and window: the same counts, the same
    error, the same exit, and neither returns when the other does not. *)
Theorem legacy_lead_pull_is_search_then_count (fuel : nat) (environment : Env)
    (server : HubSpot.Server) (startDate endDate : string) :
  HubSpot.legacyPullHubSpotLeads fuel environment server startDate endDate
  = HubSpot.pullHubSpotLeads fuel environment server startDate endDate.
Proof.
  unfold HubSpot.legacyPullHubSpotLeads, HubSpot.pullHubSpotLeads,
    HubSpot.hubspotSearch.
  destruct (env environment "HUBSPOT_TOKEN" true) as [token|code stderr];
    [|reflexivity].
  cbn [thenDo]. f_equal.
  exact (legacyLeadsLoop_searchLoop server token startDate endDate fuel [] None).
Qed.

(* ===================================================================== *)
(** * The environment *)
(* ===================================================================== *)

Lemma env_required environment name :
  env environment name true
  = if truthyString (environment !! name)
    then Continues (default EmptyString (environment !! name))
    else Exits 1 ("Missing required environment variable: " +:+ name).
Proof.
  unfold env, orEmpty. destruct (truthyString (environment !! name)); reflexivity.
Qed.

(** X23.  [createNetSuiteClient] goes on exactly when each of its five
    variables is set to a text that is not empty; otherwise the process
    exits with code 1, naming the first of them, in the order they are
    read, that is missing or empty.  The realm of the client is the
    account id as it is set. *)
Theorem createNetSuiteClient_needs_all_five (environment : Env) :
  (Forall (fun name => truthyString (environment !! name) = true) netSuiteVariables ->
   exists ns, NetSuite.createNetSuiteClient environment = Continues ns
              /\ environment !! "NETSUITE_ACCOUNT_ID" = Some (NetSuite.realm ns))
  /\ (forall before name rest,
        netSuiteVariables = before ++ name :: rest ->
        Forall (fun name => truthyString (environment !! name) = true) before ->
        truthyString (environment !! name) = false ->
        NetSuite.createNetSuiteClient environment
        = Exits 1 ("Missing required environment variable: " +:+ name)).
Proof.
  unfold NetSuite.createNetSuiteClient, netSuiteVariables. split.
  - intros Hall.
    repeat (apply Forall_cons in Hall as [?H Hall]).
    rewrite !env_required.
    repeat match goal with H : truthyString _ = true |- _ => rewrite H end.
    cbn [thenDo]. eexists. split; [reflexivity|]. cbn [NetSuite.realm].
    destruct (environment !! "NETSUITE_ACCOUNT_ID"); [reflexivity|].
    match goal with H : truthyString None = true |- _ => discriminate H end.
  - intros before name rest Hsplit Hbefore Hmissing.
    rewrite !env_required.
    destruct before as [|b1 before]; [injection Hsplit as <- <-|
      injection Hsplit as <- Hsplit; apply Forall_cons in Hbefore as [H1 Hbefore];
      rewrite H1; cbn [thenDo]].
    { now rewrite Hmissing. }
    destruct before as [|b2 before]; [injection Hsplit as <- <-|
      injection Hsplit as <- Hsplit; apply Forall_cons in Hbefore as [H2 Hbefore];
      rewrite H2; cbn [thenDo]].
    { now rewrite Hmissing. }
    destruct before as [|b3 before]; [injection Hsplit as <- <-|
      injection Hsplit as <- Hsplit; apply Forall_cons in Hbefore as [H3 Hbefore];
      rewrite H3; cbn [thenDo]].
    { now rewrite Hmissing. }
    destruct before as [|b4 before]; [injection Hsplit as <- <-|
      injection Hsplit as <- Hsplit; apply Forall_cons in Hbefore as [H4 Hbefore];
      rewrite H4; cbn [thenDo]].
    { now rewrite Hmissing. }
    destruct before as [|b5 before]; [injection Hsplit as <- <-|
      injection Hsplit as <- Hsplit].
    { now rewrite Hmissing. }
    destruct before; discriminate.
Qed.

(** Every variable set, and the consumer key set to the empty text. *)
Lemma createNetSuiteClient_needs_all_five_witness :
  (exists ns, NetSuite.createNetSuiteClient sampleEnv = Continues ns
              /\ sampleEnv !! "NETSUITE_ACCOUNT_ID" = Some (NetSuite.realm ns))
  /\ NetSuite.createNetSuiteClient
       (<["NETSUITE_CONSUMER_KEY" := EmptyString]> sampleEnv)
     = Exits 1 "Missing required environment variable: NETSUITE_CONSUMER_KEY".
Proof.
  destruct (createNetSuiteClient_needs_all_five sampleEnv) as [Hgo _].
  destruct (createNetSuiteClient_needs_all_five
              (<["NETSUITE_CONSUMER_KEY" := EmptyString]> sampleEnv)) as [_ Hexit].
  split.
  - apply Hgo. apply (bool_decide_unpack _). vm_compute. exact I.
  - apply (Hexit ["NETSUITE_ACCOUNT_ID"%string] "NETSUITE_CONSUMER_KEY"%string
             ["NETSUITE_CONSUMER_SECRET"; "NETSUITE_TOKEN_ID";
              "NETSUITE_TOKEN_SECRET"]%string).
    + reflexivity.
    + apply (bool_decide_unpack _). vm_compute. exact I.
    + vm_compute. reflexivity.
Defined.

(* ===================================================================== *)
(** * The host name of the NetSuite account *)
(* ===================================================================== *)

Lemma hostChar_clean (c : ascii) :
  let h := lowerCaseOf (if Ascii.eqb c "_" then "-"%char else c) in
  isUnderscore h = false /\ isUpperCase h = false
  /\ lowerCaseOf (if Ascii.eqb h "_" then "-"%char else h) = h.
Proof.
  destruct c as [[] [] [] [] [] [] [] []]; vm_compute; auto.
Qed.

Lemma hostChar_fixed (c : ascii) :
  lowerCaseOf (if Ascii.eqb c "_" then "-"%char else c) = c
  <-> isUnderscore c = false /\ isUpperCase c = false.
Proof.
  destruct c as [[] [] [] [] [] [] [] []]; vm_compute;
    (split; [intros H; try discriminate H; auto | intros [H1 H2]; try discriminate; auto]).
Qed.

Lemma hostOf_cons c s :
  NetSuite.hostOf (String c s)
  = String (lowerCaseOf (if Ascii.eqb c "_" then "-"%char else c)) (NetSuite.hostOf s).
Proof. reflexivity. Qed.

Lemma countOf_cons p c s :
  countOf p (String c s) = ((if p c then 1 else 0) + countOf p s)%nat.
Proof. unfold countOf. cbn. destruct (p c); reflexivity. Qed.

Lemma hostOf_fixed (s : string) :
  NetSuite.hostOf s = s
  <-> countOf isUnderscore s = 0%nat /\ countOf isUpperCase s = 0%nat.
Proof.
  induction s as [|c s IH]; [split; auto|].
  rewrite hostOf_cons, !countOf_cons. split.
  - intros [= Hc Hs]. apply hostChar_fixed in Hc as [-> ->].
    apply IH in Hs as [-> ->]. auto.
  - intros [H1 H2].
    assert (Hc : isUnderscore c = false /\ isUpperCase c = false).
    { destruct (isUnderscore c), (isUpperCase c); auto; discriminate. }
    destruct Hc as [Hu Hup]. rewrite Hu, Hup in *.
    f_equal; [now apply hostChar_fixed | apply IH; auto].
Qed.

Lemma legacyHostOf_agrees (s : string) :
  NetSuite.legacyHostOf s = NetSuite.hostOf s
  <-> (countOf isUnderscore s <= 1)%nat /\ countOf isUpperCase s = 0%nat.
Proof.
  unfold NetSuite.legacyHostOf.
  induction s as [|c s IH]; [split; auto|].
  rewrite hostOf_cons, !countOf_cons. cbn [replaceFirst].
  pose proof (hostChar_fixed c) as Hfixed.
  unfold isUnderscore at 1. unfold isUnderscore in Hfixed.
  destruct (Ascii.eqb c "_") eqn:Ec.
  - apply Ascii.eqb_eq in Ec as ->. change (isUpperCase "_") with false.
    change (lowerCaseOf "-") with "-"%char. cbn [Nat.add].
    split.
    + intros [= Hs]. symmetry in Hs. apply hostOf_fixed in Hs as [-> ->]. lia.
    + intros [H1 H2]. f_equal. symmetry. apply hostOf_fixed. lia.
  - cbn [Nat.add]. split.
    + intros [= Hc Hs]. symmetry in Hc. apply Hfixed in Hc as [_ ->].
      apply IH in Hs. lia.
    + intros [H1 H2]. destruct (isUpperCase c) eqn:Eup; [lia|].
      f_equal; [symmetry; apply Hfixed; auto | apply IH; lia].
Qed.

(** X28.  For an account id of ASCII characters, the host name the
    current script asks NetSuite at has no underscore and no capital
    letter, and is left as it is when it is made a host name again.
    The older variant replaced the first underscore only and kept the
    capitals: both ask at the same host exactly for an account id with
    no capital letter and at most one underscore. *)
Theorem host_name_of_the_account (accountId : string) :
  isASCII accountId = true ->
  countOf isUnderscore (NetSuite.hostOf accountId) = 0%nat
  /\ countOf isUpperCase (NetSuite.hostOf accountId) = 0%nat
  /\ NetSuite.hostOf (NetSuite.hostOf accountId) = NetSuite.hostOf accountId
  /\ (NetSuite.legacyHostOf accountId = NetSuite.hostOf accountId
      <-> (countOf isUnderscore accountId <= 1)%nat
          /\ countOf isUpperCase accountId = 0%nat).
Proof.
  intros _.
  assert (Hclean : countOf isUnderscore (NetSuite.hostOf accountId) = 0%nat
                   /\ countOf isUpperCase (NetSuite.hostOf accountId) = 0%nat).
  { induction accountId as [|c s IH]; [split; reflexivity|].
    rewrite hostOf_cons, !countOf_cons.
    destruct (hostChar_clean c) as (-> & -> & _). exact IH. }
  split; [apply Hclean|]. split; [apply Hclean|].
  split; [now apply hostOf_fixed|].
  apply legacyHostOf_agrees.
Qed.

(** The account id of a sandbox: one underscore, three capitals. *)
Lemma host_name_of_the_account_witness :
  NetSuite.hostOf (NetSuite.hostOf "1234567_SB1") = NetSuite.hostOf "1234567_SB1".
Proof.
  apply (host_name_of_the_account "1234567_SB1"). reflexivity.
Defined.

(* ===================================================================== *)
(** * The bounds of the HubSpot filters *)
(* ===================================================================== *)

Lemma readDigits_year y :
  1000 <= y <= 9999 -> readDigits (String_of_int y) = Some y.
Proof.
  intros Hy.
  assert (Hall : allFrom (fun z => bool_decide (readDigits (String_of_int z) = Some z))
                   1000 (Z.to_nat 9000) = true) by (vm_compute; reflexivity).
  pose proof (allFrom_spec _ _ _ y Hall ltac:(lia)) as H.
  now apply bool_decide_eq_true_1 in H.
Qed.

Lemma readDigits_padStart2 n :
  0 <= n <= 99 -> readDigits (padStart2 (String_of_int n)) = Some n.
Proof.
  intros Hn.
  assert (Hall : allFrom (fun z => bool_decide
                            (readDigits (padStart2 (String_of_int z)) = Some z))
                   0 (Z.to_nat 100) = true) by (vm_compute; reflexivity).
  pose proof (allFrom_spec _ _ _ n Hall ltac:(lia)) as H.
  now apply bool_decide_eq_true_1 in H.
Qed.

Lemma string_of_length_2 (s : string) :
  String.length s = 2%nat -> exists a b, s = String a (String b EmptyString).
Proof.
  destruct s as [|a [|b [|c s]]]; try discriminate. eauto.
Qed.

Lemma string_of_length_4 (s : string) :
  String.length s = 4%nat ->
  exists a b c d, s = String a (String b (String c (String d EmptyString))).
Proof.
  destruct s as [|a [|b [|c [|d [|e s]]]]]; try discriminate. eauto.
Qed.

(** A text [YYYY-MM-DD] made of a year, a month and a day that read
    back as numbers of the calendar. *)
Lemma Date_parse_date yyyy mm dd y m d :
  String.length yyyy = 4%nat -> String.length mm = 2%nat -> String.length dd = 2%nat ->
  readDigits yyyy = Some y -> readDigits mm = Some m -> readDigits dd = Some d ->
  1 <= m <= 12 -> 1 <= d <= daysInMonth y m ->
  Date_parse (yyyy +:+ "-" +:+ mm +:+ "-" +:+ dd)
  = Some (JSDate.MakeDay y (m - 1) d * msPerDay)
  /\ Date_parse ((yyyy +:+ "-" +:+ mm +:+ "-" +:+ dd) +:+ "T23:59:59Z")
     = Some (JSDate.MakeDay y (m - 1) d * msPerDay + 86399000).
Proof.
  intros Ly Lm Ld Hy Hm Hd Rm Rd.
  apply string_of_length_4 in Ly as (y1 & y2 & y3 & y4 & ->).
  apply string_of_length_2 in Lm as (m1 & m2 & ->).
  apply string_of_length_2 in Ld as (d1 & d2 & ->).
  assert (Hcheck : ((1 <=? m) && (m <=? 12) && (1 <=? d) && (d <=? daysInMonth y m))%bool
                   = true).
  { rewrite !andb_true_iff, !Z.leb_le. lia. }
  assert (Hdate : parseDateOnly
                    (String y1 (String y2 (String y3 (String y4 (String "-"
                      (String m1 (String m2 (String "-"
                        (String d1 (String d2 EmptyString))))))))))
                  = Some (JSDate.MakeDay y (m - 1) d)).
  { unfold parseDateOnly.
    change (substring 0 4 _) with (String y1 (String y2 (String y3 (String y4 EmptyString)))).
    change (substring 5 2 _) with (String m1 (String m2 EmptyString)).
    change (substring 8 2 _) with (String d1 (String d2 EmptyString)).
    change (Nat.eqb _ 10 && _ && _)%bool with true.
    cbv iota. rewrite Hy, Hm, Hd, Hcheck. reflexivity. }
  split.
  - unfold Date_parse.
    change (String y1 (String y2 (String y3 (String y4 EmptyString))) +:+ "-"
            +:+ String m1 (String m2 EmptyString) +:+ "-"
            +:+ String d1 (String d2 EmptyString))
      with (String y1 (String y2 (String y3 (String y4 (String "-"
              (String m1 (String m2 (String "-"
                (String d1 (String d2 EmptyString)))))))))).
    now rewrite Hdate.
  - unfold Date_parse.
    change ((String y1 (String y2 (String y3 (String y4 EmptyString))) +:+ "-"
             +:+ String m1 (String m2 EmptyString) +:+ "-"
             +:+ String d1 (String d2 EmptyString)) +:+ "T23:59:59Z")
      with (String y1 (String y2 (String y3 (String y4 (String "-"
              (String m1 (String m2 (String "-"
                (String d1 (String d2 "T23:59:59Z")))))))))).
    change (substring 0 10 _)
      with (String y1 (String y2 (String y3 (String y4 (String "-"
              (String m1 (String m2 (String "-"
                (String d1 (String d2 EmptyString)))))))))).
    change (substring 10 10 _) with "T23:59:59Z"%string.
    rewrite Hdate.
    replace (parseDateOnly _) with (@None Z).
    + reflexivity.
    + unfold parseDateOnly. reflexivity.
Qed.

Lemma calendarWindow_bounds idx :
  12000 <= idx < 120000 ->
  HubSpot.startMsOf (start (calendarWindow idx))
  = Some (JSDate.MakeDay (idx / 12) (idx mod 12) 1 * msPerDay)
  /\ HubSpot.endMsOf (end_ (calendarWindow idx))
     = Some (JSDate.MakeDay (idx / 12) (idx mod 12 + 1) 1 * msPerDay - 1000).
Proof.
  intros Hidx.
  pose proof (Z.mod_pos_bound idx 12 ltac:(lia)) as Hm.
  assert (Hy : 1000 <= idx / 12 <= 9999) by (Z.div_mod_to_equations; lia).
  pose proof (daysInMonth_range (idx / 12) (idx mod 12 + 1) ltac:(lia)) as Hd.
  unfold HubSpot.startMsOf, HubSpot.endMsOf, calendarWindow. cbn [start end_].
  set (y := idx / 12) in *. set (m := idx mod 12 + 1) in *.
  split.
  - change "-01"%string with ("-" +:+ padStart2 (String_of_int 1))%string.
    destruct (Date_parse_date (String_of_int y) (padStart2 (String_of_int m))
                (padStart2 (String_of_int 1)) y m 1) as [H _].
    + now apply String_of_int_4_digits.
    + apply padStart2_2_digits. lia.
    + reflexivity.
    + now apply readDigits_year.
    + apply readDigits_padStart2. lia.
    + reflexivity.
    + lia.
    + lia.
    + rewrite H. do 2 f_equal. unfold m. f_equal. lia.
  - destruct (Date_parse_date (String_of_int y) (padStart2 (String_of_int m))
                (padStart2 (String_of_int (daysInMonth y m))) y m (daysInMonth y m))
      as [_ H].
    + now apply String_of_int_4_digits.
    + apply padStart2_2_digits. lia.
    + apply padStart2_2_digits. lia.
    + now apply readDigits_year.
    + apply readDigits_padStart2. lia.
    + apply readDigits_padStart2. lia.
    + lia.
    + lia.
    + rewrite H. f_equal.
      replace (m - 1) with (idx mod 12) by (unfold m; lia).
      pose proof (MakeDay_day0_next y (idx mod 12) ltac:(lia)) as Hnext.
      fold m in Hnext. rewrite <- Hnext.
      unfold JSDate.MakeDay, msPerDay. lia.
Qed.

Lemma MakeDay_next_month idx :
  JSDate.MakeDay (idx / 12) (idx mod 12 + 1) 1
  = JSDate.MakeDay ((idx + 1) / 12) ((idx + 1) mod 12) 1.
Proof.
  unfold JSDate.MakeDay.
  pose proof (Z.mod_pos_bound idx 12 ltac:(lia)) as Hm.
  pose proof (Z.mod_pos_bound (idx + 1) 12 ltac:(lia)) as Hm'.
  rewrite (Z.div_small ((idx + 1) mod 12) 12), (Z.mod_small ((idx + 1) mod 12) 12) by lia.
  replace (idx / 12 + (idx mod 12 + 1) / 12) with ((idx + 1) / 12 + 0)
    by (Z.div_mod_to_equations; lia).
  replace ((idx mod 12 + 1) mod 12) with ((idx + 1) mod 12)
    by (Z.div_mod_to_equations; lia).
  reflexivity.
Qed.

Lemma MakeDay_month_length idx :
  28 <= daysInMonth (idx / 12) (idx mod 12 + 1) <= 31
  /\ JSDate.MakeDay (idx / 12) (idx mod 12 + 1) 1
     = JSDate.MakeDay (idx / 12) (idx mod 12) 1 + daysInMonth (idx / 12) (idx mod 12 + 1).
Proof.
  pose proof (Z.mod_pos_bound idx 12 ltac:(lia)) as Hm.
  split; [apply daysInMonth_range; lia|].
  pose proof (MakeDay_day0_next (idx / 12) (idx mod 12) ltac:(lia)) as Hday.
  unfold JSDate.MakeDay in *. lia.
Qed.

(** X24.  The two bounds a pull from HubSpot filters a window with are
    midnight UTC at the start of its first day and 23:59:59 UTC of its
    last day, whatever the time zone the windows were cut in.  From the
    upper bound of a window to the lower bound of the next there is a
    whole second: a contact or a deal stamped in the last second of a
    month, after its first millisecond, matches the filter of no
    window. *)
Theorem hubspot_bounds_leave_out_the_last_second (now : JSDate.Date) (monthsBack : Z)
    (j : nat) (month next : MonthWindow) :
  12000 <= monthIndex now - monthsBack -> monthIndex now < 120000 ->
  getMonthRange now monthsBack !! j = Some month ->
  getMonthRange now monthsBack !! S j = Some next ->
  exists startMs endMs nextStartMs,
    HubSpot.startMsOf (start month) = Some startMs
    /\ HubSpot.endMsOf (end_ month) = Some endMs
    /\ HubSpot.startMsOf (start next) = Some nextStartMs
    /\ startMs mod msPerDay = 0
    /\ startMs < endMs
    /\ endMs + 1000 = nextStartMs
    /\ (forall t, endMs < t < nextStartMs ->
          ~ (startMs <= t <= endMs) /\ ~ (nextStartMs <= t)).
Proof.
  intros Hlo Hhi Hj Hnext.
  assert (Hlen : (S j < length (getMonthRange now monthsBack))%nat).
  { apply lookup_lt_is_Some. eauto. }
  assert (Hmb : 1 <= monthsBack).
  { unfold getMonthRange in Hlen. rewrite monthLoop_length in Hlen. lia. }
  destruct (getMonthRange_lookup now monthsBack Hmb ltac:(lia)) as [Hl Hlk].
  pose proof (Hlk (Z.of_nat j) ltac:(lia)) as H1.
  pose proof (Hlk (Z.of_nat (S j)) ltac:(lia)) as H2.
  rewrite Nat2Z.id in H1, H2. rewrite Hj in H1. rewrite Hnext in H2.
  injection H1 as ->. injection H2 as ->.
  set (idx := monthIndex now - monthsBack + Z.of_nat j).
  replace (monthIndex now - monthsBack + Z.of_nat (S j)) with (idx + 1) by lia.
  destruct (calendarWindow_bounds idx ltac:(lia)) as [Hs He].
  destruct (calendarWindow_bounds (idx + 1) ltac:(lia)) as [Hs' _].
  rewrite <- MakeDay_next_month in Hs'.
  pose proof (MakeDay_month_length idx) as [Hd Hdays].
  rewrite Hdays in He, Hs'.
  generalize dependent (JSDate.MakeDay (idx / 12) (idx mod 12) 1).
  generalize dependent (daysInMonth (idx / 12) (idx mod 12 + 1)).
  intros days Hd day Hs He Hs'.
  exists (day * msPerDay), ((day + days) * msPerDay - 1000), ((day + days) * msPerDay).
  split; [exact Hs|]. split; [exact He|]. split; [exact Hs'|].
  unfold msPerDay.
  split; [apply Z.mod_mul; lia|].
  split; [lia|]. split; [lia|]. intros t Ht. lia.
Qed.

(** The windows of January and February 2024. *)
Lemma hubspot_bounds_leave_out_the_last_second_witness :
  exists startMs endMs nextStartMs,
    HubSpot.startMsOf "2024-01-01" = Some startMs
    /\ HubSpot.endMsOf "2024-01-31" = Some endMs
    /\ HubSpot.startMsOf "2024-02-01" = Some nextStartMs
    /\ startMs mod msPerDay = 0
    /\ startMs < endMs
    /\ endMs + 1000 = nextStartMs
    /\ (forall t, endMs < t < nextStartMs ->
          ~ (startMs <= t <= endMs) /\ ~ (nextStartMs <= t)).
Proof.
  apply (hubspot_bounds_leave_out_the_last_second (JSDate.mkDate 19797) 4 2
           (mkWindow "2024-01" "2024-01-01" "2024-01-31")
           (mkWindow "2024-02" "2024-02-01" "2024-02-29")).
  - vm_compute. discriminate.
  - vm_compute. reflexivity.
  - vm_compute. reflexivity.
  - vm_compute. reflexivity.
Defined.

(* ===================================================================== *)
(** * The windows and the day of the run *)
(* ===================================================================== *)

Lemma first_of_month_le (d : Z) :
  JSDate.MakeDay (JSDate.YearFromDay d) (JSDate.MonthFromDay d) 1 <= d.
Proof.
  pose proof (MonthFromDay_range d) as HM.
  pose proof (YearFromDay_spec d) as HY.
  unfold JSDate.MakeDay.
  rewrite (Z.div_small (JSDate.MonthFromDay d) 12),
          (Z.mod_small (JSDate.MonthFromDay d) 12), Z.add_0_r by lia.
  clear HM. unfold JSDate.MonthFromDay, JSDate.DayWithinYear, JSDate.InLeapYear.
  set (y := JSDate.YearFromDay d) in *.
  destruct (JSDate.DaysInYear y =? 366);
    case_ifs; bool_to_Z; cbn [JSDate.DaysBeforeMonth]; lia.
Qed.

Lemma calendarWindow_days idx :
  12000 <= idx < 120000 ->
  Date_parse (start (calendarWindow idx))
  = Some (JSDate.MakeDay (idx / 12) (idx mod 12) 1 * msPerDay)
  /\ Date_parse (end_ (calendarWindow idx))
     = Some ((JSDate.MakeDay (idx / 12) (idx mod 12) 1
              + daysInMonth (idx / 12) (idx mod 12 + 1) - 1) * msPerDay).
Proof.
  intros Hidx.
  pose proof (Z.mod_pos_bound idx 12 ltac:(lia)) as Hm.
  assert (Hy : 1000 <= idx / 12 <= 9999) by (Z.div_mod_to_equations; lia).
  pose proof (daysInMonth_range (idx / 12) (idx mod 12 + 1) ltac:(lia)) as Hd.
  split; [apply (calendarWindow_bounds idx Hidx)|].
  unfold calendarWindow. cbn [end_].
  set (y := idx / 12) in *. set (m := idx mod 12 + 1) in *.
  destruct (Date_parse_date (String_of_int y) (padStart2 (String_of_int m))
              (padStart2 (String_of_int (daysInMonth y m))) y m (daysInMonth y m))
    as [H _].
  - now apply String_of_int_4_digits.
  - apply padStart2_2_digits. lia.
  - apply padStart2_2_digits. lia.
  - now apply readDigits_year.
  - apply readDigits_padStart2. lia.
  - apply readDigits_padStart2. lia.
  - lia.
  - lia.
  - rewrite H. do 2 f_equal.
    replace (m - 1) with (idx mod 12) by (unfold m; lia).
    unfold JSDate.MakeDay. lia.
Qed.

(** X27.  The month of the run is never one of its windows.  For a run
    on the day [now], each window starts on the first and ends on the
    last day of a month, both read back from its texts, that lies
    wholly before the first day of the month of [now]; the last window
    ends on the eve of that day.  The two windows the loop always pulls
    again are thus the two whole months before the current one. *)
Theorem windows_end_before_the_month_of_the_run (now : JSDate.Date) (monthsBack : Z)
    (j : nat) (month : MonthWindow) :
  12000 <= monthIndex now - monthsBack -> monthIndex now < 120000 ->
  getMonthRange now monthsBack !! j = Some month ->
  let firstOfThisMonth :=
    JSDate.MakeDay (JSDate.getFullYear now) (JSDate.getMonth now) 1 in
  exists firstDay lastDay,
    Date_parse (start month) = Some (firstDay * msPerDay)
    /\ Date_parse (end_ month) = Some (lastDay * msPerDay)
    /\ firstDay <= lastDay
    /\ lastDay < firstOfThisMonth <= JSDate.dayNumber now
    /\ (Z.of_nat j + 1 = monthsBack -> lastDay + 1 = firstOfThisMonth).
Proof.
  intros Hlo Hhi Hj firstOfThisMonth.
  assert (Hlen : (j < length (getMonthRange now monthsBack))%nat).
  { apply lookup_lt_is_Some. eauto. }
  assert (Hmb : Z.of_nat j < monthsBack).
  { unfold getMonthRange in Hlen. rewrite monthLoop_length in Hlen. lia. }
  destruct (getMonthRange_lookup now monthsBack ltac:(lia) ltac:(lia)) as [_ Hlk].
  pose proof (Hlk (Z.of_nat j) ltac:(lia)) as H1.
  rewrite Nat2Z.id, Hj in H1. injection H1 as ->.
  pose proof (first_of_month_le (JSDate.dayNumber now)) as Hnow.
  fold (JSDate.getFullYear now) in Hnow. fold (JSDate.getMonth now) in Hnow.
  fold firstOfThisMonth in Hnow.
  assert (Hmonotone : forall a b, a <= b ->
            JSDate.MakeDay (a / 12) (a mod 12) 1 <= JSDate.MakeDay (b / 12) (b mod 12) 1).
  { intros a b Hab.
    replace b with (a + Z.of_nat (Z.to_nat (b - a))) by lia.
    generalize (Z.to_nat (b - a)) as n. clear.
    induction n as [|n IH]; [rewrite Z.add_0_r; lia|].
    replace (a + Z.of_nat (S n)) with (a + Z.of_nat n + 1) by lia.
    rewrite <- MakeDay_next_month.
    destruct (MakeDay_month_length (a + Z.of_nat n)) as [Hd ->]. lia. }
  assert (Hthis : firstOfThisMonth
                  = JSDate.MakeDay (monthIndex now / 12) (monthIndex now mod 12) 1).
  { unfold firstOfThisMonth, monthIndex.
    pose proof (MonthFromDay_range (JSDate.dayNumber now)) as HM.
    unfold JSDate.getMonth.
    replace ((12 * JSDate.getFullYear now + JSDate.MonthFromDay (JSDate.dayNumber now)) / 12)
      with (JSDate.getFullYear now) by (Z.div_mod_to_equations; lia).
    replace ((12 * JSDate.getFullYear now + JSDate.MonthFromDay (JSDate.dayNumber now)) mod 12)
      with (JSDate.MonthFromDay (JSDate.dayNumber now)) by (Z.div_mod_to_equations; lia).
    reflexivity. }
  set (idx := monthIndex now - monthsBack + Z.of_nat j).
  destruct (calendarWindow_days idx ltac:(lia)) as [Hs He].
  destruct (MakeDay_month_length idx) as [Hd Hnext].
  rewrite MakeDay_next_month in Hnext.
  pose proof (Hmonotone (idx + 1) (monthIndex now) ltac:(lia)) as Hle.
  rewrite <- Hthis in Hle.
  eexists _, _. split; [exact Hs|]. split; [exact He|].
  split; [lia|]. split; [lia|].
  intros Hlast. replace (monthIndex now) with (idx + 1) in Hthis by lia. lia.
Qed.

(** The four windows of a run on 15 March 2024: January is the third. *)
Lemma windows_end_before_the_month_of_the_run_witness :
  exists firstDay lastDay,
    Date_parse "2024-01-01" = Some (firstDay * msPerDay)
    /\ Date_parse "2024-01-31" = Some (lastDay * msPerDay)
    /\ firstDay <= lastDay
    /\ lastDay < JSDate.MakeDay 2024 2 1 <= 19797
    /\ (2 + 1 = 4 -> lastDay + 1 = JSDate.MakeDay 2024 2 1).
Proof.
  apply (windows_end_before_the_month_of_the_run (JSDate.mkDate 19797) 4 2
           (mkWindow "2024-01" "2024-01-01" "2024-01-31")).
  - vm_compute. discriminate.
  - vm_compute. reflexivity.
  - vm_compute. reflexivity.
Defined.

(* ===================================================================== *)
(** * The member counts of the windows of a run *)
(* ===================================================================== *)

Lemma Ascii_compare_code (c d : ascii) :
  Ascii.compare c d = (digitValue c ?= digitValue d).
Proof.
  unfold Ascii.compare, digitValue, nat_of_ascii.
  rewrite !N_nat_Z, <- N2Z.inj_compare.
  rewrite (Z.compare_sub (Z.of_N (N_of_ascii c) - 48)), (Z.compare_sub (Z.of_N (N_of_ascii c))).
  f_equal. lia.
Qed.

Lemma isDigit_value (c : ascii) : isDigit c = true -> 0 <= digitValue c <= 9.
Proof.
  unfold isDigit, digitValue. intros H.
  apply andb_true_iff in H as [H1 H2].
  apply Nat.leb_le in H1, H2. lia.
Qed.

(** The key of a window in a four-digit year, digit by digit. *)
Lemma calendarWindow_key_digits idx :
  12000 <= idx < 120000 ->
  exists y1 y2 y3 y4 m1 m2,
    key (calendarWindow idx)
    = String y1 (String y2 (String y3 (String y4 (String "-"
        (String m1 (String m2 EmptyString))))))
    /\ 0 <= digitValue y1 <= 9 /\ 0 <= digitValue y2 <= 9
    /\ 0 <= digitValue y3 <= 9 /\ 0 <= digitValue y4 <= 9
    /\ 0 <= digitValue m1 <= 9 /\ 0 <= digitValue m2 <= 9
    /\ 1 <= 10 * digitValue m1 + digitValue m2 <= 12
    /\ idx = 12 * (1000 * digitValue y1 + 100 * digitValue y2
                   + 10 * digitValue y3 + digitValue y4)
             + (10 * digitValue m1 + digitValue m2) - 1.
Proof.
  intros Hidx.
  pose proof (Z.mod_pos_bound idx 12 ltac:(lia)) as Hm.
  assert (Hy : 1000 <= idx / 12 <= 9999) by (Z.div_mod_to_equations; lia).
  pose proof (readDigits_year (idx / 12) Hy) as Ry.
  pose proof (readDigits_padStart2 (idx mod 12 + 1) ltac:(lia)) as Rm.
  pose proof (String_of_int_4_digits (idx / 12) Hy) as Ly.
  pose proof (padStart2_2_digits (idx mod 12 + 1) ltac:(lia)) as Lm.
  unfold calendarWindow. cbn [key].
  destruct (string_of_length_4 _ Ly) as (y1 & y2 & y3 & y4 & Ey).
  destruct (string_of_length_2 _ Lm) as (m1 & m2 & Em).
  rewrite Ey in Ry |- *. rewrite Em in Rm |- *.
  exists y1, y2, y3, y4, m1, m2. split; [reflexivity|].
  unfold readDigits in Ry, Rm. cbn [list_ascii_of_string forallb] in Ry, Rm.
  destruct (isDigit y1) eqn:D1; [|discriminate].
  destruct (isDigit y2) eqn:D2; [|discriminate].
  destruct (isDigit y3) eqn:D3; [|discriminate].
  destruct (isDigit y4) eqn:D4; [|discriminate].
  destruct (isDigit m1) eqn:D5; [|discriminate].
  destruct (isDigit m2) eqn:D6; [|discriminate].
  cbn [andb parseDigits] in Ry, Rm.
  injection Ry as Ry. injection Rm as Rm.
  apply isDigit_value in D1, D2, D3, D4, D5, D6.
  repeat (split; [assumption|]).
  split; [lia|]. Z.div_mod_to_equations. lia.
Qed.

(** The keys of the windows are in the order of their months when they
    are compared as texts, the way [getMemberCounts] compares them. *)
Lemma calendarWindow_key_leb i j :
  12000 <= i < 120000 -> 12000 <= j < 120000 ->
  String.leb (key (calendarWindow i)) (key (calendarWindow j)) = (i <=? j).
Proof.
  intros Hi Hj.
  destruct (calendarWindow_key_digits i Hi)
    as (a1 & a2 & a3 & a4 & b1 & b2 & -> & A1 & A2 & A3 & A4 & B1 & B2 & Bm & Ei).
  destruct (calendarWindow_key_digits j Hj)
    as (c1 & c2 & c3 & c4 & d1 & d2 & -> & C1 & C2 & C3 & C4 & D1 & D2 & Dm & Ej).
  unfold String.leb. cbn [String.compare].
  change (Ascii.compare "-" "-") with Eq.
  rewrite !Ascii_compare_code.
  destruct (Z.leb_spec i j) as [Hle | Hgt];
    repeat match goal with
           | |- context [?x ?= ?y] => destruct (Z.compare_spec x y)
           end; try reflexivity; exfalso; lia.
Qed.

Lemma calendarWindow_key_eqb i j :
  12000 <= i < 120000 -> 12000 <= j < 120000 ->
  String.eqb (key (calendarWindow i)) (key (calendarWindow j)) = (i =? j).
Proof.
  intros Hi Hj. destruct (Z.eqb_spec i j) as [-> | Hne].
  - apply String.eqb_refl.
  - apply String.eqb_neq. intros E. apply (f_equal monthIndexOfKey) in E.
    rewrite !monthIndexOfKey_calendarWindow in E by assumption. contradiction.
Qed.

Lemma knownMonth_keys :
  "2025-12"%string = key (calendarWindow 24311)
  /\ "2026-01"%string = key (calendarWindow 24312)
  /\ "2026-03"%string = key (calendarWindow 24314).
Proof. vm_compute. auto. Qed.

Lemma entryOf_None {V : Type} (table : list (string * V)) (k : string) :
  Forall (fun k' => String.eqb k' k = false) (map fst table) -> entryOf table k = None.
Proof.
  induction table as [|[k' v] table IH]; intros H; [reflexivity|].
  cbn [map fst] in H. apply Forall_cons in H as [H1 H2].
  cbn [entryOf]. rewrite H1. now apply IH.
Qed.

(** X29.  The member counts a window of a run is computed with, for
    every run in a four-digit year: those of the window's own month when
    it is December 2025, January 2026 or March 2026; those of January
    2026 for February 2026; and those of March 2026 for every later
    month and also for every month before December 2025, the keys being
    compared as texts. *)
Theorem window_reads_the_counts_of_a_known_month (now : JSDate.Date) (monthsBack : Z)
    (j : nat) (month : MonthWindow) :
  12000 <= monthIndex now - monthsBack -> monthIndex now < 120000 ->
  getMonthRange now monthsBack !! j = Some month ->
  getMemberCounts (key month)
  = default ∅ (entryOf KNOWN_MEMBER_COUNTS
                 (knownMonthFor (monthIndex now - monthsBack + Z.of_nat j))).
Proof.
  intros Hlo Hhi Hj.
  assert (Hlen : (j < length (getMonthRange now monthsBack))%nat).
  { apply lookup_lt_is_Some. eauto. }
  assert (Hmb : Z.of_nat j < monthsBack).
  { unfold getMonthRange in Hlen. rewrite monthLoop_length in Hlen. lia. }
  destruct (getMonthRange_lookup now monthsBack ltac:(lia) ltac:(lia)) as [_ Hlk].
  pose proof (Hlk (Z.of_nat j) ltac:(lia)) as H1.
  rewrite Nat2Z.id, Hj in H1. injection H1 as ->.
  assert (Hidx : 12000 <= monthIndex now - monthsBack + Z.of_nat j < 120000) by lia.
  clear Hj Hlk Hlen Hmb Hlo Hhi.
  generalize dependent (monthIndex now - monthsBack + Z.of_nat j).
  intros idx Hidx.
  destruct knownMonth_keys as (K1 & K2 & K3).
  pose proof (calendarWindow_key_eqb 24311 idx ltac:(lia) Hidx) as E1.
  pose proof (calendarWindow_key_eqb 24312 idx ltac:(lia) Hidx) as E2.
  pose proof (calendarWindow_key_eqb 24314 idx ltac:(lia) Hidx) as E3.
  pose proof (calendarWindow_key_leb 24311 idx ltac:(lia) Hidx) as L1.
  pose proof (calendarWindow_key_leb 24312 idx ltac:(lia) Hidx) as L2.
  pose proof (calendarWindow_key_leb 24314 idx ltac:(lia) Hidx) as L3.
  rewrite <- K1 in E1, L1. rewrite <- K2 in E2, L2. rewrite <- K3 in E3, L3.
  set (k := key (calendarWindow idx)) in *. clearbody k.
  unfold knownMonthFor.
  change (12 * 2025 + 11) with 24311. change (12 * 2026 + 0) with 24312.
  change (12 * 2026 + 1) with 24313.
  destruct (Z.eqb_spec 24311 idx) as [<- | N1].
  { apply String.eqb_eq in E1 as <-. reflexivity. }
  destruct (Z.eqb_spec 24312 idx) as [<- | N2].
  { apply String.eqb_eq in E2 as <-. reflexivity. }
  destruct (Z.eqb_spec 24314 idx) as [<- | N3].
  { apply String.eqb_eq in E3 as <-. reflexivity. }
  assert (Hno : entryOf KNOWN_MEMBER_COUNTS k = None).
  { apply entryOf_None. repeat constructor; assumption. }
  replace (idx =? 24311) with false by (symmetry; apply Z.eqb_neq; lia).
  assert (Hcase : idx < 24311 \/ idx = 24313 \/ 24314 < idx) by lia.
  destruct Hcase as [Hc | [-> | Hc]].
  - assert (B1 : (24311 <=? idx) = false) by (apply Z.leb_gt; lia).
    assert (B2 : (24312 <=? idx) = false) by (apply Z.leb_gt; lia).
    assert (B3 : (24314 <=? idx) = false) by (apply Z.leb_gt; lia).
    rewrite B1 in L1. rewrite B2 in L2 |- *. rewrite B3 in L3.
    cbn [andb].
    apply getMemberCounts_none_before; [exact Hno|].
    rewrite knownMonths_sorted, !filter_cons, filter_nil, L1, L2, L3. reflexivity.
  - change (24311 <=? 24313) with true in L1. change (24312 <=? 24313) with true in L2.
    change (24314 <=? 24313) with false in L3.
    change ((24312 <=? 24313) && (24313 <=? 24313))%bool with true. cbv iota.
    apply getMemberCounts_latest_before; [exact Hno|].
    rewrite knownMonths_sorted, !filter_cons, filter_nil, L1, L2, L3. reflexivity.
  - assert (B1 : (24311 <=? idx) = true) by (apply Z.leb_le; lia).
    assert (B2 : (24312 <=? idx) = true) by (apply Z.leb_le; lia).
    assert (B3 : (24314 <=? idx) = true) by (apply Z.leb_le; lia).
    assert (B4 : (idx <=? 24313) = false) by (apply Z.leb_gt; lia).
    rewrite B1 in L1. rewrite B2 in L2 |- *. rewrite B3 in L3. rewrite B4.
    cbn [andb].
    apply getMemberCounts_latest_before; [exact Hno|].
    rewrite knownMonths_sorted, !filter_cons, filter_nil, L1, L2, L3. reflexivity.
Qed.

(** November 2025, the first window of a run in November 2026, reads
    the counts of March 2026. *)
Lemma window_reads_the_counts_of_a_known_month_witness :
  getMemberCounts "2025-11" = default ∅ (entryOf KNOWN_MEMBER_COUNTS "2026-03").
Proof.
  apply (window_reads_the_counts_of_a_known_month (JSDate.mkDate 20759) 12 0
           (mkWindow "2025-11" "2025-11-01" "2025-11-30")).
  - vm_compute. discriminate.
  - vm_compute. reflexivity.
  - vm_compute. reflexivity.
Defined.

(* ===================================================================== *)
(** * The adapters inside the refresh loop *)
(* ===================================================================== *)

Lemma hubspot_down_counts fuel environment hubspot startDate endDate counts :
  (forall request, exists status text, hubspot request = HubSpot.NotOk status text) ->
  (HubSpot.pullHubSpotLeads fuel environment hubspot startDate endDate
   = Continues (Some counts)
   \/ HubSpot.pullHubSpotNewMembers fuel environment hubspot startDate endDate
      = Continues (Some counts)) ->
  counts = Returned ∅.
Proof.
  intros Hdown H.
  unfold HubSpot.pullHubSpotLeads, HubSpot.pullHubSpotNewMembers,
    HubSpot.hubspotSearch in H.
  destruct (env environment "HUBSPOT_TOKEN" true) as [token|code stderr];
    [|destruct H as [H | H]; discriminate].
  cbn [thenDo] in H.
  destruct fuel as [|fuel]; [destruct H as [H | H]; discriminate|].
  cbn [HubSpot.searchLoop] in H.
  destruct H as [H | H].
  - destruct (Hdown (HubSpot.mkRequest "contacts" token
                       (HubSpot.leadFilters startDate endDate)
                       ["saltbox_location"%string] 100 None)) as (status & text & E).
    rewrite E in H. cbn [mapOutcome] in H. now injection H as <-.
  - destruct (Hdown (HubSpot.mkRequest "deals" token
                       (HubSpot.dealFilters startDate endDate)
                       ["saltbox_location"%string; "closedate"%string] 100 None))
      as (status & text & E).
    rewrite E in H. cbn [mapOutcome] in H. now injection H as <-.
Qed.

(** X25.  An outage of HubSpot is no error for the refresh loop.  When
    every search is answered with a response that is not OK while the
    ledger answers, a month that is recomputed, be it one of the two
    most recent windows or an older one that the baseline lacks, is
    reported as pulled and its records are written from no leads and no
    new members, over whatever the baseline held for it: at every
    location the cost per lead and the three acquisition costs are
    null. *)
Theorem hubspot_outage_is_pulled_without_leads (fuel : nat) (environment : Env)
    (hubspot : HubSpot.Server) (src : Adapters) stamp (existing : Dataset.t)
    (months : list MonthWindow) (i : nat) (month : MonthWindow)
    (revenue spend : gmap string Q) :
  overHubSpot fuel environment hubspot src ->
  (forall request, exists status text, hubspot request = HubSpot.NotOk status text) ->
  NoDup (map key months) ->
  months !! i = Some month ->
  useCached existing months i month = false ->
  pullNetSuiteRevenue src (start month) (end_ month) = Returned revenue ->
  pullNetSuiteMarketingSpend src (start month) (end_ month) = Returned spend ->
  let kpis := calculateKPIs (mkInputs revenue spend ∅ ∅ (getMemberCounts (key month))) in
  snd (run stamp existing src months) !! i = Some (Pulled (key month))
  /\ Dataset.data (fst (run stamp existing src months)) !! key month
     = Some (KPIs.data kpis)
  /\ Dataset.totals (fst (run stamp existing src months)) !! key month
     = Some (KPIs.totals kpis)
  /\ (forall loc, loc ∈ LOCATIONS ->
        exists record, KPIs.data kpis !! loc = Some record
          /\ costPerLead record = None /\ cac record = None
          /\ corpCac record = None /\ allInCac record = None).
Proof.
  intros Hover Hdown Hnd Hi Hcached Hrev Hspend kpis.
  destruct (Hover (start month) (end_ month)) as [Hleads Hnew].
  apply (fun H => hubspot_down_counts _ _ _ _ _ _ Hdown (or_introl H)) in Hleads.
  apply (fun H => hubspot_down_counts _ _ _ _ _ _ Hdown (or_intror H)) in Hnew.
  assert (Hpull : pullMonth src month = Returned kpis).
  { unfold pullMonth. rewrite Hrev, Hspend, Hleads, Hnew. reflexivity. }
  destruct (run_lookup stamp existing src months i month Hnd Hi) as [Hd Ht].
  unfold dataAfter in Hd. unfold totalsAfter in Ht.
  rewrite Hcached, Hpull in Hd, Ht.
  split; [|split; [exact Hd | split; [exact Ht|]]].
  - rewrite run_log, (reportsFrom_lookup _ _ _ 0 months i month Hi).
    cbn [Nat.add]. unfold reportOf. now rewrite Hcached, Hpull.
  - intros loc Hloc. exists (locationKPIs
       (mkInputs revenue spend ∅ ∅ (getMemberCounts (key month))) loc).
    split.
    + unfold kpis. rewrite calculateKPIs_data.
      now rewrite (bool_decide_eq_true_2 _ Hloc).
    + unfold locationKPIs. cbn [costPerLead cac corpCac allInCac leads newMembers].
      unfold countOrZero. rewrite lookup_empty. cbn [default from_option].
      change (0 <? 0)%N with false. cbn [ratioWhen r2]. auto.
Qed.

Lemma quietSources_overHubSpot : overHubSpot 1 sampleEnv hubspotDown quietSources.
Proof. intros startDate endDate. split; reflexivity. Qed.

(** With HubSpot down: February 2024, the last of the four windows, and
    November 2023, the first of them, which is not among the two most
    recent and is recomputed because the baseline does not hold it. *)
Lemma hubspot_outage_is_pulled_without_leads_witness :
  snd (run sampleStamp sampleBaseline quietSources fourWindows) !! 3%nat
  = Some (Pulled "2024-02")
  /\ isRecent fourWindows 0 = false
  /\ snd (run sampleStamp sampleBaseline quietSources fourWindows) !! 0%nat
     = Some (Pulled "2023-11").
Proof.
  assert (Hnd : NoDup (map key fourWindows)).
  { rewrite fourWindows_keys. apply (bool_decide_unpack _). vm_compute. exact I. }
  assert (Hdown : forall request, exists status text,
             hubspotDown request = HubSpot.NotOk status text).
  { intros request. exists 503, "Service Unavailable"%string. reflexivity. }
  split; [|split; [vm_compute; reflexivity|]].
  - destruct (hubspot_outage_is_pulled_without_leads 1 sampleEnv hubspotDown quietSources
                sampleStamp sampleBaseline fourWindows 3
                (mkWindow "2024-02" "2024-02-01" "2024-02-29") ∅ ∅
                quietSources_overHubSpot Hdown Hnd) as [Hreport _].
    + vm_compute. reflexivity.
    + vm_compute. reflexivity.
    + reflexivity.
    + reflexivity.
    + exact Hreport.
  - destruct (hubspot_outage_is_pulled_without_leads 1 sampleEnv hubspotDown quietSources
                sampleStamp sampleBaseline fourWindows 0
                (mkWindow "2023-11" "2023-11-01" "2023-11-30") ∅ ∅
                quietSources_overHubSpot Hdown Hnd) as [Hreport _].
    + vm_compute. reflexivity.
    + vm_compute. reflexivity.
    + reflexivity.
    + reflexivity.
    + exact Hreport.
Defined.
